(** * scrcpy WebRTC signaling server: frame codec, upgrade negotiator,
      client registry and server lifecycle

    A shallow embedding of [app/src/webrtc_server.c] and
    [app/src/webrtc_server.h], and the properties of the signaling core
    established on it.

    Conventions.
    - [uint8_t]/[char] data are [byte]s; arithmetic on them goes through
      [byte_to_Z] and [byte_of_Z] (the latter truncates to 8 bits).
    - [size_t] and [uint64_t] values are [Z] with the 64-bit wrap-around
      written out ([wrap64]); [int] values are plain [Z].
    - A buffer handed to a function as (pointer, length) is a [list byte]
      whose length is the length argument.  Every access outside a buffer
      is undefined behaviour and is reported as such ([Undefined]). *)

From Stdlib Require Import ZArith Lia Bool.
From Stdlib Require Import Strings.Byte Strings.Ascii Strings.String.
From Stdlib Require Import Numbers.DecimalString.
From stdpp Require Import base list.

Local Open Scope Z_scope.

(** ** Bytes and machine integers *)

Definition byte_to_Z (b : byte) : Z := Z.of_N (Byte.to_N b).

Definition byte_of_Z (z : Z) : byte :=
  match Byte.of_N (Z.to_N (z mod 256)) with
  | Some b => b
  | None => x00
  end.

Definition byte_xor (a b : byte) : byte :=
  byte_of_Z (Z.lxor (byte_to_Z a) (byte_to_Z b)).

Definition wrap64 (z : Z) : Z := z mod 2 ^ 64.

(** The bytes of a string literal. *)
Definition bytes_of_string (s : string) : list byte := list_byte_of_string s.

(** ** Outcome of a C function with a [bool] status and out-parameters *)

Inductive cresult (A : Type) : Type :=
| Ok (a : A)      (* returned [true]; [a] holds the out-parameters *)
| Fail            (* returned [false] *)
| Undefined.      (* accessed memory outside a buffer *)

Arguments Ok {A} a.
Arguments Fail {A}.
Arguments Undefined {A}.

Definition cbind {A B} (m : cresult A) (k : A -> cresult B) : cresult B :=
  match m with
  | Ok a => k a
  | Fail => Fail
  | Undefined => Undefined
  end.

Notation "'let*' x ':=' m 'in' k" := (cbind m (fun x => k))
  (at level 10, x name, m at level 100, k at level 200).
Notation "'let*' ' pat ':=' m 'in' k" :=
  (cbind m (fun x => match x with pat => k end))
  (at level 10, pat pattern, m at level 100, k at level 200).

(** [buf[i]] as an rvalue. *)
Definition load (buf : list byte) (i : Z) : cresult Z :=
  if i <? 0 then Undefined
  else match buf !! Z.to_nat i with
       | Some b => Ok (byte_to_Z b)
       | None => Undefined
       end.

(** [buf[i] = v]. *)
Definition store (buf : list byte) (i : Z) (v : Z) : cresult (list byte) :=
  if (0 <=? i) && (i <? Z.of_nat (length buf))
  then Ok (<[Z.to_nat i := byte_of_Z v]> buf)
  else Undefined.

(** [memcpy(dst + doff, src + soff, n)]: both ranges must lie inside
    their buffers. *)
Definition memcpy (dst : list byte) (doff : Z) (src : list byte) (soff : Z)
    (n : Z) : cresult (list byte) :=
  if (0 <=? doff) && (0 <=? soff) && (0 <=? n)
     && (doff + n <=? Z.of_nat (length dst))
     && (soff + n <=? Z.of_nat (length src))
  then Ok (take (Z.to_nat doff) dst
           ++ take (Z.to_nat n) (drop (Z.to_nat soff) src)
           ++ drop (Z.to_nat (doff + n)) dst)
  else Undefined.

(** ** Frame codec *)

Section Codec.

(** [malloc n] returns a non-NULL block of [n] bytes exactly when
    [malloc_succeeds n]; the allocator is the platform's. *)
Variable malloc_succeeds : Z -> bool.

Definition malloc (n : Z) : cresult (list byte) :=
  if malloc_succeeds n then Ok (replicate (Z.to_nat n) x00) else Fail.

(** The 8-byte loop of [parse_websocket_frame]:
    [payload_length = (payload_length << 8) | data[2 + i]]. *)
Fixpoint read_length64 (data : list byte) (i : Z) (n : nat)
    (payload_length : Z) : cresult Z :=
  match n with
  | O => Ok payload_length
  | S n' =>
      let* d := load data (2 + i) in
      read_length64 data (i + 1) n'
        (Z.lor (wrap64 (Z.shiftl payload_length 8)) d)
  end.

(** The header part of [parse_websocket_frame], up to and including
    [if (masked) header_len += 4]: yields
    [(masked, payload_length, header_len)]. *)
Definition parse_header (data : list byte) : cresult (bool * Z * Z) :=
  let len := Z.of_nat (length data) in
  if len <? 2 then Fail else
  let* d0 := load data 0 in
  let* d1 := load data 1 in
  let opcode := Z.land d0 0x0F in
  let masked := negb (Z.land d1 0x80 =? 0) in
  let payload_length := Z.land d1 0x7F in
  let header_len := 2 in
  let* '(payload_length, header_len) :=
    if payload_length =? 126 then
      if len <? 4 then Fail else
      let* d2 := load data 2 in
      let* d3 := load data 3 in
      Ok (Z.lor (Z.shiftl d2 8) d3, 4)
    else if payload_length =? 127 then
      if len <? 10 then Fail else
      let* pl := read_length64 data 0 8 0 in
      Ok (pl, 10)
    else Ok (payload_length, header_len) in
  let header_len := if masked then wrap64 (header_len + 4) else header_len in
  Ok (masked, payload_length, header_len).

(** The unmasking loop: [payload[i] ^= mask[i % 4]] for
    [i = i0, i0 + 1, ...] over the given bytes. *)
Fixpoint unmask (mask : list byte) (i : nat) (bytes : list byte)
    : list byte :=
  match bytes with
  | [] => []
  | b :: rest =>
      byte_xor b (nth (i mod 4)%nat mask x00) :: unmask mask (S i) rest
  end.

(** [parse_websocket_frame(data, len, &payload, &payload_len)].  On
    success the result is the allocated buffer (the payload followed by
    the terminating NUL) and [payload_len]. *)
Definition parse_websocket_frame (data : list byte)
    : cresult (list byte * Z) :=
  let len := Z.of_nat (length data) in
  let* '(masked, payload_length, header_len) := parse_header data in
  if len <? wrap64 (header_len + payload_length) then Fail else
  let* payload := malloc (wrap64 (payload_length + 1)) in
  let* payload := memcpy payload 0 data header_len payload_length in
  let* payload := store payload payload_length 0 in
  let payload_len := payload_length in
  if masked then
    let* mask := memcpy (replicate 4 x00) 0 data (header_len - 4) 4 in
    let n := Z.to_nat payload_length in
    Ok (unmask mask 0 (take n payload) ++ drop n payload, payload_len)
  else Ok (payload, payload_len).

(** The 8-byte loop of [create_websocket_frame]:
    [frame[2 + i] = (payload_len >> (8 * (7 - i))) & 0xFF]. *)
Fixpoint write_length64 (frame : list byte) (payload_len : Z) (i : Z)
    (n : nat) : cresult (list byte) :=
  match n with
  | O => Ok frame
  | S n' =>
      let* frame :=
        store frame (2 + i)
          (Z.land (Z.shiftr payload_len (8 * (7 - i))) 0xFF) in
      write_length64 frame payload_len (i + 1) n'
  end.

(** The choice of [header_len] at the top of [create_websocket_frame]. *)
Definition frame_header_len (payload_len : Z) : Z :=
  if 65535 <? payload_len then 10
  else if 125 <? payload_len then 4
  else 2.

(** [create_websocket_frame(payload, payload_len, &frame, &frame_len)].
    On success the result is the allocated frame and [frame_len]. *)
Definition create_websocket_frame (payload : list byte)
    : cresult (list byte * Z) :=
  let payload_len := Z.of_nat (length payload) in
  let header_len := frame_header_len payload_len in
  let frame_len := wrap64 (header_len + payload_len) in
  let* frame := malloc frame_len in
  let* frame := store frame 0 0x81 in
  let* frame :=
    if 65535 <? payload_len then
      let* frame := store frame 1 127 in
      write_length64 frame payload_len 0 8
    else if 125 <? payload_len then
      let* frame := store frame 1 126 in
      let* frame := store frame 2 (Z.land (Z.shiftr payload_len 8) 0xFF) in
      store frame 3 (Z.land payload_len 0xFF)
    else
      store frame 1 (Z.land payload_len 0x7F) in
  let* frame := memcpy frame header_len payload 0 payload_len in
  Ok (frame, frame_len).

End Codec.

(** ** The header layout in the words of the protocol *)

(** Digit [j] (counted from the least significant end) of [n] written
    in base 256. *)
Definition be_digit (n j : Z) : byte := byte_of_Z ((n / 256 ^ j) mod 256).

(** The header of an unmasked single-frame text message carrying [n]
    payload bytes: FIN and opcode 1, then the length in one of its three
    encodings. *)
Definition text_frame_header (n : Z) : list byte :=
  if n <=? 125 then [x81; byte_of_Z n]
  else if n <=? 65535 then [x81; byte_of_Z 126; be_digit n 1; be_digit n 0]
  else [x81; byte_of_Z 127;
        be_digit n 7; be_digit n 6; be_digit n 5; be_digit n 4;
        be_digit n 3; be_digit n 2; be_digit n 1; be_digit n 0].

(** The payload as it lies in a frame, before unmasking. *)
Definition raw_payload (data : list byte) (header_len payload_length : Z)
    : list byte :=
  take (Z.to_nat payload_length) (drop (Z.to_nat header_len) data).

(** The four bytes that precede the payload of a masked frame. *)
Definition mask_key (data : list byte) (header_len : Z) : list byte :=
  take 4 (drop (Z.to_nat (header_len - 4)) data).

(** A ten-byte buffer: an unmasked text frame header that declares a
    payload of [2 ^ 64 - 1] bytes, and nothing after it. *)
Definition oversized_frame : list byte :=
  [x81; x7f; xff; xff; xff; xff; xff; xff; xff; xff].

(** A masked frame: key 1, 2, 3, 4 and the two payload bytes [AB]. *)
Definition masked_AB_frame : list byte :=
  [x81; x82; x01; x02; x03; x04] ++ bytes_of_string "AB".

(** ** Server state *)

Definition sc_socket := Z.

Definition SC_WEBRTC_DEFAULT_PORT : Z := 8080.
Definition SC_WEBRTC_MAX_CLIENTS : Z := 10.
Definition SC_WEBRTC_BUFFER_SIZE : Z := 65536.

(** [struct sc_webrtc_client].  The opaque handles are [None] when NULL.
    The back pointer [server] always designates the enclosing server and
    is left out. *)
Record sc_webrtc_client := mk_client {
  id : Z;
  peer_connection : option Z;
  data_channel : option Z;
  connected : bool;
  socket : sc_socket;
}.

(** [struct sc_webrtc_server].  [mutex] is the number of times the
    running thread holds the lock; a callback field is [true] when the
    pointer is set.  The thread handle, the frame sink and [on_error]
    play no part in what follows and are left out. *)
Record sc_webrtc_server := mk_server {
  server_socket : sc_socket;
  port : Z;
  stopped : bool;
  mutex : nat;
  clients : list sc_webrtc_client;
  client_count : Z;
  on_client_connected : bool;
  on_client_disconnected : bool;
}.

(** What the server does to the outside, in order.  A callback is
    recorded when it is called; what it does itself is outside the
    model. *)
Inductive event : Type :=
| NetSendAll (s : sc_socket) (data : list byte)
| NetClose (s : sc_socket)
| RtcDeletePeerConnection (pc : Z)
| OnClientConnected (client_id : Z)
| OnClientDisconnected (client_id : Z).

Record world := mk_world {
  srv : sc_webrtc_server;
  log : list event;
}.

Definition set_connected (b : bool) (c : sc_webrtc_client) :=
  mk_client (id c) (peer_connection c) (data_channel c) b (socket c).
Definition set_peer_connection (p : option Z) (c : sc_webrtc_client) :=
  mk_client (id c) p (data_channel c) (connected c) (socket c).

Definition set_server_socket (v : sc_socket) (s : sc_webrtc_server) :=
  mk_server v (port s) (stopped s) (mutex s) (clients s) (client_count s)
    (on_client_connected s) (on_client_disconnected s).
Definition set_stopped (v : bool) (s : sc_webrtc_server) :=
  mk_server (server_socket s) (port s) v (mutex s) (clients s)
    (client_count s) (on_client_connected s) (on_client_disconnected s).
Definition set_mutex (v : nat) (s : sc_webrtc_server) :=
  mk_server (server_socket s) (port s) (stopped s) v (clients s)
    (client_count s) (on_client_connected s) (on_client_disconnected s).
Definition set_clients (v : list sc_webrtc_client) (s : sc_webrtc_server) :=
  mk_server (server_socket s) (port s) (stopped s) (mutex s) v
    (client_count s) (on_client_connected s) (on_client_disconnected s).
Definition set_client_count (v : Z) (s : sc_webrtc_server) :=
  mk_server (server_socket s) (port s) (stopped s) (mutex s) (clients s) v
    (on_client_connected s) (on_client_disconnected s).

(** ** Sequential execution of server code *)

Inductive outcome (A : Type) : Type :=
| Done (a : A) (w : world)   (* the call returned [a] *)
| Deadlock (w : world)       (* the thread blocks for ever on a lock *)
| OutOfBounds.               (* an index outside the client table *)

Arguments Done {A} a w.
Arguments Deadlock {A} w.
Arguments OutOfBounds {A}.

Definition M (A : Type) : Type := world -> outcome A.

Definition ret {A} (a : A) : M A := fun w => Done a w.

Definition bind {A B} (m : M A) (k : A -> M B) : M B :=
  fun w =>
    match m w with
    | Done a w' => k a w'
    | Deadlock w' => Deadlock w'
    | OutOfBounds => OutOfBounds
    end.

Notation "'do' x <- m ; k" := (bind m (fun x => k))
  (at level 10, x name, m at level 100, k at level 200).
Notation "m ;; k" := (bind m (fun _ => k))
  (at level 100, k at level 200, right associativity).

Definition get_server : M sc_webrtc_server := fun w => Done (srv w) w.

Definition modify_server (f : sc_webrtc_server -> sc_webrtc_server)
    : M unit :=
  fun w => Done tt (mk_world (f (srv w)) (log w)).

Definition emit (e : event) : M unit :=
  fun w => Done tt (mk_world (srv w) (log w ++ [e])).

Definition when (b : bool) (m : M unit) : M unit := if b then m else ret tt.

Fixpoint for_each (l : list Z) (body : Z -> M unit) : M unit :=
  match l with
  | [] => ret tt
  | i :: l' => body i ;; for_each l' body
  end.

(** [server->clients[i]] as an rvalue. *)
Definition read_client (i : Z) : M sc_webrtc_client :=
  fun w =>
    if i <? 0 then OutOfBounds
    else match clients (srv w) !! Z.to_nat i with
         | Some c => Done c w
         | None => OutOfBounds
         end.

(** [server->clients[i] = f (server->clients[i])]. *)
Definition update_client (i : Z) (f : sc_webrtc_client -> sc_webrtc_client)
    : M unit :=
  do c <- read_client i;
  modify_server (fun s => set_clients (<[Z.to_nat i := f c]> (clients s)) s).

(** ** C strings *)

(** The string a NUL-terminated buffer holds. *)
Fixpoint c_string (buf : list byte) : list byte :=
  match buf with
  | [] => []
  | b :: rest => if Byte.eqb b x00 then [] else b :: c_string rest
  end.

Fixpoint starts_with (needle hay : list byte) : bool :=
  match needle, hay with
  | [], _ => true
  | _ :: _, [] => false
  | n :: needle', h :: hay' => Byte.eqb n h && starts_with needle' hay'
  end.

(** [strstr(hay, needle) != NULL]. *)
Fixpoint strstr (hay needle : list byte) : bool :=
  starts_with needle hay
  || match hay with
     | [] => false
     | _ :: hay' => strstr hay' needle
     end.

Definition CR : string := String (ascii_of_nat 13) EmptyString.
Definition LF : string := String (ascii_of_nat 10) EmptyString.
Definition CRLF : string := CR ++ LF.

(** [HTTP_RESPONSE_TEMPLATE] filled in by [snprintf] with a length and a
    body. *)
Definition http_response (content_length : nat) (body : list byte)
    : list byte :=
  bytes_of_string
    ("HTTP/1.1 200 OK" ++ CRLF ++
     "Content-Type: text/html" ++ CRLF ++
     "Access-Control-Allow-Origin: *" ++ CRLF ++
     "Access-Control-Allow-Methods: GET, POST, OPTIONS" ++ CRLF ++
     "Access-Control-Allow-Headers: Content-Type" ++ CRLF ++
     "Content-Length: "
       ++ NilZero.string_of_uint (Nat.to_uint content_length) ++ CRLF ++
     CRLF)
  ++ body.

(** The literal [websocket_response] of
    [sc_webrtc_server_handle_websocket]. *)
Definition websocket_response : list byte :=
  bytes_of_string
    ("HTTP/1.1 101 Switching Protocols" ++ CRLF ++
     "Upgrade: websocket" ++ CRLF ++
     "Connection: Upgrade" ++ CRLF ++
     "Sec-WebSocket-Accept: s3pPLMBiTxaQ9kYGzzhZRbK+xOo=" ++ CRLF ++
     CRLF).

(** ** The server *)

Section ServerCode.

(** The lock of [util/thread.h]: whether a thread that already holds
    it may take it again. *)
Variable mutex_recursive : bool.

(** [SC_SOCKET_NONE] of [util/net.h]. *)
Variable SC_SOCKET_NONE : sc_socket.

(** The transport.  [net_recv s] is [None] when the read fails and
    otherwise the bytes the peer has made available; a read stores as
    many of them as the buffer takes and returns their number.
    [net_send_all s data] is the value the call returns. *)
Variable net_recv : sc_socket -> option (list byte).
Variable net_send_all : sc_socket -> list byte -> Z.

(** The page [HTML_CLIENT]: a NUL-free text whose contents play no
    part in what follows. *)
Variable HTML_CLIENT : list byte.

(** Modelled from the spec: [sc_mutex_lock] and [sc_mutex_unlock] of
    [util/thread.h], which is not part of the sources.  The registry
    is guarded by a single lock; a thread that takes it while holding
    it either nests (recursive lock) or waits for itself for ever. *)
Definition sc_mutex_lock : M unit :=
  fun w =>
    match mutex (srv w) with
    | O => Done tt (mk_world (set_mutex 1 (srv w)) (log w))
    | S n =>
        if mutex_recursive
        then Done tt (mk_world (set_mutex (S (S n)) (srv w)) (log w))
        else Deadlock w
    end.

Definition sc_mutex_unlock : M unit :=
  modify_server (fun s => set_mutex (Nat.pred (mutex s)) s).

Definition net_close (s : sc_socket) : M unit := emit (NetClose s).

Definition send_all (s : sc_socket) (data : list byte) : M Z :=
  emit (NetSendAll s data) ;; ret (net_send_all s data).

(** [sc_webrtc_server_add_client]; the result is the [int] returned. *)
Definition sc_webrtc_server_add_client (client_socket : sc_socket) : M Z :=
  sc_mutex_lock ;;
  do server <- get_server;
  if SC_WEBRTC_MAX_CLIENTS <=? client_count server then
    sc_mutex_unlock ;;
    ret (-1)
  else
    let client_id := client_count server in
    update_client client_id
      (fun _ => mk_client client_id None None true client_socket) ;;
    modify_server (fun s => set_client_count (client_count s + 1) s) ;;
    sc_mutex_unlock ;;
    ret client_id.

(** [sc_webrtc_server_remove_client]. *)
Definition sc_webrtc_server_remove_client (client_id : Z) : M unit :=
  sc_mutex_lock ;;
  do server <- get_server;
  when ((0 <=? client_id) && (client_id <? client_count server))
    (do client <- read_client client_id;
     when (connected client)
       (update_client client_id (set_connected false) ;;
        net_close (socket client) ;;
        match peer_connection client with
        | Some pc =>
            emit (RtcDeletePeerConnection pc) ;;
            update_client client_id (set_peer_connection None)
        | None => ret tt
        end ;;
        when (on_client_disconnected server)
          (emit (OnClientDisconnected client_id)))) ;;
  sc_mutex_unlock.

(** [sc_webrtc_server_get_client]: the slot designated, if any. *)
Definition sc_webrtc_server_get_client (client_id : Z)
    : M (option sc_webrtc_client) :=
  do server <- get_server;
  if (0 <=? client_id) && (client_id <? client_count server)
  then do c <- read_client client_id; ret (Some c)
  else ret None.

(** [sc_webrtc_server_handle_websocket]. *)
Definition sc_webrtc_server_handle_websocket (client_socket : sc_socket)
    : M bool :=
  do sent <- send_all client_socket websocket_response;
  if sent <=? 0 then ret false
  else
    do client_id <- sc_webrtc_server_add_client client_socket;
    if client_id <? 0 then ret false
    else
      do server <- get_server;
      when (on_client_connected server)
        (emit (OnClientConnected client_id)) ;;
      ret true.

(** [sc_webrtc_server_handle_http]. *)
Definition sc_webrtc_server_handle_http (client_socket : sc_socket)
    : M bool :=
  match net_recv client_socket with
  | None => ret false
  | Some available =>
      let buffer := take (Z.to_nat (4096 - 1)) available in
      let received := Z.of_nat (length buffer) in
      if received <=? 0 then ret false
      else if strstr (c_string buffer)
                (bytes_of_string "Upgrade: websocket")
      then sc_webrtc_server_handle_websocket client_socket
      else
        let response := http_response (length HTML_CLIENT) HTML_CLIENT in
        do sent <- send_all client_socket response;
        ret (0 <? sent)
  end.

(** The body of the accept loop of [run_webrtc_server] once
    [net_accept] has returned [client_socket]. *)
Definition run_webrtc_server_accepted (client_socket : sc_socket)
    : M unit :=
  if client_socket =? SC_SOCKET_NONE then ret tt
  else
    do handled <- sc_webrtc_server_handle_http client_socket;
    when (negb handled) (net_close client_socket).


(** The body of the loop of [sc_webrtc_server_stop]:
    [if (server->clients[i].connected) remove_client(server, i)]. *)
Definition stop_loop_body (i : Z) : M unit :=
  do c <- read_client i;
  when (connected c) (sc_webrtc_server_remove_client i).

(** [sc_webrtc_server_stop].  Nothing in the loop changes
    [client_count], so the loop runs over the indices below the count
    read on entry. *)
Definition sc_webrtc_server_stop : M unit :=
  modify_server (set_stopped true) ;;
  sc_mutex_lock ;;
  do server <- get_server;
  for_each (seqZ 0 (client_count server)) stop_loop_body ;;
  sc_mutex_unlock ;;
  do server <- get_server;
  when (negb (server_socket server =? SC_SOCKET_NONE))
    (net_close (server_socket server) ;;
     modify_server (set_server_socket SC_SOCKET_NONE)).

End ServerCode.

(** ** The opening handshake of the WebSocket protocol

    The sources contain no computation of the accept token; the
    algorithm (SHA-1 and base64 included) is written out here as the
    reference against which the response of the server is compared. *)

Module Handshake.

Definition w32 (z : Z) : Z := z mod 2 ^ 32.
Definition rotl (n x : Z) : Z :=
  w32 (Z.lor (Z.shiftl x n) (Z.shiftr x (32 - n))).
Definition lnot32 (x : Z) : Z := Z.lxor x 0xFFFFFFFF.

(** Big-endian value of a list of bytes. *)
Definition be_value (bs : list byte) : Z :=
  fold_left (fun acc b => acc * 256 + byte_to_Z b) bs 0.

(** The [k] low-order bytes of [n], most significant first. *)
Fixpoint be_bytes (k : nat) (n : Z) : list byte :=
  match k with
  | O => []
  | S k' => byte_of_Z (n / 256 ^ Z.of_nat k') :: be_bytes k' n
  end.

(** SHA-1 padding: a 1 bit, zeros up to 56 modulo 64 bytes, and the
    message length in bits on 8 bytes. *)
Definition sha1_pad (msg : list byte) : list byte :=
  let len := Z.of_nat (length msg) in
  let zeros := Z.to_nat ((55 - len) mod 64) in
  msg ++ x80 :: replicate zeros x00 ++ be_bytes 8 (8 * len).

Fixpoint chunks (fuel : nat) (k : nat) (bs : list byte) : list (list byte) :=
  match fuel, bs with
  | O, _ | _, [] => []
  | S fuel', _ => take k bs :: chunks fuel' k (drop k bs)
  end.

(** The message schedule, most recent word first. *)
Fixpoint sha1_schedule (n : nat) (ws : list Z) : list Z :=
  match n with
  | O => ws
  | S n' =>
      let w i := nth i ws 0 in
      sha1_schedule n'
        (rotl 1 (Z.lxor (Z.lxor (Z.lxor (w 2%nat) (w 7%nat)) (w 13%nat))
                   (w 15%nat)) :: ws)
  end.

Definition sha1_f (t : Z) (b c d : Z) : Z :=
  if t <? 20 then Z.lor (Z.land b c) (Z.land (lnot32 b) d)
  else if t <? 40 then Z.lxor (Z.lxor b c) d
  else if t <? 60 then
    Z.lor (Z.lor (Z.land b c) (Z.land b d)) (Z.land c d)
  else Z.lxor (Z.lxor b c) d.

Definition sha1_k (t : Z) : Z :=
  if t <? 20 then 0x5A827999
  else if t <? 40 then 0x6ED9EBA1
  else if t <? 60 then 0x8F1BBCDC
  else 0xCA62C1D6.

Definition sha1_state : Type := Z * Z * Z * Z * Z.

Definition sha1_round (st : sha1_state) (tw : Z * Z) : sha1_state :=
  let '(a, b, c, d, e) := st in
  let '(t, w) := tw in
  (w32 (rotl 5 a + sha1_f t b c d + e + sha1_k t + w), a, rotl 30 b, c, d).

Definition sha1_block (h : sha1_state) (block : list byte) : sha1_state :=
  let w16 := map be_value (chunks 16 4 block) in
  let ws := rev (sha1_schedule 64 (rev w16)) in
  let '(a, b, c, d, e) :=
    fold_left sha1_round (zip (seqZ 0 80) ws) h in
  let '(h0, h1, h2, h3, h4) := h in
  (w32 (h0 + a), w32 (h1 + b), w32 (h2 + c), w32 (h3 + d), w32 (h4 + e)).

Definition sha1 (msg : list byte) : list byte :=
  let padded := sha1_pad msg in
  let blocks := chunks (length padded) 64 padded in
  let '(h0, h1, h2, h3, h4) :=
    fold_left sha1_block blocks
      (0x67452301, 0xEFCDAB89, 0x98BADCFE, 0x10325476, 0xC3D2E1F0) in
  be_bytes 4 h0 ++ be_bytes 4 h1 ++ be_bytes 4 h2 ++ be_bytes 4 h3
  ++ be_bytes 4 h4.

Definition base64_alphabet : list byte :=
  bytes_of_string
    "ABCDEFGHIJKLMNOPQRSTUVWXYZabcdefghijklmnopqrstuvwxyz0123456789+/".

Definition base64_char (v : Z) : byte :=
  nth (Z.to_nat (v mod 64)) base64_alphabet x00.

Definition base64_pad : byte := byte_of_Z 61.

Fixpoint base64_groups (groups : list (list byte)) : list byte :=
  match groups with
  | [] => []
  | g :: rest =>
      let v := be_value (g ++ replicate (3 - length g)%nat x00) in
      let c i := base64_char (v / 64 ^ i) in
      match length g with
      | 1%nat => [c 3; c 2; base64_pad; base64_pad]
      | 2%nat => [c 3; c 2; c 1; base64_pad]
      | _ => [c 3; c 2; c 1; c 0]
      end ++ base64_groups rest
  end.

Definition base64_encode (bs : list byte) : list byte :=
  base64_groups (chunks (length bs) 3 bs).

Definition websocket_guid : list byte :=
  bytes_of_string "258EAFA5-E914-47DA-95CA-C5AB0DC85B11".

(** Modelled from the spec: the accept token of the handshake, which
    no function of the sources computes: the key header's value
    followed by the protocol's fixed GUID, hashed with SHA-1, encoded
    in base64. *)
Definition websocket_accept (key : list byte) : list byte :=
  base64_encode (sha1 (key ++ websocket_guid)).

End Handshake.

(** ** Drivers and observations used to state properties *)

Section Drivers.

Variable mutex_recursive : bool.

(** Successive calls of [sc_webrtc_server_add_client], one per
    transport, collecting the values returned. *)
Fixpoint add_clients (sockets : list sc_socket) : M (list Z) :=
  match sockets with
  | [] => ret []
  | s :: rest =>
      do client_id <- sc_webrtc_server_add_client mutex_recursive s;
      do ids <- add_clients rest;
      ret (client_id :: ids)
  end.

End Drivers.

(** The table has its [SC_WEBRTC_MAX_CLIENTS] slots and the count lies
    within it. *)
Definition registry_ok (s : sc_webrtc_server) : Prop :=
  Z.of_nat (length (clients s)) = SC_WEBRTC_MAX_CLIENTS
  /\ 0 <= client_count s <= SC_WEBRTC_MAX_CLIENTS.

(** Slot [i] holds a client whose connection is alive. *)
Definition alive (s : sc_webrtc_server) (i : Z) : Prop :=
  0 <= i /\ exists c, clients s !! Z.to_nat i = Some c /\ connected c = true.

(** The number of calls of the disconnect callback for [client_id] among
    events. *)
Definition is_disconnect_call (client_id : Z) (e : event) : bool :=
  match e with OnClientDisconnected i => i =? client_id | _ => false end.

Definition disconnect_calls (client_id : Z) (evs : list event) : nat :=
  length (List.filter (is_disconnect_call client_id) evs).

(** The effect of disconnecting the client [c] of slot [client_id]: the
    slot afterwards, and the calls made, in order. *)
Definition disconnected (c : sc_webrtc_client) : sc_webrtc_client :=
  mk_client (id c) None (data_channel c) false (socket c).

Definition disconnect_events (s : sc_webrtc_server) (client_id : Z)
    (c : sc_webrtc_client) : list event :=
  NetClose (socket c)
  :: match peer_connection c with
     | Some pc => [RtcDeletePeerConnection pc]
     | None => []
     end
  ++ (if on_client_disconnected s then [OnClientDisconnected client_id]
      else []).

Definition removed (client_id : Z) (w : world) : world :=
  if (0 <=? client_id) && (client_id <? client_count (srv w)) then
    match clients (srv w) !! Z.to_nat client_id with
    | Some c =>
        if connected c then
          mk_world
            (set_clients
               (<[Z.to_nat client_id := disconnected c]> (clients (srv w)))
               (srv w))
            (log w ++ disconnect_events (srv w) client_id c)
        else w
    | None => w
    end
  else w.

Definition removed_all (ids : list Z) (w : world) : world :=
  fold_left (fun w i => removed i w) ids w.

(** Sample states: a server just initialised (listening socket 3, port
    8080, both callbacks set, no client), and one with three clients
    issued, those of slots 0 and 2 alive. *)
Definition unused_slot : sc_webrtc_client := mk_client 0 None None false 0.

Definition fresh_world : world :=
  mk_world (mk_server 3 8080 false 0 (replicate 10 unused_slot) 0 true true)
    [].

Definition busy_world : world :=
  mk_world
    (mk_server 3 8080 false 0
       (mk_client 0 (Some 5) None true 7
        :: mk_client 1 None None false 8
        :: mk_client 2 None None true 9
        :: replicate 7 unused_slot)
       3 true true)
    [].

(** A server whose table is full. *)
Definition full_world : world :=
  mk_world
    (mk_server 3 8080 false 0
       (map (fun i => mk_client i None None true (100 + i)) (seqZ 0 10))
       10 true true)
    [].

(** The state after a successful registration of [sock]. *)
Definition registered (sock : sc_socket) (w : world) : world :=
  mk_world
    (set_client_count (client_count (srv w) + 1)
       (set_clients
          (<[Z.to_nat (client_count (srv w)) :=
               mk_client (client_count (srv w)) None None true sock]>
             (clients (srv w)))
          (srv w)))
    (log w).

(** Sample traffic: a plain page request, an upgrade request carrying a
    given key header, a page, and a transport on which every send goes
    through. *)
Definition plain_request : list byte :=
  bytes_of_string
    ("GET / HTTP/1.1" ++ CRLF ++ "Host: localhost:8080" ++ CRLF ++ CRLF).

Definition upgrade_request (key : string) : list byte :=
  bytes_of_string
    ("GET /ws HTTP/1.1" ++ CRLF ++
     "Host: localhost:8080" ++ CRLF ++
     "Upgrade: websocket" ++ CRLF ++
     "Connection: Upgrade" ++ CRLF ++
     "Sec-WebSocket-Key: " ++ key ++ CRLF ++
     "Sec-WebSocket-Version: 13" ++ CRLF ++ CRLF).

Definition sample_page : list byte := bytes_of_string "<html></html>".

Definition always_sends : sc_socket -> list byte -> Z :=
  fun _ data => Z.of_nat (length data).

(** A transport on which every send fails. *)
Definition never_sends : sc_socket -> list byte -> Z := fun _ _ => -1.

(** The handshake response carrying a given accept token. *)
Definition handshake_response (token : list byte) : list byte :=
  bytes_of_string
    ("HTTP/1.1 101 Switching Protocols" ++ CRLF ++
     "Upgrade: websocket" ++ CRLF ++
     "Connection: Upgrade" ++ CRLF ++
     "Sec-WebSocket-Accept: ")
  ++ token ++ bytes_of_string (CRLF ++ CRLF).

Definition is_net_close (e : event) : bool :=
  match e with NetClose _ => true | _ => false end.


(** ** The rest of the server: frame sink and initialisation *)

Definition set_port (v : Z) (s : sc_webrtc_server) :=
  mk_server (server_socket s) v (stopped s) (mutex s) (clients s)
    (client_count s) (on_client_connected s) (on_client_disconnected s).

Section FrameSink.

Variable mutex_recursive : bool.

(** [webrtc_frame_sink_push]: under the lock, the loop visits the
    clients issued and, in the source, does nothing for those that are
    connected and have a peer connection. *)
Definition webrtc_frame_sink_push : M bool :=
  sc_mutex_lock mutex_recursive ;;
  do server <- get_server;
  for_each (seqZ 0 (client_count server))
    (fun i =>
       do client <- read_client i;
       when (connected client
             && match peer_connection client with
                | Some _ => true
                | None => false
                end)
         (ret tt)) ;;
  sc_mutex_unlock ;;
  ret true.

End FrameSink.

(** The resources [sc_webrtc_server_init] takes and gives back. *)
Inductive resource_event : Type :=
| MutexCreated
| MutexDestroyed
| SocketCreated (s : sc_socket)
| SocketListening (s : sc_socket) (port : Z) (backlog : Z)
| SocketClosed (s : sc_socket).

Section Init.

Variable SC_SOCKET_NONE : sc_socket.

(** The results of the calls [sc_mutex_init], [net_socket] and
    [net_listen] (on [IPV4_LOCALHOST], with the socket and the port
    given). *)
Variable sc_mutex_init : bool.
Variable net_socket : sc_socket.
Variable net_listen : sc_socket -> Z -> bool.

(** [sc_webrtc_server_init], on a server structure holding anything,
    with [params->port]: the value returned, the structure afterwards,
    and the resources taken and given back, in order. *)
Definition sc_webrtc_server_init (params_port : Z) (server : sc_webrtc_server)
    : bool * sc_webrtc_server * list resource_event :=
  let server :=
    set_port (if params_port =? 0 then SC_WEBRTC_DEFAULT_PORT
              else params_port) server in
  let server := set_stopped false server in
  let server := set_client_count 0 server in
  if negb sc_mutex_init then (false, server, [])
  else
    let server := set_mutex 0 server in
    let server := set_server_socket net_socket server in
    if server_socket server =? SC_SOCKET_NONE then
      (false, server, [MutexCreated; MutexDestroyed])
    else if negb (net_listen (server_socket server) (port server)) then
      (false, server,
       [MutexCreated; SocketCreated (server_socket server);
        SocketClosed (server_socket server); MutexDestroyed])
    else
      (true, server,
       [MutexCreated; SocketCreated (server_socket server);
        SocketListening (server_socket server) (port server) 5]).

End Init.

(** The resources still held after a series of resource events: whether
    the mutex exists, and the sockets open. *)
Fixpoint held_resources (evs : list resource_event)
    (held : bool * list sc_socket) : bool * list sc_socket :=
  match evs with
  | [] => held
  | MutexCreated :: evs' => held_resources evs' (true, snd held)
  | MutexDestroyed :: evs' => held_resources evs' (false, snd held)
  | SocketCreated s :: evs' => held_resources evs' (fst held, s :: snd held)
  | SocketListening _ _ _ :: evs' => held_resources evs' held
  | SocketClosed s :: evs' =>
      held_resources evs'
        (fst held, List.filter (fun s' => negb (s' =? s)) (snd held))
  end.

(** The state in which [sc_webrtc_server_stop] leaves the server when
    it returns: stop flag set, every client issued removed, listening
    socket closed last. *)
Definition stopped_world (SC_SOCKET_NONE : sc_socket) (w : world) : world :=
  let w2 :=
    removed_all (seqZ 0 (client_count (srv w)))
      (mk_world (set_stopped true (srv w)) (log w)) in
  if server_socket (srv w2) =? SC_SOCKET_NONE then w2
  else mk_world (set_server_socket SC_SOCKET_NONE (srv w2))
         (log w2 ++ [NetClose (server_socket (srv w2))]).

(** No client issued is alive. *)
Definition all_disconnected (s : sc_webrtc_server) : Prop :=
  forall i, 0 <= i < client_count s -> ~ alive s i.

(** A server structure before initialisation: some table of ten slots,
    fields holding anything. *)
Definition raw_server : sc_webrtc_server :=
  mk_server 99 1234 true 5
    (replicate 10 (mk_client 42 (Some 1) (Some 2) true 77)) 7 false true.

(** * Properties *)


(** ** Facts on bytes and on the bit operations the codec uses *)

Lemma byte_to_Z_range (b : byte) : 0 <= byte_to_Z b < 256.
Proof.
  unfold byte_to_Z. pose proof (Byte.to_N_bounded b). lia.
Qed.

Lemma byte_to_of_Z (z : Z) : byte_to_Z (byte_of_Z z) = z mod 256.
Proof.
  unfold byte_to_Z, byte_of_Z.
  assert (Hr : 0 <= z mod 256 < 256) by (apply Z.mod_pos_bound; lia).
  pose proof (Byte.to_of_N_option_map (Z.to_N (z mod 256))) as Hm.
  destruct (Byte.of_N (Z.to_N (z mod 256))) as [b|] eqn:E; simpl in Hm.
  - destruct (N.leb_spec (Z.to_N (z mod 256)) 255) as [_|_]; [|discriminate].
    injection Hm as ->. lia.
  - destruct (N.leb_spec (Z.to_N (z mod 256)) 255) as [_|Hgt]; [discriminate|].
    lia.
Qed.

Lemma byte_to_of_Z_small (z : Z) :
  0 <= z < 256 -> byte_to_Z (byte_of_Z z) = z.
Proof. intros H. rewrite byte_to_of_Z. apply Z.mod_small; lia. Qed.

Lemma byte_of_to_Z (b : byte) : byte_of_Z (byte_to_Z b) = b.
Proof. destruct b; reflexivity. Qed.

Lemma land_255 (z : Z) : Z.land z 0xFF = z mod 256.
Proof. change 0xFF with (Z.ones 8). rewrite Z.land_ones by lia. reflexivity. Qed.

Lemma land_127 (z : Z) : Z.land z 0x7F = z mod 128.
Proof. change 0x7F with (Z.ones 7). rewrite Z.land_ones by lia. reflexivity. Qed.

Lemma land_128_small (z : Z) : 0 <= z < 128 -> Z.land z 0x80 = 0.
Proof.
  intros H. apply Z.bits_inj'. intros n Hn.
  rewrite Z.land_spec, Z.bits_0.
  destruct (Z.eq_dec n 7) as [->|Hne].
  - replace (Z.testbit z 7) with false; [reflexivity|].
    symmetry. destruct (Z.eq_dec z 0) as [->|Hz]; [apply Z.bits_0|].
    apply Z.bits_above_log2; [lia|].
    apply Z.log2_lt_pow2; lia.
  - replace (Z.testbit 128 n) with false; [apply andb_false_r|].
    symmetry. change 128 with (2 ^ 7). apply Z.pow2_bits_false. lia.
Qed.

Lemma land_128_set (z : Z) : 128 <= z < 256 -> Z.land z 0x80 = 128.
Proof.
  intros H. replace z with ((z - 128) + 128) at 1 by lia.
  pose proof (land_128_small (z - 128) ltac:(lia)) as H0.
  rewrite (Z.add_nocarry_lxor (z - 128) 128) by exact H0.
  rewrite (Z.lxor_lor _ _ H0).
  rewrite Z.land_lor_distr_l, H0. reflexivity.
Qed.

(** [(a << 8) | b] with [b] a byte is [a * 256 + b]. *)
Lemma lor_shiftl_8 (a b : Z) :
  0 <= b < 256 -> Z.lor (Z.shiftl a 8) b = a * 256 + b.
Proof.
  intros Hb.
  assert (H0 : Z.land (Z.shiftl a 8) b = 0).
  { apply Z.bits_inj'. intros n Hn.
    rewrite Z.land_spec, Z.bits_0.
    destruct (Z.lt_ge_cases n 8) as [Hlt|Hge].
    - rewrite Z.shiftl_spec_low by lia. reflexivity.
    - replace (Z.testbit b n) with false; [apply andb_false_r|].
      symmetry. destruct (Z.eq_dec b 0) as [->|Hz]; [apply Z.bits_0|].
      apply Z.bits_above_log2; [lia|].
      apply Z.lt_le_trans with 8; [|lia].
      apply Z.log2_lt_pow2; lia. }
  rewrite <- (Z.lxor_lor _ _ H0), <- (Z.add_nocarry_lxor _ _ H0).
  rewrite Z.shiftl_mul_pow2 by lia. reflexivity.
Qed.

(** One round of the big-endian reader applied to what the big-endian
    writer stored: from the bits of [n] above position [8 * (j + 1)] to
    those above position [8 * j]. *)
Lemma read_write_step (n j : Z) :
  0 <= n < 2 ^ 64 -> 0 <= j ->
  Z.lor (wrap64 (Z.shiftl (Z.shiftr n (8 * (j + 1))) 8))
        (Z.land (Z.shiftr n (8 * j)) 0xFF)
  = Z.shiftr n (8 * j).
Proof.
  intros Hn Hj. unfold wrap64.
  rewrite land_255.
  rewrite !Z.shiftr_div_pow2 by lia.
  replace (8 * (j + 1)) with (8 * j + 8) by lia.
  rewrite Z.pow_add_r by lia.
  rewrite <- Z.div_div by lia.
  set (q := n / 2 ^ (8 * j)).
  assert (Hq : 0 <= q < 2 ^ 64).
  { subst q. split.
    - apply Z.div_pos; lia.
    - apply Z.le_lt_trans with n; [|lia].
      apply Z.div_le_upper_bound; [lia|]. nia. }
  change (2 ^ 8) with 256.
  rewrite Z.shiftl_mul_pow2 by lia. change (2 ^ 8) with 256.
  rewrite Z.mod_small.
  2:{ split; [apply Z.mul_nonneg_nonneg; [apply Z.div_pos|]; lia|].
      pose proof (Z.mul_div_le q 256 ltac:(lia)). lia. }
  rewrite <- Z.shiftl_mul_pow2 with (n := 8) by lia.
  rewrite lor_shiftl_8 by (apply Z.mod_pos_bound; lia).
  pose proof (Z.div_mod q 256 ltac:(lia)). lia.
Qed.

(** ** Buffer accesses inside a known prefix or suffix *)

Lemma load_app_l (l1 l2 : list byte) (i : Z) :
  0 <= i < Z.of_nat (length l1) -> load (l1 ++ l2) i = load l1 i.
Proof.
  intros H. unfold load.
  destruct (Z.ltb_spec i 0); [lia|].
  rewrite lookup_app_l by lia. reflexivity.
Qed.

Lemma store_app_l (l1 l2 : list byte) (i v : Z) :
  0 <= i < Z.of_nat (length l1) ->
  store (l1 ++ l2) i v = Ok (<[Z.to_nat i := byte_of_Z v]> l1 ++ l2).
Proof.
  intros H. unfold store. rewrite length_app.
  destruct (Z.leb_spec 0 i); [|lia].
  destruct (Z.ltb_spec i (Z.of_nat (length l1 + length l2))); [|lia].
  simpl. rewrite insert_app_l by lia. reflexivity.
Qed.

(** Copying a whole source buffer over the tail of a destination that
    it fills exactly. *)
Lemma memcpy_fill_tail (hd tl src : list byte) :
  length tl = length src ->
  memcpy (hd ++ tl) (Z.of_nat (length hd)) src 0 (Z.of_nat (length src))
  = Ok (hd ++ src).
Proof.
  intros Hlen. unfold memcpy. rewrite length_app.
  destruct (Z.leb_spec 0 (Z.of_nat (length hd))); [|lia].
  destruct (Z.leb_spec 0 (Z.of_nat (length src))); [|lia].
  destruct (Z.leb_spec (Z.of_nat (length hd) + Z.of_nat (length src))
              (Z.of_nat (length hd + length tl))); [|lia].
  destruct (Z.leb_spec (0 + Z.of_nat (length src))
              (Z.of_nat (length src))); [|lia].
  simpl. f_equal.
  rewrite Nat2Z.id, take_app_length.
  rewrite drop_0, Nat2Z.id, firstn_all.
  rewrite <- Nat2Z.inj_add, Nat2Z.id.
  rewrite drop_ge by (rewrite length_app; lia).
  rewrite app_nil_r. reflexivity.
Qed.

(** Copying out the tail of a source buffer into a fresh block one byte
    longer, as [parse_websocket_frame] does. *)
Lemma memcpy_from_tail (hd src : list byte) (blk : list byte) :
  length blk = S (length src) ->
  memcpy blk 0 (hd ++ src) (Z.of_nat (length hd)) (Z.of_nat (length src))
  = Ok (src ++ drop (length src) blk).
Proof.
  intros Hlen. unfold memcpy. rewrite length_app.
  destruct (Z.leb_spec 0 (Z.of_nat (length hd))); [|lia].
  destruct (Z.leb_spec 0 (Z.of_nat (length src))); [|lia].
  destruct (Z.leb_spec (0 + Z.of_nat (length src))
              (Z.of_nat (length blk))); [|lia].
  destruct (Z.leb_spec (Z.of_nat (length hd) + Z.of_nat (length src))
              (Z.of_nat (length hd + length src))); [|lia].
  cbn [andb take app]. f_equal.
  replace (Z.to_nat (0 + Z.of_nat (length src))) with (length src) by lia.
  rewrite !Nat2Z.id, drop_app_length, firstn_all. reflexivity.
Qed.

Lemma shiftr_land_digit (n j : Z) :
  0 <= j ->
  byte_of_Z (Z.land (Z.shiftr n (8 * j)) 0xFF) = be_digit n j.
Proof.
  intros Hj. unfold be_digit. rewrite land_255.
  rewrite Z.shiftr_div_pow2 by lia.
  replace (2 ^ (8 * j)) with (256 ^ j); [reflexivity|].
  rewrite Z.pow_mul_r by lia. reflexivity.
Qed.

Lemma text_frame_header_length (n : Z) :
  Z.of_nat (length (text_frame_header n)) = frame_header_len n.
Proof.
  unfold text_frame_header, frame_header_len.
  destruct (Z.leb_spec n 125), (Z.ltb_spec 125 n); try lia;
  destruct (Z.leb_spec n 65535), (Z.ltb_spec 65535 n); try lia; reflexivity.
Qed.

Section CodecFacts.

Variable malloc_succeeds : Z -> bool.

Lemma create_websocket_frame_ok (payload : list byte) :
  let n := Z.of_nat (length payload) in
  n + 10 < 2 ^ 64 ->
  malloc_succeeds (frame_header_len n + n) = true ->
  create_websocket_frame malloc_succeeds payload
  = Ok (text_frame_header n ++ payload, frame_header_len n + n).
Proof.
  intros n Hn Hm. unfold create_websocket_frame. fold n.
  assert (Hh : 2 <= frame_header_len n <= 10).
  { unfold frame_header_len.
    destruct (65535 <? n); [lia|]. destruct (125 <? n); lia. }
  assert (Hw : wrap64 (frame_header_len n + n) = frame_header_len n + n).
  { unfold wrap64. apply Z.mod_small. lia. }
  rewrite Hw. unfold malloc. rewrite Hm. cbn [cbind].
  replace (Z.to_nat (frame_header_len n + n))
    with (Z.to_nat (frame_header_len n) + length payload)%nat by lia.
  rewrite replicate_add.
  assert (Hfill : forall hd : list byte,
    Z.of_nat (length hd) = frame_header_len n ->
    memcpy (hd ++ replicate (length payload) x00) (frame_header_len n)
      payload 0 n = Ok (hd ++ payload)).
  { intros hd Hhd. rewrite <- Hhd. apply memcpy_fill_tail.
    apply length_replicate. }
  unfold text_frame_header, frame_header_len in *.
  destruct (Z.ltb_spec 65535 n) as [H3|H3].
  - destruct (Z.leb_spec n 125); [lia|].
    destruct (Z.leb_spec n 65535); [lia|].
    change (Z.to_nat 10) with 10%nat. cbn [replicate].
    rewrite store_app_l by (simpl; lia). cbn [cbind].
    rewrite store_app_l by (simpl; lia). cbn [cbind].
    cbn [write_length64].
    repeat (rewrite store_app_l by (simpl; lia); cbn [cbind]).
    cbn [insert list_insert Z.to_nat Pos.to_nat Pos.iter_op Nat.add app Z.add
         Pos.add Pos.succ Z.sub Z.opp Z.pos_sub Pos.pred_double Z.succ_double
         Z.pred_double Z.double].
    rewrite !shiftr_land_digit by lia.
    rewrite Hfill by reflexivity. reflexivity.
  - destruct (Z.ltb_spec 125 n) as [H2|H2].
    + destruct (Z.leb_spec n 125); [lia|].
      destruct (Z.leb_spec n 65535); [|lia].
      change (Z.to_nat 4) with 4%nat. cbn [replicate].
      repeat (rewrite store_app_l by (simpl; lia); cbn [cbind]).
      cbn [insert list_insert Z.to_nat Pos.to_nat Pos.iter_op Nat.add app].
      change (Z.shiftr n 8) with (Z.shiftr n (8 * 1)).
      rewrite (shiftr_land_digit n 1) by lia.
      replace (Z.land n 255) with (Z.land (Z.shiftr n (8 * 0)) 255)
        by (rewrite Z.shiftr_0_r; reflexivity).
      rewrite (shiftr_land_digit n 0) by lia.
      rewrite Hfill by reflexivity. reflexivity.
    + destruct (Z.leb_spec n 125); [|lia].
      change (Z.to_nat 2) with 2%nat. cbn [replicate].
      repeat (rewrite store_app_l by (simpl; lia); cbn [cbind]).
      cbn [insert list_insert Z.to_nat Pos.to_nat Pos.iter_op Nat.add app].
      rewrite land_127, Z.mod_small by lia.
      rewrite Hfill by reflexivity. reflexivity.
Qed.

End CodecFacts.

Lemma load_lookup (buf : list byte) (i : Z) (b : byte) :
  0 <= i -> buf !! Z.to_nat i = Some b -> load buf i = Ok (byte_to_Z b).
Proof.
  intros Hi Hb. unfold load.
  destruct (Z.ltb_spec i 0); [lia|]. rewrite Hb. reflexivity.
Qed.

Lemma byte_to_Z_be_digit (n j : Z) :
  0 <= j -> byte_to_Z (be_digit n j) = Z.land (Z.shiftr n (8 * j)) 0xFF.
Proof.
  intros Hj. rewrite <- shiftr_land_digit by lia.
  rewrite byte_to_of_Z_small; [reflexivity|].
  rewrite land_255. apply Z.mod_pos_bound. lia.
Qed.

Section CodecRoundTrip.

Variable malloc_succeeds : Z -> bool.

(** The reading loop recovers [n] from its eight base-256 digits. *)
Lemma read_length64_digits (n : Z) (data : list byte) :
  0 <= n < 2 ^ 64 ->
  forall (k : nat) (i acc : Z),
    acc = Z.shiftr n (8 * Z.of_nat k) ->
    (forall j, 0 <= j < Z.of_nat k ->
       load data (2 + (i + j))
       = Ok (Z.land (Z.shiftr n (8 * (Z.of_nat k - 1 - j))) 0xFF)) ->
    read_length64 data i k acc = Ok n.
Proof.
  intros Hn. induction k as [|k IH]; intros i acc Hacc Hload.
  - cbn [read_length64]. rewrite Hacc. cbn. reflexivity.
  - cbn [read_length64].
    pose proof (Hload 0 ltac:(lia)) as H0.
    replace (i + 0) with i in H0 by lia. rewrite H0. cbn [cbind].
    apply IH.
    + rewrite Hacc.
      replace (8 * Z.of_nat (S k)) with (8 * (Z.of_nat k + 1)) by lia.
      replace (Z.of_nat (S k) - 1 - 0) with (Z.of_nat k) by lia.
      apply read_write_step; lia.
    + intros j Hj.
      replace (i + 1 + j) with (i + (j + 1)) by lia.
      rewrite Hload by lia. do 3 f_equal. lia.
Qed.

Lemma parse_header_text_frame (payload : list byte) (n : Z) :
  0 <= n < 2 ^ 64 ->
  parse_header (text_frame_header n ++ payload)
  = Ok (false, n, frame_header_len n).
Proof.
  intros Hn. unfold parse_header.
  rewrite length_app, Nat2Z.inj_add, text_frame_header_length.
  assert (Hh : 2 <= frame_header_len n).
  { unfold frame_header_len.
    destruct (65535 <? n); [lia|]. destruct (125 <? n); lia. }
  destruct (Z.ltb_spec (frame_header_len n + Z.of_nat (length payload)) 2);
    [lia|].
  unfold text_frame_header, frame_header_len in *.
  destruct (Z.leb_spec n 125) as [H1|H1].
  - destruct (Z.ltb_spec 65535 n); [lia|].
    destruct (Z.ltb_spec 125 n); [lia|].
    rewrite (load_lookup _ 0 x81) by (lia || reflexivity).
    rewrite (load_lookup _ 1 (byte_of_Z n)) by (lia || reflexivity).
    cbn [cbind]. rewrite byte_to_of_Z_small by lia.
    rewrite land_127, Z.mod_small by lia.
    rewrite land_128_small by lia.
    destruct (Z.eqb_spec n 126); [lia|].
    destruct (Z.eqb_spec n 127); [lia|].
    reflexivity.
  - destruct (Z.leb_spec n 65535) as [H2|H2].
    + destruct (Z.ltb_spec 65535 n); [lia|].
      destruct (Z.ltb_spec 125 n); [|lia].
      rewrite (load_lookup _ 0 x81) by (lia || reflexivity).
      rewrite (load_lookup _ 1 (byte_of_Z 126)) by (lia || reflexivity).
      cbn [cbind].
      change (Z.land (byte_to_Z (byte_of_Z 126)) 127 =? 126) with true.
      cbn match.
      destruct (Z.ltb_spec (4 + Z.of_nat (length payload)) 4); [lia|].
      rewrite (load_lookup _ 2 (be_digit n 1)) by (lia || reflexivity).
      rewrite (load_lookup _ 3 (be_digit n 0)) by (lia || reflexivity).
      cbn [cbind].
      rewrite !byte_to_Z_be_digit by lia.
      pose proof (read_write_step n 0 ltac:(lia) ltac:(lia)) as Hs.
      change (8 * (0 + 1)) with (8 * 1) in Hs.
      assert (Hsmall : Z.shiftr n (8 * 1) < 256).
      { rewrite Z.shiftr_div_pow2 by lia.
        apply Z.div_lt_upper_bound; lia. }
      assert (Hnn : 0 <= Z.shiftr n (8 * 1))
        by (apply Z.shiftr_nonneg; lia).
      rewrite (land_255 (Z.shiftr n (8 * 1))).
      rewrite (Z.mod_small (Z.shiftr n (8 * 1))) by lia.
      unfold wrap64 in Hs. rewrite Z.mod_small in Hs.
      2:{ rewrite Z.shiftl_mul_pow2 by lia. lia. }
      rewrite Hs, Z.shiftr_0_r. reflexivity.
    + destruct (Z.ltb_spec 65535 n); [|lia].
      rewrite (load_lookup _ 0 x81) by (lia || reflexivity).
      rewrite (load_lookup _ 1 (byte_of_Z 127)) by (lia || reflexivity).
      cbn [cbind].
      change (Z.land (byte_to_Z (byte_of_Z 127)) 127 =? 126) with false.
      change (Z.land (byte_to_Z (byte_of_Z 127)) 127 =? 127) with true.
      cbn match.
      destruct (Z.ltb_spec (10 + Z.of_nat (length payload)) 10); [lia|].
      rewrite (read_length64_digits n) with (k := 8%nat); try lia.
      * reflexivity.
      * change (8 * Z.of_nat 8) with 64.
        rewrite Z.shiftr_div_pow2, Z.div_small by lia. reflexivity.
      * intros j Hj.
        assert (Hc : j = 0 \/ j = 1 \/ j = 2 \/ j = 3 \/ j = 4 \/ j = 5
                     \/ j = 6 \/ j = 7) by lia.
        destruct Hc as [->|[->|[->|[->|[->|[->|[->| ->]]]]]]];
          (erewrite load_lookup; [|lia|reflexivity]);
          rewrite byte_to_Z_be_digit by lia; reflexivity.
Qed.

Lemma parse_text_frame (payload : list byte) :
  let n := Z.of_nat (length payload) in
  n + 10 < 2 ^ 64 ->
  malloc_succeeds (n + 1) = true ->
  parse_websocket_frame malloc_succeeds (text_frame_header n ++ payload)
  = Ok (payload ++ [x00], n).
Proof.
  intros n Hn Hm. unfold parse_websocket_frame.
  rewrite parse_header_text_frame by lia. cbn [cbind].
  rewrite length_app, Nat2Z.inj_add, text_frame_header_length. fold n.
  assert (Hh : 2 <= frame_header_len n <= 10).
  { unfold frame_header_len.
    destruct (65535 <? n); [lia|]. destruct (125 <? n); lia. }
  unfold wrap64. rewrite !Z.mod_small by lia.
  destruct (Z.ltb_spec (frame_header_len n + n) (frame_header_len n + n));
    [lia|].
  unfold malloc. rewrite Hm. cbn [cbind].
  rewrite <- text_frame_header_length. unfold n at 2.
  rewrite memcpy_from_tail by (rewrite length_replicate; lia).
  cbn [cbind].
  rewrite drop_replicate.
  replace (Z.to_nat (n + 1) - length payload)%nat with 1%nat by lia.
  cbn [replicate]. unfold store. rewrite length_app. cbn [length].
  destruct (Z.leb_spec 0 n); [|lia].
  destruct (Z.ltb_spec n (Z.of_nat (length payload + 1))); [|lia].
  cbn [andb]. unfold n at 1. rewrite Nat2Z.id.
  replace (length payload) with (length payload + 0)%nat at 1 by lia.
  rewrite insert_app_r. reflexivity.
Qed.

End CodecRoundTrip.

(** ** What the header parser can return *)

Lemma load_byte (buf : list byte) (i d : Z) :
  load buf i = Ok d ->
  0 <= i /\ 0 <= d < 256
  /\ exists b, buf !! Z.to_nat i = Some b /\ d = byte_to_Z b.
Proof.
  unfold load. destruct (Z.ltb_spec i 0); [discriminate|].
  destruct (buf !! Z.to_nat i) as [b|] eqn:E; [|discriminate].
  intros [= <-]. split; [lia|]. split; [apply byte_to_Z_range|].
  exists b. split; reflexivity.
Qed.

Lemma read_step_bound (acc d : Z) :
  0 <= d < 256 ->
  0 <= Z.lor (wrap64 (Z.shiftl acc 8)) d < 2 ^ 64.
Proof.
  intros Hd. unfold wrap64.
  rewrite Z.shiftl_mul_pow2 by lia.
  change (2 ^ 64) with (2 ^ 56 * 2 ^ 8).
  rewrite Z.mul_mod_distr_r by lia.
  rewrite <- Z.shiftl_mul_pow2 by lia.
  rewrite lor_shiftl_8 by lia.
  pose proof (Z.mod_pos_bound acc (2 ^ 56) ltac:(lia)). lia.
Qed.

Lemma read_length64_bound (data : list byte) (n : nat) :
  forall (i acc pl : Z),
    0 <= acc < 2 ^ 64 ->
    read_length64 data i n acc = Ok pl ->
    0 <= pl < 2 ^ 64.
Proof.
  induction n as [|n IH]; intros i acc pl Hacc; cbn [read_length64].
  - intros [= <-]. exact Hacc.
  - destruct (load data (2 + i)) as [d| |] eqn:E; cbn [cbind];
      try discriminate.
    apply load_byte in E as (_ & Hd & _).
    apply IH. apply read_step_bound. exact Hd.
Qed.

Lemma parse_header_bounds (data : list byte) (masked : bool)
    (payload_length header_len : Z) :
  parse_header data = Ok (masked, payload_length, header_len) ->
  0 <= payload_length < 2 ^ 64
  /\ (header_len = 2 \/ header_len = 4 \/ header_len = 10 \/
      header_len = 6 \/ header_len = 8 \/ header_len = 14)
  /\ (masked = true -> 6 <= header_len)
  /\ (masked = false -> header_len <= 10)
  /\ header_len - (if masked then 4 else 0) <= Z.of_nat (length data).
Proof.
  unfold parse_header.
  destruct (Z.ltb_spec (Z.of_nat (length data)) 2) as [|Hlen2];
    [discriminate|].
  destruct (load data 0) as [d0| |]; cbn [cbind]; try discriminate.
  destruct (load data 1) as [d1| |] eqn:E1; cbn [cbind]; try discriminate.
  apply load_byte in E1 as (_ & Hd1 & _).
  assert (H7 : 0 <= Z.land d1 127 < 128)
    by (rewrite land_127; apply Z.mod_pos_bound; lia).
  destruct (Z.eqb_spec (Z.land d1 127) 126) as [E126|N126].
  - destruct (Z.ltb_spec (Z.of_nat (length data)) 4); [discriminate|].
    destruct (load data 2) as [d2| |] eqn:E2; cbn [cbind]; try discriminate.
    destruct (load data 3) as [d3| |] eqn:E3; cbn [cbind]; try discriminate.
    apply load_byte in E2 as (_ & Hd2 & _).
    apply load_byte in E3 as (_ & Hd3 & _).
    rewrite lor_shiftl_8 by lia. change (wrap64 (4 + 4)) with 8.
    destruct (negb (Z.land d1 128 =? 0)); intros [= <- <- <-];
      cbn; repeat split; try lia; try discriminate; auto 10.
  - destruct (Z.eqb_spec (Z.land d1 127) 127) as [E127|N127].
    + destruct (Z.ltb_spec (Z.of_nat (length data)) 10); [discriminate|].
      destruct (read_length64 data 0 8 0) as [pl| |] eqn:ER; cbn [cbind];
        try discriminate.
      apply read_length64_bound in ER; [|lia].
      change (wrap64 (10 + 4)) with 14.
      destruct (negb (Z.land d1 128 =? 0)); intros [= <- <- <-];
        cbn; repeat split; try lia; try discriminate; auto 10.
    + cbn [cbind]. change (wrap64 (2 + 4)) with 6.
      destruct (negb (Z.land d1 128 =? 0)); intros [= <- <- <-];
        cbn; repeat split; try lia; try discriminate; auto 10.
Qed.

Lemma unmask_lookup (mask : list byte) (bytes : list byte) :
  forall (i0 k : nat),
    unmask mask i0 bytes !! k
    = (fun b => byte_xor b (nth ((i0 + k) mod 4)%nat mask x00))
        <$> bytes !! k.
Proof.
  induction bytes as [|b rest IH]; intros i0 k; cbn [unmask].
  - reflexivity.
  - destruct k as [|k].
    + cbn. rewrite Nat.add_0_r. reflexivity.
    + cbn [lookup list_lookup]. change (rest !! k) with (lookup k rest).
      rewrite IH. replace (S i0 + k)%nat with (i0 + S k)%nat by lia.
      reflexivity.
Qed.

Lemma unmask_length (mask : list byte) (bytes : list byte) (i0 : nat) :
  length (unmask mask i0 bytes) = length bytes.
Proof.
  revert i0. induction bytes as [|b rest IH]; intros i0; cbn; [reflexivity|].
  rewrite IH. reflexivity.
Qed.

(** ** The parser on complete and on short frames *)

Section ParserFacts.

Variable malloc_succeeds : Z -> bool.

Lemma raw_payload_length (data : list byte) (h pl : Z) :
  0 <= h -> 0 <= pl -> h + pl <= Z.of_nat (length data) ->
  length (raw_payload data h pl) = Z.to_nat pl.
Proof.
  intros Hh Hpl Hlen. unfold raw_payload.
  rewrite length_take, length_drop. lia.
Qed.

Lemma parse_websocket_frame_complete (data : list byte) (masked : bool)
    (payload_length header_len : Z) :
  Z.of_nat (length data) < 2 ^ 64 ->
  parse_header data = Ok (masked, payload_length, header_len) ->
  header_len + payload_length <= Z.of_nat (length data) ->
  malloc_succeeds (payload_length + 1) = true ->
  parse_websocket_frame malloc_succeeds data
  = Ok ((if masked
         then unmask (mask_key data header_len) 0
                (raw_payload data header_len payload_length)
         else raw_payload data header_len payload_length) ++ [x00],
        payload_length).
Proof.
  intros Hlen Hhdr Hcomplete Hm.
  destruct (parse_header_bounds _ _ _ _ Hhdr)
    as (Hpl & Hh & Hmask & _ & _).
  assert (Hh2 : 2 <= header_len <= 14) by lia.
  unfold parse_websocket_frame. rewrite Hhdr. cbn [cbind].
  unfold wrap64. rewrite !Z.mod_small by lia.
  destruct (Z.ltb_spec (Z.of_nat (length data))
              (header_len + payload_length)); [lia|].
  unfold malloc. rewrite Hm. cbn [cbind].
  pose proof (raw_payload_length data header_len payload_length
                ltac:(lia) ltac:(lia) Hcomplete) as Hraw.
  assert (Hcopy :
    memcpy (replicate (Z.to_nat (payload_length + 1)) x00) 0 data
      header_len payload_length
    = Ok (raw_payload data header_len payload_length ++ [x00])).
  { unfold memcpy. rewrite length_replicate.
    destruct (Z.leb_spec 0 header_len); [|lia].
    destruct (Z.leb_spec 0 payload_length); [|lia].
    destruct (Z.leb_spec (0 + payload_length)
                (Z.of_nat (Z.to_nat (payload_length + 1)))); [|lia].
    destruct (Z.leb_spec (header_len + payload_length)
                (Z.of_nat (length data))); [|lia].
    cbn [andb Z.leb Z.compare Z.to_nat take app]. f_equal.
    rewrite drop_replicate.
    replace (Z.to_nat (payload_length + 1)
             - Z.to_nat (0 + payload_length))%nat with 1%nat by lia.
    reflexivity. }
  rewrite Hcopy. cbn [cbind].
  assert (Hstore :
    store (raw_payload data header_len payload_length ++ [x00])
      payload_length 0
    = Ok (raw_payload data header_len payload_length ++ [x00])).
  { unfold store. rewrite length_app, Hraw. cbn [length].
    destruct (Z.leb_spec 0 payload_length); [|lia].
    destruct (Z.ltb_spec payload_length
                (Z.of_nat (Z.to_nat payload_length + 1))); [|lia].
    cbn [andb]. f_equal.
    replace (Z.to_nat payload_length)
      with (length (raw_payload data header_len payload_length) + 0)%nat
      at 1 by lia.
    rewrite insert_app_r. reflexivity. }
  rewrite Hstore. cbn [cbind].
  destruct masked; [|reflexivity].
  specialize (Hmask eq_refl).
  assert (Hkey :
    memcpy (replicate 4 x00) 0 data (header_len - 4) 4
    = Ok (mask_key data header_len)).
  { unfold memcpy. rewrite length_replicate.
    destruct (Z.leb_spec 0 (header_len - 4)); [|lia].
    destruct (Z.leb_spec (header_len - 4 + 4) (Z.of_nat (length data)));
      [|lia].
    cbn. rewrite app_nil_r. reflexivity. }
  rewrite Hkey. cbn [cbind]. f_equal. f_equal.
  rewrite <- Hraw.
  rewrite take_app_length, drop_app_length. reflexivity.
Qed.

(** Short of a wrap-around, a buffer that does not hold the whole frame
    is refused. *)
Lemma parse_websocket_frame_short (data : list byte) (masked : bool)
    (payload_length header_len : Z) :
  parse_header data = Ok (masked, payload_length, header_len) ->
  header_len + payload_length < 2 ^ 64 ->
  Z.of_nat (length data) < header_len + payload_length ->
  parse_websocket_frame malloc_succeeds data = Fail.
Proof.
  intros Hhdr Hnowrap Hshort.
  destruct (parse_header_bounds _ _ _ _ Hhdr) as (Hpl & Hh & _).
  unfold parse_websocket_frame. rewrite Hhdr. cbn [cbind].
  unfold wrap64. rewrite Z.mod_small by lia.
  destruct (Z.ltb_spec (Z.of_nat (length data))
              (header_len + payload_length)); [reflexivity|lia].
Qed.

(** On a buffer that does not hold the whole frame the parser never
    succeeds: it refuses the buffer or, when the sum of header and
    payload lengths wraps around and the allocation goes through, it
    copies outside the buffers. *)
Lemma parse_websocket_frame_short_outcomes (data : list byte) (masked : bool)
    (payload_length header_len : Z) :
  parse_header data = Ok (masked, payload_length, header_len) ->
  Z.of_nat (length data) < header_len + payload_length ->
  parse_websocket_frame malloc_succeeds data = Fail
  \/ (2 ^ 64 <= header_len + payload_length
      /\ malloc_succeeds (wrap64 (payload_length + 1)) = true
      /\ parse_websocket_frame malloc_succeeds data = Undefined).
Proof.
  intros Hhdr Hshort.
  destruct (Z.lt_ge_cases (header_len + payload_length) (2 ^ 64))
    as [Hnowrap|Hwrap].
  { left. eapply parse_websocket_frame_short; eassumption. }
  destruct (parse_header_bounds _ _ _ _ Hhdr) as (Hpl & Hh & _).
  unfold parse_websocket_frame. rewrite Hhdr. cbn [cbind].
  destruct (Z.of_nat (length data) <? wrap64 (header_len + payload_length));
    [left; reflexivity|].
  unfold malloc.
  destruct (malloc_succeeds (wrap64 (payload_length + 1))) eqn:Hm;
    [|left; reflexivity].
  right. split; [exact Hwrap|]. split; [reflexivity|].
  cbn [cbind]. unfold memcpy.
  destruct (Z.leb_spec (header_len + payload_length)
              (Z.of_nat (length data))); [lia|].
  rewrite andb_false_r. reflexivity.
Qed.

End ParserFacts.

(** ** The frame codec: results *)

(** C8.  For a payload of [n] bytes (with [n + 10] below [2 ^ 64], as
    for any buffer in memory, and the frame's allocation succeeding),
    [create_websocket_frame] returns a frame made of a header followed by
    the payload bytes verbatim, of size header length plus [n].  The
    first byte is [0x81]: FIN set and opcode 1.  The mask bit of the
    second byte is clear.  The length is a single byte when [n <= 125];
    the marker 126 and two big-endian bytes when [126 <= n <= 65535]; the
    marker 127 and eight big-endian bytes above. *)
Theorem create_websocket_frame_layout (malloc_succeeds : Z -> bool)
    (payload : list byte) :
  Z.of_nat (length payload) + 10 < 2 ^ 64 ->
  malloc_succeeds
    (frame_header_len (Z.of_nat (length payload))
     + Z.of_nat (length payload)) = true ->
  exists (header : list byte) (b1 : byte) (frame_len : Z),
    create_websocket_frame malloc_succeeds payload
    = Ok (header ++ payload, frame_len)
    /\ frame_len = Z.of_nat (length header) + Z.of_nat (length payload)
    /\ Z.of_nat (length (header ++ payload)) = frame_len
    /\ header !! 0%nat = Some x81
    /\ Z.land (byte_to_Z x81) 0x0F = 0x1
    /\ Z.land (byte_to_Z x81) 0x80 = 0x80
    /\ header !! 1%nat = Some b1
    /\ Z.land (byte_to_Z b1) 0x80 = 0
    /\ (Z.of_nat (length payload) <= 125 ->
        header = [x81; byte_of_Z (Z.of_nat (length payload))])
    /\ (125 < Z.of_nat (length payload) <= 65535 ->
        header = [x81; byte_of_Z 126;
                  be_digit (Z.of_nat (length payload)) 1;
                  be_digit (Z.of_nat (length payload)) 0])
    /\ (65535 < Z.of_nat (length payload) ->
        header = [x81; byte_of_Z 127;
                  be_digit (Z.of_nat (length payload)) 7;
                  be_digit (Z.of_nat (length payload)) 6;
                  be_digit (Z.of_nat (length payload)) 5;
                  be_digit (Z.of_nat (length payload)) 4;
                  be_digit (Z.of_nat (length payload)) 3;
                  be_digit (Z.of_nat (length payload)) 2;
                  be_digit (Z.of_nat (length payload)) 1;
                  be_digit (Z.of_nat (length payload)) 0]).
Proof.
  intros Hn Hm. set (n := Z.of_nat (length payload)) in *.
  exists (text_frame_header n).
  exists (if n <=? 125 then byte_of_Z n
          else if n <=? 65535 then byte_of_Z 126 else byte_of_Z 127).
  exists (frame_header_len n + n).
  split; [apply create_websocket_frame_ok; assumption|].
  split; [rewrite text_frame_header_length; reflexivity|].
  split; [rewrite length_app, Nat2Z.inj_add, text_frame_header_length;
          reflexivity|].
  unfold text_frame_header.
  destruct (Z.leb_spec n 125) as [H1|H1];
    [|destruct (Z.leb_spec n 65535) as [H2|H2]];
    (split; [reflexivity|]); (split; [reflexivity|]);
    (split; [reflexivity|]); (split; [reflexivity|]);
    (split; [|repeat split; intros; first [reflexivity | lia]]).
  - rewrite byte_to_of_Z_small by lia. apply land_128_small. lia.
  - reflexivity.
  - reflexivity.
Qed.

Lemma create_websocket_frame_layout_witness :
  Z.of_nat (length (bytes_of_string "AB")) + 10 < 2 ^ 64
  /\ exists (header : list byte) (b1 : byte) (frame_len : Z),
       create_websocket_frame (fun _ => true) (bytes_of_string "AB")
       = Ok (header ++ bytes_of_string "AB", frame_len)
       /\ frame_len = 4
       /\ header = [x81; x02]
       /\ header !! 1%nat = Some b1
       /\ Z.land (byte_to_Z b1) 0x80 = 0.
Proof.
  split; [reflexivity|].
  destruct (create_websocket_frame_layout (fun _ => true)
              (bytes_of_string "AB") eq_refl eq_refl)
    as (header & b1 & frame_len & Hc & Hl & _ & _ & _ & _ & Hb1 & Hm
        & Hsmall & _).
  specialize (Hsmall ltac:(vm_compute; discriminate)).
  exists header, b1, frame_len. subst header.
  repeat split; try assumption.
Defined.

(** The header length at the boundaries of the three encodings. *)
Example frame_header_len_boundaries :
  map frame_header_len [0; 1; 125; 126; 65535; 65536]
  = [2; 2; 2; 4; 4; 10].
Proof. reflexivity. Qed.

(** C3.  Round trip: for a payload of any length [n] (in each of the
    three encodings; [n + 10] below [2 ^ 64] and both allocations
    succeeding), parsing the frame built by [create_websocket_frame]
    succeeds and yields the payload bytes, followed by the terminating
    NUL of the buffer, and the length [n]. *)
Theorem parse_create_round_trip (malloc_succeeds : Z -> bool)
    (payload : list byte) :
  Z.of_nat (length payload) + 10 < 2 ^ 64 ->
  malloc_succeeds
    (frame_header_len (Z.of_nat (length payload))
     + Z.of_nat (length payload)) = true ->
  malloc_succeeds (Z.of_nat (length payload) + 1) = true ->
  exists (frame : list byte) (frame_len : Z),
    create_websocket_frame malloc_succeeds payload = Ok (frame, frame_len)
    /\ parse_websocket_frame malloc_succeeds frame
       = Ok (payload ++ [x00], Z.of_nat (length payload)).
Proof.
  intros Hn Hframe Hpayload.
  exists (text_frame_header (Z.of_nat (length payload)) ++ payload).
  eexists. split.
  - apply create_websocket_frame_ok; assumption.
  - apply parse_text_frame; assumption.
Qed.

Lemma parse_create_round_trip_witness :
  exists (frame : list byte) (frame_len : Z),
    create_websocket_frame (fun _ => true) (replicate 126 x41)
    = Ok (frame, frame_len)
    /\ parse_websocket_frame (fun _ => true) frame
       = Ok (replicate 126 x41 ++ [x00], 126).
Proof.
  exact (parse_create_round_trip (fun _ => true) (replicate 126 x41)
           eq_refl eq_refl eq_refl).
Defined.

(** C9.  For a complete frame whose mask bit is set, the parser
    succeeds and byte [i] of the payload it returns is byte [i] of the
    payload as it lies in the frame, exclusive-ored with byte [i mod 4]
    of the mask key, the four bytes that end the header; this for every
    [i] below the payload length.  (The buffer's own length is below
    [2 ^ 64] and the payload's allocation succeeds.) *)
Theorem parse_websocket_frame_unmasks (malloc_succeeds : Z -> bool)
    (data : list byte) (payload_length header_len : Z) :
  Z.of_nat (length data) < 2 ^ 64 ->
  parse_header data = Ok (true, payload_length, header_len) ->
  header_len + payload_length <= Z.of_nat (length data) ->
  malloc_succeeds (payload_length + 1) = true ->
  exists payload : list byte,
    parse_websocket_frame malloc_succeeds data = Ok (payload, payload_length)
    /\ forall i : Z, 0 <= i < payload_length ->
         exists raw key : byte,
           data !! Z.to_nat (header_len + i) = Some raw
           /\ data !! Z.to_nat (header_len - 4 + i mod 4) = Some key
           /\ payload !! Z.to_nat i = Some (byte_xor raw key).
Proof.
  intros Hlen Hhdr Hcomplete Hm.
  destruct (parse_header_bounds _ _ _ _ Hhdr) as (Hpl & _ & Hmask & _ & _).
  specialize (Hmask eq_refl).
  eexists. split.
  - apply parse_websocket_frame_complete; eassumption.
  - intros i Hi.
    assert (Hmod : 0 <= i mod 4 < 4) by (apply Z.mod_pos_bound; lia).
    destruct (lookup_lt_is_Some_2 data (Z.to_nat (header_len + i))
                ltac:(lia)) as [raw Hraw].
    destruct (lookup_lt_is_Some_2 data (Z.to_nat (header_len - 4 + i mod 4))
                ltac:(lia)) as [key Hkey].
    exists raw, key. split; [exact Hraw|]. split; [exact Hkey|].
    pose proof (raw_payload_length data header_len payload_length
                  ltac:(lia) ltac:(lia) Hcomplete) as Hrl.
    rewrite lookup_app_l by (rewrite unmask_length; lia).
    rewrite unmask_lookup.
    assert (Hr : raw_payload data header_len payload_length !! Z.to_nat i
                 = Some raw).
    { unfold raw_payload. rewrite lookup_take_lt by lia.
      rewrite lookup_drop. rewrite <- Hraw. f_equal. lia. }
    rewrite Hr. cbn [fmap option_fmap option_map]. do 2 f_equal.
    assert (Hk : mask_key data header_len !! Z.to_nat (i mod 4) = Some key).
    { unfold mask_key. rewrite lookup_take_lt by lia.
      rewrite lookup_drop. rewrite <- Hkey. f_equal. lia. }
    replace (0 + Z.to_nat i)%nat with (Z.to_nat i) by lia.
    replace (Z.to_nat i mod 4)%nat with (Z.to_nat (i mod 4)).
    2:{ rewrite Z2Nat.inj_mod by lia. reflexivity. }
    apply nth_lookup_Some with (d := x00) in Hk. exact Hk.
Qed.

Lemma parse_websocket_frame_unmasks_witness :
  parse_header masked_AB_frame = Ok (true, 2, 6)
  /\ exists payload : list byte,
       parse_websocket_frame (fun _ => true) masked_AB_frame
       = Ok (payload, 2)
       /\ forall i : Z, 0 <= i < 2 ->
            exists raw key : byte,
              masked_AB_frame !! Z.to_nat (6 + i) = Some raw
              /\ masked_AB_frame !! Z.to_nat (6 - 4 + i mod 4) = Some key
              /\ payload !! Z.to_nat i = Some (byte_xor raw key).
Proof.
  split; [reflexivity|].
  exact (parse_websocket_frame_unmasks (fun _ => true) masked_AB_frame 2 6
           eq_refl eq_refl ltac:(vm_compute; discriminate) eq_refl).
Defined.

(** The bytes returned for the masked frame of the example: [A] and [B]
    exclusive-ored with 1 and 2. *)
Example parse_masked_AB :
  parse_websocket_frame (fun _ => true) masked_AB_frame
  = Ok ([byte_xor x41 x01; byte_xor x42 x02; x00], 2).
Proof. reflexivity. Qed.

(** C2.  The ten-byte buffer [oversized_frame] declares a payload of
    [2 ^ 64 - 1] bytes after a ten-byte header, so it is shorter than
    header plus payload; yet the sum of the two wraps around to 9, the
    length test passes, and, [malloc(0)] returning a block, the copy of
    the payload runs outside both buffers instead of the frame being
    refused. *)
Theorem parse_websocket_frame_length_wraps (malloc_succeeds : Z -> bool) :
  malloc_succeeds 0 = true ->
  parse_header oversized_frame = Ok (false, 2 ^ 64 - 1, 10)
  /\ Z.of_nat (length oversized_frame) < 10 + (2 ^ 64 - 1)
  /\ wrap64 (10 + (2 ^ 64 - 1)) = 9
  /\ parse_websocket_frame malloc_succeeds oversized_frame = Undefined.
Proof.
  intros Hm.
  assert (Hhdr : parse_header oversized_frame = Ok (false, 2 ^ 64 - 1, 10))
    by (vm_compute; reflexivity).
  split; [exact Hhdr|]. split; [reflexivity|]. split; [reflexivity|].
  unfold parse_websocket_frame. rewrite Hhdr. cbn [cbind].
  change (wrap64 (10 + (2 ^ 64 - 1))) with 9.
  change (wrap64 (2 ^ 64 - 1 + 1)) with 0.
  change (Z.of_nat (length oversized_frame) <? 9) with false. cbn match.
  unfold malloc. rewrite Hm. cbn [cbind].
  reflexivity.
Qed.

Lemma parse_websocket_frame_length_wraps_witness :
  parse_websocket_frame (fun n => n <? 2 ^ 47) oversized_frame = Undefined.
Proof.
  exact (proj2 (proj2 (proj2
           (parse_websocket_frame_length_wraps (fun n => n <? 2 ^ 47)
              eq_refl)))).
Defined.

(** When [malloc(0)] returns NULL instead, the same buffer is refused,
    by the allocation check and not by the length check. *)
Lemma parse_oversized_frame_malloc_null (malloc_succeeds : Z -> bool) :
  malloc_succeeds 0 = false ->
  parse_websocket_frame malloc_succeeds oversized_frame = Fail.
Proof.
  intros Hm.
  assert (Hhdr : parse_header oversized_frame = Ok (false, 2 ^ 64 - 1, 10))
    by (vm_compute; reflexivity).
  unfold parse_websocket_frame. rewrite Hhdr. cbn [cbind].
  change (wrap64 (10 + (2 ^ 64 - 1))) with 9.
  change (wrap64 (2 ^ 64 - 1 + 1)) with 0.
  change (Z.of_nat (length oversized_frame) <? 9) with false. cbn match.
  unfold malloc. rewrite Hm. reflexivity.
Qed.

(** ** The client registry *)

Ltac exec :=
  cbv [sc_webrtc_server_add_client sc_webrtc_server_remove_client
       sc_webrtc_server_handle_websocket sc_webrtc_server_get_client
       bind ret get_server modify_server emit when update_client
       sc_mutex_lock sc_mutex_unlock net_close send_all
       srv log server_socket port stopped mutex clients client_count
       on_client_connected on_client_disconnected
       set_server_socket set_stopped set_mutex set_clients set_client_count
       Nat.pred] in *.

Lemma read_client_ok (i : Z) (c : sc_webrtc_client) (w : world) :
  0 <= i -> clients (srv w) !! Z.to_nat i = Some c ->
  read_client i w = Done c w.
Proof.
  intros Hi Hc. unfold read_client.
  destruct (Z.ltb_spec i 0); [lia|]. rewrite Hc. reflexivity.
Qed.

Lemma read_client_Done (i : Z) (c : sc_webrtc_client) (w w' : world) :
  read_client i w = Done c w' ->
  w' = w /\ 0 <= i /\ clients (srv w) !! Z.to_nat i = Some c.
Proof.
  unfold read_client. destruct (Z.ltb_spec i 0); [discriminate|].
  destruct (clients (srv w) !! Z.to_nat i) eqn:E; [|discriminate].
  intros [= <- <-]. auto.
Qed.

Section RegistryFacts.

Variable mutex_recursive : bool.

Lemma add_client_full (sock : sc_socket) (w : world) :
  mutex (srv w) = 0%nat ->
  SC_WEBRTC_MAX_CLIENTS <= client_count (srv w) ->
  sc_webrtc_server_add_client mutex_recursive sock w = Done (-1) w.
Proof.
  destruct w as [[ss p st mu cl cc cb1 cb2] lg]. cbn. intros -> Hfull.
  exec. destruct (Z.leb_spec SC_WEBRTC_MAX_CLIENTS cc); [reflexivity|lia].
Qed.

Lemma add_client_free (sock : sc_socket) (w : world) :
  mutex (srv w) = 0%nat ->
  0 <= client_count (srv w) < SC_WEBRTC_MAX_CLIENTS ->
  Z.of_nat (length (clients (srv w))) = SC_WEBRTC_MAX_CLIENTS ->
  sc_webrtc_server_add_client mutex_recursive sock w
  = Done (client_count (srv w))
      (mk_world
         (set_client_count (client_count (srv w) + 1)
            (set_clients
               (<[Z.to_nat (client_count (srv w)) :=
                    mk_client (client_count (srv w)) None None true sock]>
                  (clients (srv w)))
               (srv w)))
         (log w)).
Proof.
  destruct w as [[ss p st mu cl cc cb1 cb2] lg]. cbn.
  intros -> Hcc Hlen.
  destruct (lookup_lt_is_Some_2 cl (Z.to_nat cc) ltac:(lia)) as [c Hc].
  exec. destruct (Z.leb_spec SC_WEBRTC_MAX_CLIENTS cc); [lia|].
  erewrite read_client_ok; [reflexivity|lia|exact Hc].
Qed.

(** A call that succeeds returns the count it found and stores the new
    client in that slot. *)
Lemma add_client_returns_count (sock : sc_socket) (w w' : world)
    (client_id : Z) :
  sc_webrtc_server_add_client mutex_recursive sock w = Done client_id w' ->
  0 <= client_id ->
  client_id = client_count (srv w)
  /\ client_count (srv w') = client_id + 1
  /\ clients (srv w') !! Z.to_nat client_id
     = Some (mk_client client_id None None true sock).
Proof.
  destruct w as [[ss p st mu cl cc cb1 cb2] lg].
  intros Hrun Hid.
  assert (Hgo : forall m,
    (if SC_WEBRTC_MAX_CLIENTS <=? cc
     then Done (-1) (mk_world (mk_server ss p st (Nat.pred m) cl cc cb1 cb2) lg)
     else
       match read_client cc
               (mk_world (mk_server ss p st m cl cc cb1 cb2) lg) with
       | Done c w1 =>
           Done cc
             (mk_world
                (mk_server ss p st (Nat.pred m)
                   (<[Z.to_nat cc := mk_client cc None None true sock]> cl)
                   (cc + 1) cb1 cb2) lg)
       | Deadlock w1 => Deadlock w1
       | OutOfBounds => OutOfBounds
       end) = Done client_id w' ->
    client_id = cc
    /\ client_count (srv w') = client_id + 1
    /\ clients (srv w') !! Z.to_nat client_id
       = Some (mk_client client_id None None true sock)).
  { intros m. destruct (Z.leb_spec SC_WEBRTC_MAX_CLIENTS cc).
    - intros [= <- <-]. lia.
    - destruct (read_client cc _) as [c w1| |] eqn:E; try discriminate.
      apply read_client_Done in E as (-> & Hcc & Hc). cbn in Hc.
      intros [= <- <-]. cbn. split; [reflexivity|]. split; [reflexivity|].
      apply list_lookup_insert_eq. eapply lookup_lt_Some. exact Hc. }
  revert Hrun. exec.
  destruct mu as [|mu]; [|destruct mutex_recursive; [|discriminate]].
  - intros Hrun. apply (Hgo 1%nat).
    destruct (SC_WEBRTC_MAX_CLIENTS <=? cc); [exact Hrun|].
    revert Hrun. unfold read_client. cbn.
    destruct (cc <? 0); [trivial|]. destruct (cl !! Z.to_nat cc); trivial.
  - intros Hrun. apply (Hgo (S (S mu))).
    destruct (SC_WEBRTC_MAX_CLIENTS <=? cc); [exact Hrun|].
    revert Hrun. unfold read_client. cbn.
    destruct (cc <? 0); [trivial|]. destruct (cl !! Z.to_nat cc); trivial.
Qed.

(** Filling an empty part of the table: the calls return the
    successive counts. *)
Lemma add_clients_from (sockets : list sc_socket) :
  forall w : world,
    mutex (srv w) = 0%nat ->
    0 <= client_count (srv w) ->
    client_count (srv w) + Z.of_nat (length sockets)
      <= SC_WEBRTC_MAX_CLIENTS ->
    Z.of_nat (length (clients (srv w))) = SC_WEBRTC_MAX_CLIENTS ->
    exists w' : world,
      add_clients mutex_recursive sockets w
      = Done (seqZ (client_count (srv w)) (Z.of_nat (length sockets))) w'
      /\ mutex (srv w') = 0%nat
      /\ client_count (srv w')
         = client_count (srv w) + Z.of_nat (length sockets)
      /\ Z.of_nat (length (clients (srv w'))) = SC_WEBRTC_MAX_CLIENTS.
Proof.
  induction sockets as [|s rest IH]; intros w Hmu Hcc Hroom Hlen.
  - exists w. cbn. repeat split; [assumption|lia|assumption].
  - cbn [add_clients length] in *. unfold bind at 1.
    rewrite add_client_free by (assumption || lia).
    set (w1 := mk_world _ (log w)).
    destruct (IH w1) as (w' & Hrun & Hmu' & Hcc' & Hlen').
    + subst w1. destruct w as [[] ?]. cbn in *. assumption.
    + subst w1. destruct w as [[] ?]. cbn in *. lia.
    + subst w1. destruct w as [[] ?]. cbn in *. lia.
    + subst w1. destruct w as [[] ?]. cbn in *.
      rewrite length_insert. assumption.
    + exists w'. unfold bind at 1. rewrite Hrun. unfold ret.
      replace (client_count (srv w1)) with (client_count (srv w) + 1) in *
        by (subst w1; destruct w as [[] ?]; reflexivity).
      split.
      * f_equal. rewrite Nat2Z.inj_succ.
        rewrite (seqZ_cons (client_count (srv w))) by lia.
        f_equal. f_equal; lia.
      * repeat split; [assumption|lia|assumption].
Qed.

End RegistryFacts.

Section RemoveFacts.

Variable mutex_recursive : bool.

Lemma removed_frame (client_id : Z) (w : world) :
  mutex (srv (removed client_id w)) = mutex (srv w)
  /\ client_count (srv (removed client_id w)) = client_count (srv w)
  /\ length (clients (srv (removed client_id w)))
     = length (clients (srv w))
  /\ stopped (srv (removed client_id w)) = stopped (srv w)
  /\ server_socket (srv (removed client_id w)) = server_socket (srv w)
  /\ on_client_disconnected (srv (removed client_id w))
     = on_client_disconnected (srv w).
Proof.
  unfold removed.
  destruct ((0 <=? client_id) && (client_id <? client_count (srv w)));
    [|auto 10].
  destruct (clients (srv w) !! Z.to_nat client_id) as [c|]; [|auto 10].
  destruct (connected c); [|auto 10].
  destruct w as [[] ?]. cbn. rewrite length_insert. auto 10.
Qed.

(** With the lock free, or with a recursive lock, the call returns and
    its effect is [removed]. *)
Lemma remove_client_run (client_id : Z) (w : world) :
  mutex (srv w) = 0%nat \/ mutex_recursive = true ->
  registry_ok (srv w) ->
  sc_webrtc_server_remove_client mutex_recursive client_id w
  = Done tt (removed client_id w).
Proof.
  destruct w as [[ss p st mu cl cc cb1 cb2] lg].
  unfold registry_ok, removed, SC_WEBRTC_MAX_CLIENTS. cbn.
  intros Hlock [Hlen Hcc].
  assert (Hbody : forall m : nat,
    (do server <- get_server;
     when ((0 <=? client_id) && (client_id <? client_count server))
       (do client <- read_client client_id;
        when (connected client)
          (update_client client_id (set_connected false) ;;
           net_close (socket client) ;;
           match peer_connection client with
           | Some pc =>
               emit (RtcDeletePeerConnection pc) ;;
               update_client client_id (set_peer_connection None)
           | None => ret tt
           end ;;
           when (on_client_disconnected server)
             (emit (OnClientDisconnected client_id)))) ;;
     sc_mutex_unlock)
      (mk_world (mk_server ss p st (S m) cl cc cb1 cb2) lg)
    = Done tt
        (if (0 <=? client_id) && (client_id <? cc)
         then
           match cl !! Z.to_nat client_id with
           | Some c =>
               if connected c
               then
                 mk_world
                   (mk_server ss p st m
                      (<[Z.to_nat client_id := disconnected c]> cl) cc
                      cb1 cb2)
                   (lg ++ disconnect_events
                            (mk_server ss p st m cl cc cb1 cb2)
                            client_id c)
               else mk_world (mk_server ss p st m cl cc cb1 cb2) lg
           | None => mk_world (mk_server ss p st m cl cc cb1 cb2) lg
           end
         else mk_world (mk_server ss p st m cl cc cb1 cb2) lg)).
  { intros m. exec.
    destruct (Z.leb_spec 0 client_id) as [H0|H0]; [|reflexivity].
    destruct (Z.ltb_spec client_id cc) as [H1|H1]; [|reflexivity].
    cbn [andb].
    destruct (lookup_lt_is_Some_2 cl (Z.to_nat client_id) ltac:(lia))
      as [c Hc].
    rewrite (read_client_ok client_id c) by (cbn; assumption || lia).
    rewrite Hc.
    destruct c as [ci pc dc [|] sk]; cbn [connected]; [|reflexivity].
    rewrite (read_client_ok client_id (mk_client ci pc dc true sk))
      by (cbn; assumption || lia).
    unfold disconnect_events, disconnected, set_connected.
    cbn [socket peer_connection id data_channel connected
         on_client_disconnected].
    assert (Hlt : (Z.to_nat client_id < length cl)%nat)
      by (eapply lookup_lt_Some; exact Hc).
    destruct pc as [pc|].
    - rewrite (read_client_ok client_id (mk_client ci (Some pc) dc false sk)).
      2: lia.
      2:{ cbn. apply list_lookup_insert_eq. exact Hlt. }
      unfold set_peer_connection. cbn.
      rewrite list_insert_insert_eq.
      destruct cb2; cbn; rewrite <- ?app_assoc; reflexivity.
    - destruct cb2; cbn; rewrite <- ?app_assoc; reflexivity. }
  unfold sc_webrtc_server_remove_client. unfold bind at 1.
  unfold sc_mutex_lock at 1. cbn [srv mutex log set_mutex server_socket
    port stopped clients client_count on_client_connected
    on_client_disconnected].
  destruct mu as [|mu].
  - exact (Hbody 0%nat).
  - destruct Hlock as [Hlock|Hlock]; [discriminate|]. rewrite Hlock.
    exact (Hbody (S mu)).
Qed.

End RemoveFacts.

(** ** Properties of the effect of a removal *)

Lemma removed_out_of_range (client_id : Z) (w : world) :
  ~ (0 <= client_id < client_count (srv w)) -> removed client_id w = w.
Proof.
  intros Hout. unfold removed.
  destruct (Z.leb_spec 0 client_id), (Z.ltb_spec client_id (client_count (srv w)));
    cbn [andb]; try reflexivity. lia.
Qed.

Lemma removed_not_connected (client_id : Z) (w : world) :
  registry_ok (srv w) ->
  0 <= client_id < client_count (srv w) ->
  exists c, clients (srv (removed client_id w)) !! Z.to_nat client_id = Some c
            /\ connected c = false.
Proof.
  intros [Hlen Hcc] Hin. unfold SC_WEBRTC_MAX_CLIENTS in *. unfold removed.
  destruct (Z.leb_spec 0 client_id), (Z.ltb_spec client_id (client_count (srv w)));
    try lia. cbn [andb].
  destruct (lookup_lt_is_Some_2 (clients (srv w)) (Z.to_nat client_id)
              ltac:(lia)) as [c Hc].
  rewrite Hc. destruct (connected c) eqn:Econn.
  - exists (disconnected c). split; [|reflexivity].
    destruct w as [[] ?]. cbn in *. apply list_lookup_insert_eq. lia.
  - exists c. split; assumption.
Qed.

Lemma removed_other_slot (client_id : Z) (j : nat) (w : world) :
  j <> Z.to_nat client_id ->
  clients (srv (removed client_id w)) !! j = clients (srv w) !! j.
Proof.
  intros Hne. unfold removed.
  destruct ((0 <=? client_id) && (client_id <? client_count (srv w)));
    [|reflexivity].
  destruct (clients (srv w) !! Z.to_nat client_id) as [c|]; [|reflexivity].
  destruct (connected c); [|reflexivity].
  destruct w as [[] ?]. cbn. apply list_lookup_insert_ne. auto.
Qed.

Lemma disconnect_calls_events (s : sc_webrtc_server) (client_id : Z)
    (c : sc_webrtc_client) :
  disconnect_calls client_id (disconnect_events s client_id c)
  = if on_client_disconnected s then 1%nat else 0%nat.
Proof.
  unfold disconnect_calls, disconnect_events.
  cbn [List.filter is_disconnect_call].
  rewrite List.filter_app, length_app.
  destruct (peer_connection c); cbn [List.filter is_disconnect_call length];
    destruct (on_client_disconnected s);
    cbn [List.filter is_disconnect_call length];
    rewrite ?Z.eqb_refl; reflexivity.
Qed.

(** A removal appends to the log; it calls the disconnect callback at
    most once, and only for a client that was alive. *)
Lemma removed_log (client_id : Z) (w : world) :
  exists evs : list event,
    log (removed client_id w) = log w ++ evs
    /\ (disconnect_calls client_id evs <= 1)%nat
    /\ (evs <> [] -> alive (srv w) client_id).
Proof.
  unfold removed.
  destruct (Z.leb_spec 0 client_id) as [H0|H0];
    [|exists []; rewrite app_nil_r;
     (split; [reflexivity|split; [cbn; lia|congruence]])].
  destruct (client_id <? client_count (srv w));
    [|exists []; rewrite app_nil_r;
     (split; [reflexivity|split; [cbn; lia|congruence]])].
  cbn [andb].
  destruct (clients (srv w) !! Z.to_nat client_id) as [c|] eqn:Ec;
    [|exists []; rewrite app_nil_r;
     (split; [reflexivity|split; [cbn; lia|congruence]])].
  destruct (connected c) eqn:Econn;
    [|exists []; rewrite app_nil_r;
     (split; [reflexivity|split; [cbn; lia|congruence]])].
  exists (disconnect_events (srv w) client_id c).
  split; [reflexivity|]. split.
  - rewrite disconnect_calls_events.
    destruct (on_client_disconnected (srv w)); lia.
  - intros _. split; [exact H0|]. exists c. split; assumption.
Qed.

Lemma removed_not_alive (client_id : Z) (w : world) :
  ~ alive (srv w) client_id -> removed client_id w = w.
Proof.
  intros Hna. unfold removed.
  destruct (Z.leb_spec 0 client_id) as [H0|H0]; [|reflexivity].
  destruct (client_id <? client_count (srv w)); [|reflexivity].
  cbn [andb].
  destruct (clients (srv w) !! Z.to_nat client_id) as [c|] eqn:Ec;
    [|reflexivity].
  destruct (connected c) eqn:Econn; [|reflexivity].
  exfalso. apply Hna. split; [exact H0|]. exists c. split; assumption.
Qed.

Lemma removed_idempotent (client_id : Z) (w : world) :
  removed client_id (removed client_id w) = removed client_id w.
Proof.
  assert (Hcc : client_count (srv (removed client_id w))
                = client_count (srv w)).
  { unfold removed.
    destruct ((0 <=? client_id) && (client_id <? client_count (srv w)));
      [|reflexivity].
    destruct (clients (srv w) !! Z.to_nat client_id) as [c|]; [|reflexivity].
    destruct (connected c); [|reflexivity].
    destruct w as [[] ?]. reflexivity. }
  destruct (Z.lt_ge_cases client_id 0) as [H0|H0];
    [apply removed_out_of_range; rewrite Hcc; lia|].
  destruct (Z.lt_ge_cases client_id (client_count (srv w))) as [H1|H1];
    [|apply removed_out_of_range; rewrite Hcc; lia].
  apply removed_not_alive. intros [_ (c' & Hc' & Hconn')].
  revert Hc' Hconn'. unfold removed.
  destruct (Z.leb_spec 0 client_id); [|lia].
  destruct (Z.ltb_spec client_id (client_count (srv w))); [|lia].
  cbn [andb].
  destruct (clients (srv w) !! Z.to_nat client_id) as [c|] eqn:Ec.
  - destruct (connected c) eqn:Econn.
    + destruct w as [[] ?]. cbn in *.
      rewrite list_lookup_insert_eq by (eapply lookup_lt_Some; exact Ec).
      intros [= <-]. discriminate.
    + rewrite Ec. intros [= <-]. congruence.
  - rewrite Ec. discriminate.
Qed.

(** ** The client registry: results *)

(** C6.  From an empty registry (count 0, lock free),
    [SC_WEBRTC_MAX_CLIENTS] successive calls of
    [sc_webrtc_server_add_client] return 0, 1, ..., 9 in this order; one
    more call then returns -1 and leaves the whole state as it was.  And
    whatever the state, a call that succeeds returns the count found at
    the time of the call. *)
Theorem add_client_ids (mutex_recursive : bool) (w : world)
    (sockets : list sc_socket) (extra : sc_socket) :
  mutex (srv w) = 0%nat ->
  client_count (srv w) = 0 ->
  Z.of_nat (length (clients (srv w))) = SC_WEBRTC_MAX_CLIENTS ->
  Z.of_nat (length sockets) = SC_WEBRTC_MAX_CLIENTS ->
  (exists w' : world,
     add_clients mutex_recursive sockets w
     = Done [0; 1; 2; 3; 4; 5; 6; 7; 8; 9] w'
     /\ client_count (srv w') = SC_WEBRTC_MAX_CLIENTS
     /\ sc_webrtc_server_add_client mutex_recursive extra w' = Done (-1) w')
  /\ (forall (sock : sc_socket) (w1 w2 : world) (client_id : Z),
        sc_webrtc_server_add_client mutex_recursive sock w1
        = Done client_id w2 ->
        0 <= client_id ->
        client_id = client_count (srv w1)
        /\ client_count (srv w2) = client_id + 1).
Proof.
  intros Hmu Hcc Hlen Hn. split.
  - destruct (add_clients_from mutex_recursive sockets w Hmu
                ltac:(lia) ltac:(lia) Hlen)
      as (w' & Hrun & Hmu' & Hcc' & Hlen').
    exists w'. rewrite Hcc, Hn in Hrun. rewrite Hcc, Hn in Hcc'.
    split; [exact Hrun|]. split; [exact Hcc'|].
    apply add_client_full; [assumption|lia].
  - intros sock w1 w2 client_id Hrun Hid.
    destruct (add_client_returns_count mutex_recursive sock w1 w2 client_id
                Hrun Hid) as (H1 & H2 & _).
    split; assumption.
Qed.

Lemma add_client_ids_witness :
  exists w' : world,
    add_clients false [11; 12; 13; 14; 15; 16; 17; 18; 19; 20] fresh_world
    = Done [0; 1; 2; 3; 4; 5; 6; 7; 8; 9] w'
    /\ client_count (srv w') = SC_WEBRTC_MAX_CLIENTS
    /\ sc_webrtc_server_add_client false 21 w' = Done (-1) w'.
Proof.
  exact (proj1 (add_client_ids false fresh_world
                  [11; 12; 13; 14; 15; 16; 17; 18; 19; 20] 21
                  eq_refl eq_refl eq_refl eq_refl)).
Defined.

(** C7.  With the lock free and a well-formed table,
    [sc_webrtc_server_remove_client] returns; afterwards the client of an
    allocated id is not alive; a second call on the same id changes
    nothing at all; a call on an id that is out of range (negative, or
    not below the count, hence never allocated) changes nothing at all;
    and the events of the call contain at most one call of the
    disconnect callback for this id, and none unless the client was
    alive before the call. *)
Theorem remove_client_idempotent (mutex_recursive : bool) (w : world)
    (client_id : Z) :
  mutex (srv w) = 0%nat ->
  registry_ok (srv w) ->
  exists (w1 : world) (evs : list event),
    sc_webrtc_server_remove_client mutex_recursive client_id w = Done tt w1
    /\ log w1 = log w ++ evs
    /\ (0 <= client_id < client_count (srv w) ->
        exists c, clients (srv w1) !! Z.to_nat client_id = Some c
                  /\ connected c = false)
    /\ sc_webrtc_server_remove_client mutex_recursive client_id w1
       = Done tt w1
    /\ (~ (0 <= client_id < client_count (srv w)) -> w1 = w)
    /\ (disconnect_calls client_id evs <= 1)%nat
    /\ (~ alive (srv w) client_id -> w1 = w).
Proof.
  intros Hmu Hok.
  destruct (removed_log client_id w) as (evs & Hlog & Hcalls & _).
  destruct (removed_frame client_id w) as (Hmu' & Hcc' & Hlen' & _).
  exists (removed client_id w), evs.
  split; [apply remove_client_run; auto|].
  split; [exact Hlog|].
  split; [apply removed_not_connected; assumption|].
  split.
  - rewrite remove_client_run.
    + rewrite removed_idempotent. reflexivity.
    + left. congruence.
    + destruct Hok as [Hlen Hcc]. split; congruence.
  - split; [apply removed_out_of_range|].
    split; [exact Hcalls|apply removed_not_alive].
Qed.

Lemma remove_client_idempotent_witness :
  exists (w1 : world) (evs : list event),
    sc_webrtc_server_remove_client false 0 busy_world = Done tt w1
    /\ log w1 = log busy_world ++ evs
    /\ (0 <= 0 < client_count (srv busy_world) ->
        exists c, clients (srv w1) !! Z.to_nat 0 = Some c
                  /\ connected c = false)
    /\ sc_webrtc_server_remove_client false 0 w1 = Done tt w1
    /\ (~ (0 <= 0 < client_count (srv busy_world)) -> w1 = busy_world)
    /\ (disconnect_calls 0 evs <= 1)%nat
    /\ (~ alive (srv busy_world) 0 -> w1 = busy_world).
Proof.
  apply (remove_client_idempotent false busy_world 0).
  - reflexivity.
  - split; [reflexivity|]. split; vm_compute; discriminate.
Defined.

(** The events of that removal, in order. *)
Example remove_client_busy_world :
  exists w1,
    sc_webrtc_server_remove_client false 0 busy_world = Done tt w1
    /\ log w1 = [NetClose 7; RtcDeletePeerConnection 5;
                 OnClientDisconnected 0].
Proof. eexists. split; reflexivity. Qed.

Lemma classic_alive_dec (s : sc_webrtc_server) (i : Z) :
  alive s i \/ ~ alive s i.
Proof.
  unfold alive. destruct (Z.le_gt_cases 0 i) as [Hi|Hi]; [|right; lia].
  destruct (clients s !! Z.to_nat i) as [c|] eqn:Ec.
  - destruct (connected c) eqn:Econn.
    + left. eauto.
    + right. intros [_ (c' & Hc' & Hconn')]. congruence.
  - right. intros [_ (c' & Hc' & _)]. congruence.
Qed.

(** ** Stopping the server *)

Lemma removed_registry_ok (client_id : Z) (w : world) :
  registry_ok (srv w) -> registry_ok (srv (removed client_id w)).
Proof.
  intros [Hlen Hcc].
  destruct (removed_frame client_id w) as (_ & Hcc' & Hlen' & _).
  split; congruence.
Qed.

Lemma removed_keeps_not_connected (client_id : Z) (k : nat) (w : world)
    (c : sc_webrtc_client) :
  clients (srv w) !! k = Some c -> connected c = false ->
  exists c', clients (srv (removed client_id w)) !! k = Some c'
             /\ connected c' = false.
Proof.
  intros Hc Hconn.
  destruct (Nat.eq_dec k (Z.to_nat client_id)) as [->|Hne].
  - unfold removed.
    destruct ((0 <=? client_id) && (client_id <? client_count (srv w)));
      [|eauto].
    rewrite Hc, Hconn. eauto.
  - rewrite removed_other_slot by assumption. eauto.
Qed.

Section StopFacts.

Variable SC_SOCKET_NONE : sc_socket.

Lemma stop_loop_body_recursive (i : Z) (w : world) :
  registry_ok (srv w) ->
  0 <= i < client_count (srv w) ->
  stop_loop_body true i w = Done tt (removed i w).
Proof.
  intros Hok Hin. pose proof Hok as [Hlen Hcc].
  unfold SC_WEBRTC_MAX_CLIENTS in *.
  destruct (lookup_lt_is_Some_2 (clients (srv w)) (Z.to_nat i) ltac:(lia))
    as [c Hc].
  unfold stop_loop_body, bind.
  rewrite (read_client_ok i c) by (assumption || lia).
  destruct (connected c) eqn:Econn; cbn [when].
  - apply remove_client_run; auto.
  - unfold ret. rewrite removed_not_alive; [reflexivity|].
    intros [_ (c' & Hc' & Hconn')]. congruence.
Qed.

Lemma stop_loop_body_idle (mutex_recursive : bool) (i : Z) (w : world) :
  registry_ok (srv w) ->
  0 <= i < client_count (srv w) ->
  ~ alive (srv w) i ->
  stop_loop_body mutex_recursive i w = Done tt w.
Proof.
  intros [Hlen Hcc] Hin Hna. unfold SC_WEBRTC_MAX_CLIENTS in *.
  destruct (lookup_lt_is_Some_2 (clients (srv w)) (Z.to_nat i) ltac:(lia))
    as [c Hc].
  unfold stop_loop_body, bind.
  rewrite (read_client_ok i c) by (assumption || lia).
  destruct (connected c) eqn:Econn; cbn [when]; [|reflexivity].
  exfalso. apply Hna. split; [lia|]. eauto.
Qed.

(** Under a lock that does not nest, removing a client while the lock
    is held never returns. *)
Lemma stop_loop_body_deadlock (i : Z) (w : world) :
  mutex (srv w) <> 0%nat ->
  alive (srv w) i ->
  stop_loop_body false i w = Deadlock w.
Proof.
  intros Hheld [Hi (c & Hc & Hconn)].
  unfold stop_loop_body, bind.
  rewrite (read_client_ok i c) by assumption.
  rewrite Hconn. cbn [when].
  unfold sc_webrtc_server_remove_client, bind, sc_mutex_lock.
  destruct (mutex (srv w)); [congruence|reflexivity].
Qed.

Lemma stop_loop_recursive (ids : list Z) :
  forall w : world,
    registry_ok (srv w) ->
    (forall i, i ∈ ids -> 0 <= i < client_count (srv w)) ->
    for_each ids (stop_loop_body true) w = Done tt (removed_all ids w).
Proof.
  induction ids as [|i rest IH]; intros w Hok Hin; [reflexivity|].
  cbn [for_each removed_all fold_left]. unfold bind.
  rewrite stop_loop_body_recursive
    by (assumption || (apply Hin; apply list_elem_of_here)).
  apply IH; [apply removed_registry_ok; assumption|].
  intros j Hj.
  destruct (removed_frame i w) as (_ & Hcc' & _). rewrite Hcc'.
  apply Hin. apply list_elem_of_further. exact Hj.
Qed.

Lemma stop_loop_deadlock (ids : list Z) (w : world) :
  registry_ok (srv w) ->
  mutex (srv w) <> 0%nat ->
  (forall i, i ∈ ids -> 0 <= i < client_count (srv w)) ->
  (exists i, i ∈ ids /\ alive (srv w) i) ->
  for_each ids (stop_loop_body false) w = Deadlock w.
Proof.
  intros Hok Hheld. induction ids as [|i rest IH]; intros Hin (j & Hj & Hal).
  - inversion Hj.
  - cbn [for_each]. unfold bind.
    destruct (classic_alive_dec (srv w) i) as [Hi|Hi].
    + rewrite stop_loop_body_deadlock by assumption. reflexivity.
    + rewrite stop_loop_body_idle
        by (assumption || (apply Hin; apply list_elem_of_here)).
      apply IH.
      * intros k Hk. apply Hin. apply list_elem_of_further. exact Hk.
      * exists j. split; [|exact Hal].
        apply elem_of_cons in Hj as [->|Hj]; [contradiction|exact Hj].
Qed.

End StopFacts.

Lemma removed_all_frame (ids : list Z) :
  forall w : world,
    mutex (srv (removed_all ids w)) = mutex (srv w)
    /\ client_count (srv (removed_all ids w)) = client_count (srv w)
    /\ length (clients (srv (removed_all ids w))) = length (clients (srv w))
    /\ stopped (srv (removed_all ids w)) = stopped (srv w)
    /\ server_socket (srv (removed_all ids w)) = server_socket (srv w)
    /\ on_client_disconnected (srv (removed_all ids w))
       = on_client_disconnected (srv w).
Proof.
  induction ids as [|i rest IH]; intros w; [cbn; auto 10|].
  cbn [removed_all fold_left].
  destruct (IH (removed i w)) as (H1 & H2 & H3 & H4 & H5 & H6).
  destruct (removed_frame i w) as (G1 & G2 & G3 & G4 & G5 & G6).
  unfold removed_all in *. repeat split; congruence.
Qed.

Lemma removed_all_keeps_not_connected (ids : list Z) :
  forall (w : world) (k : nat) (c : sc_webrtc_client),
    clients (srv w) !! k = Some c -> connected c = false ->
    exists c', clients (srv (removed_all ids w)) !! k = Some c'
               /\ connected c' = false.
Proof.
  induction ids as [|i rest IH]; intros w k c Hc Hconn; [cbn; eauto|].
  cbn [removed_all fold_left].
  destruct (removed_keeps_not_connected i k w c Hc Hconn) as (c1 & Hc1 & Hn1).
  exact (IH (removed i w) k c1 Hc1 Hn1).
Qed.

(** After the removals no client of the listed slots is alive. *)
Lemma removed_all_not_connected (ids : list Z) :
  forall (w : world) (i : Z),
    registry_ok (srv w) ->
    i ∈ ids -> 0 <= i < client_count (srv w) ->
    exists c, clients (srv (removed_all ids w)) !! Z.to_nat i = Some c
              /\ connected c = false.
Proof.
  induction ids as [|a rest IH]; intros w i Hok Hi Hin; [inversion Hi|].
  cbn [removed_all fold_left].
  apply elem_of_cons in Hi as [->|Hi].
  - destruct (removed_not_connected a w Hok Hin) as (c & Hc & Hconn).
    exact (removed_all_keeps_not_connected rest (removed a w) _ c Hc Hconn).
  - apply (IH (removed a w) i); [apply removed_registry_ok; exact Hok|exact Hi|].
    destruct (removed_frame a w) as (_ & Hcc & _). rewrite Hcc. exact Hin.
Qed.

Lemma removed_all_log_extends (ids : list Z) :
  forall w : world,
    exists evs, log (removed_all ids w) = log w ++ evs.
Proof.
  induction ids as [|a rest IH]; intros w.
  - exists []. cbn. rewrite app_nil_r. reflexivity.
  - cbn [removed_all fold_left].
    destruct (IH (removed a w)) as (evs2 & H2).
    destruct (removed_log a w) as (evs1 & H1 & _).
    exists (evs1 ++ evs2). unfold removed_all in *.
    rewrite H2, H1, app_assoc. reflexivity.
Qed.

(** The removals close the transport of every listed client that was
    alive and, when the callback is set, call it for that client. *)
Lemma removed_all_log_alive (ids : list Z) :
  forall (w : world) (i : Z) (c : sc_webrtc_client),
    i ∈ ids -> 0 <= i < client_count (srv w) ->
    clients (srv w) !! Z.to_nat i = Some c -> connected c = true ->
    exists evs,
      log (removed_all ids w) = log w ++ evs
      /\ NetClose (socket c) ∈ evs
      /\ (on_client_disconnected (srv w) = true ->
          OnClientDisconnected i ∈ evs).
Proof.
  induction ids as [|a rest IH]; intros w i c Hi Hin Hc Hconn;
    [inversion Hi|].
  cbn [removed_all fold_left].
  destruct (Z.eq_dec i a) as [->|Hne].
  - destruct (removed_all_log_extends rest (removed a w)) as (evs2 & H2).
    exists (disconnect_events (srv w) a c ++ evs2).
    assert (Hlog : log (removed a w)
                   = log w ++ disconnect_events (srv w) a c).
    { unfold removed.
      destruct (Z.leb_spec 0 a); [|lia].
      destruct (Z.ltb_spec a (client_count (srv w))); [|lia].
      cbn [andb]. rewrite Hc, Hconn. reflexivity. }
    unfold removed_all in *. rewrite H2, Hlog, app_assoc.
    split; [reflexivity|]. split.
    + apply elem_of_app. left. unfold disconnect_events.
      apply list_elem_of_here.
    + intros Hcb. apply elem_of_app. left. unfold disconnect_events.
      rewrite Hcb. apply list_elem_of_further, elem_of_app. right.
      apply list_elem_of_here.
  - apply elem_of_cons in Hi as [Hi|Hi]; [contradiction|].
    destruct (removed_frame a w) as (_ & Hcc & _ & _ & _ & Hcb).
    destruct (IH (removed a w) i c Hi) as (evs2 & H2 & Hclose & Hcall).
    + rewrite Hcc. exact Hin.
    + destruct (Z.lt_ge_cases a 0) as [Hneg|Hpos].
      * rewrite removed_out_of_range by lia. exact Hc.
      * rewrite removed_other_slot by lia. exact Hc.
    + exact Hconn.
    + destruct (removed_log a w) as (evs1 & H1 & _).
      exists (evs1 ++ evs2). unfold removed_all in *.
      rewrite H2, H1, app_assoc. split; [reflexivity|]. split.
      * apply elem_of_app. right. exact Hclose.
      * intros Hset. apply elem_of_app. right. apply Hcall.
        rewrite Hcb. exact Hset.
Qed.

Section StopResults.

Variable SC_SOCKET_NONE : sc_socket.

(** Under a lock that does not nest, [sc_webrtc_server_stop] never
    returns when some client is alive: it blocks on the lock it holds,
    with the stop flag set and nothing closed. *)
Lemma stop_deadlocks (w : world) :
  mutex (srv w) = 0%nat ->
  registry_ok (srv w) ->
  (exists i, 0 <= i < client_count (srv w) /\ alive (srv w) i) ->
  sc_webrtc_server_stop false SC_SOCKET_NONE w
  = Deadlock (mk_world (set_mutex 1 (set_stopped true (srv w))) (log w)).
Proof.
  destruct w as [[ss p st mu cl cc cb1 cb2] lg]. cbn.
  intros -> Hok (i & Hin & Hal).
  unfold sc_webrtc_server_stop.
  cbv [bind modify_server sc_mutex_lock get_server srv log mutex
       set_stopped set_mutex server_socket port stopped clients
       client_count on_client_connected on_client_disconnected].
  rewrite stop_loop_deadlock; [reflexivity|exact Hok|cbn; lia| |].
  - intros j Hj. apply elem_of_seqZ in Hj. cbn. lia.
  - exists i. split; [apply elem_of_seqZ; lia|exact Hal].
Qed.

(** Under a recursive lock it returns: the stop flag is set, no
    allocated client is alive, the transport of every client that was
    alive has been closed and the callback called for it, and the
    listening socket is closed last. *)
Lemma stop_completes_recursive (w : world) :
  mutex (srv w) = 0%nat ->
  registry_ok (srv w) ->
  server_socket (srv w) <> SC_SOCKET_NONE ->
  exists (w' : world) (evs : list event),
    sc_webrtc_server_stop true SC_SOCKET_NONE w = Done tt w'
    /\ stopped (srv w') = true
    /\ mutex (srv w') = 0%nat
    /\ server_socket (srv w') = SC_SOCKET_NONE
    /\ log w' = log w ++ evs ++ [NetClose (server_socket (srv w))]
    /\ (forall i, 0 <= i < client_count (srv w) ->
          exists c, clients (srv w') !! Z.to_nat i = Some c
                    /\ connected c = false)
    /\ (forall i c, 0 <= i < client_count (srv w) ->
          clients (srv w) !! Z.to_nat i = Some c -> connected c = true ->
          NetClose (socket c) ∈ evs
          /\ (on_client_disconnected (srv w) = true ->
              OnClientDisconnected i ∈ evs)).
Proof.
  destruct w as [[ss p st mu cl cc cb1 cb2] lg]. cbn.
  intros -> Hok Hss.
  set (w1 := mk_world (mk_server ss p true 1 cl cc cb1 cb2) lg).
  set (w2 := removed_all (seqZ 0 cc) w1).
  assert (Hok1 : registry_ok (srv w1)) by exact Hok.
  assert (Hrange : forall j, j ∈ seqZ 0 cc -> 0 <= j < client_count (srv w1)).
  { intros j Hj. apply elem_of_seqZ in Hj. cbn. lia. }
  pose proof (stop_loop_recursive (seqZ 0 cc) w1 Hok1 Hrange) as Hloop.
  fold w2 in Hloop.
  destruct (removed_all_frame (seqZ 0 cc) w1)
    as (Hmu2 & Hcc2 & Hlen2 & Hst2 & Hss2 & Hcb2).
  fold w2 in Hmu2, Hcc2, Hlen2, Hst2, Hss2, Hcb2. cbn in *.
  destruct (removed_all_log_extends (seqZ 0 cc) w1) as (evs & Hevs).
  fold w2 in Hevs. cbn in Hevs.
  exists (mk_world (set_server_socket SC_SOCKET_NONE
                      (set_mutex 0 (srv w2)))
            (log w2 ++ [NetClose ss])), evs.
  split.
  { unfold sc_webrtc_server_stop.
    cbv [bind modify_server sc_mutex_lock get_server srv log mutex
         set_stopped set_mutex server_socket port stopped clients
         client_count on_client_connected on_client_disconnected].
    fold w1. rewrite Hloop.
    cbv [sc_mutex_unlock modify_server when net_close emit bind ret].
    destruct w2 as [[ss2 p2 st2 mu2 cl2 cc2 cb12 cb22] lg2]. cbn in *.
    subst. destruct (Z.eqb_spec ss SC_SOCKET_NONE); [contradiction|].
    reflexivity. }
  destruct w2 as [[ss2 p2 st2 mu2 cl2 cc2 cb12 cb22] lg2] eqn:Ew2.
  cbn in *. subst.
  split; [reflexivity|]. split; [reflexivity|]. split; [reflexivity|].
  split; [rewrite <- app_assoc; reflexivity|].
  split.
  - intros i Hi.
    destruct (removed_all_not_connected (seqZ 0 cc) w1 i Hok1)
      as (c & Hc & Hconn); [apply elem_of_seqZ; lia|cbn; lia|].
    fold w2 in Hc. rewrite Ew2 in Hc. cbn in Hc. eauto.
  - intros i c Hi Hc Hconn.
    destruct (removed_all_log_alive (seqZ 0 cc) w1 i c)
      as (evs' & Hlog' & Hclose & Hcall);
      [apply elem_of_seqZ; lia|cbn; lia|exact Hc|exact Hconn|].
    fold w2 in Hlog'. rewrite Ew2 in Hlog'. cbn in Hlog'.
    apply app_inv_head in Hlog'. subst evs'. split; assumption.
Qed.

End StopResults.

(** ** The upgrade negotiator *)

Section NegotiatorFacts.

Variable mutex_recursive : bool.
Variable SC_SOCKET_NONE : sc_socket.
Variable net_recv : sc_socket -> option (list byte).
Variable net_send_all : sc_socket -> list byte -> Z.
Variable HTML_CLIENT : list byte.

(** The two ways in which [sc_webrtc_server_add_client] returns. *)
Lemma add_client_cases (sock : sc_socket) (w w' : world) (client_id : Z) :
  sc_webrtc_server_add_client mutex_recursive sock w = Done client_id w' ->
  (client_id = -1 /\ SC_WEBRTC_MAX_CLIENTS <= client_count (srv w)
   /\ w' = w)
  \/ (client_id = client_count (srv w)
      /\ 0 <= client_count (srv w) < SC_WEBRTC_MAX_CLIENTS
      /\ (Z.to_nat (client_count (srv w)) < length (clients (srv w)))%nat
      /\ w' = registered sock w).
Proof.
  destruct w as [[ss p st mu cl cc cb1 cb2] lg]. unfold registered.
  exec. cbn [srv log clients client_count].
  assert (Hgo : forall m,
    (if SC_WEBRTC_MAX_CLIENTS <=? cc
     then Done (-1)
            (mk_world (mk_server ss p st m cl cc cb1 cb2) lg)
     else
       match read_client cc
               (mk_world (mk_server ss p st (S m) cl cc cb1 cb2) lg) with
       | Done c w1 =>
           Done cc
             (mk_world
                (mk_server ss p st m
                   (<[Z.to_nat cc := mk_client cc None None true sock]> cl)
                   (cc + 1) cb1 cb2) lg)
       | Deadlock w1 => Deadlock w1
       | OutOfBounds => OutOfBounds
       end) = Done client_id w' ->
    (client_id = -1 /\ SC_WEBRTC_MAX_CLIENTS <= cc
     /\ w' = mk_world (mk_server ss p st m cl cc cb1 cb2) lg)
    \/ (client_id = cc /\ 0 <= cc < SC_WEBRTC_MAX_CLIENTS
        /\ (Z.to_nat cc < length cl)%nat
        /\ w' = mk_world
                  (mk_server ss p st m
                     (<[Z.to_nat cc := mk_client cc None None true sock]> cl)
                     (cc + 1) cb1 cb2) lg)).
  { intros m. destruct (Z.leb_spec SC_WEBRTC_MAX_CLIENTS cc).
    - intros [= <- <-]. left. auto.
    - destruct (read_client cc _) as [c w1| |] eqn:E; try discriminate.
      apply read_client_Done in E as (-> & Hcc & Hc). cbn in Hc.
      intros [= <- <-]. right.
      split; [reflexivity|]. split; [lia|].
      split; [eapply lookup_lt_Some; exact Hc|reflexivity]. }
  destruct mu as [|mu]; [|destruct mutex_recursive; [|discriminate]].
  - intros Hrun. apply (Hgo 0%nat).
    destruct (SC_WEBRTC_MAX_CLIENTS <=? cc); [exact Hrun|].
    revert Hrun. unfold read_client. cbn.
    destruct (cc <? 0); [trivial|]. destruct (cl !! Z.to_nat cc); trivial.
  - intros Hrun. apply (Hgo (S mu)).
    destruct (SC_WEBRTC_MAX_CLIENTS <=? cc); [exact Hrun|].
    revert Hrun. unfold read_client. cbn.
    destruct (cc <? 0); [trivial|]. destruct (cl !! Z.to_nat cc); trivial.
Qed.

(** The three ways in which [sc_webrtc_server_handle_websocket]
    returns: the send fails; the response is sent and the table is
    full; the response is sent and the client is registered. *)
Lemma handle_websocket_cases (sock : sc_socket) (w w' : world) (b : bool) :
  sc_webrtc_server_handle_websocket mutex_recursive net_send_all sock w
  = Done b w' ->
  (b = false
   /\ w' = mk_world (srv w)
             (log w ++ [NetSendAll sock websocket_response])
   /\ (net_send_all sock websocket_response <= 0
       \/ SC_WEBRTC_MAX_CLIENTS <= client_count (srv w)))
  \/ (b = true
      /\ 0 < net_send_all sock websocket_response
      /\ 0 <= client_count (srv w) < SC_WEBRTC_MAX_CLIENTS
      /\ (Z.to_nat (client_count (srv w)) < length (clients (srv w)))%nat
      /\ w' = mk_world (srv (registered sock w))
                (log w ++ NetSendAll sock websocket_response
                   :: if on_client_connected (srv w)
                      then [OnClientConnected (client_count (srv w))]
                      else [])).
Proof.
  unfold sc_webrtc_server_handle_websocket.
  unfold bind at 1. unfold send_all, bind at 1, emit, ret.
  destruct (Z.leb_spec (net_send_all sock websocket_response) 0) as [Hs|Hs].
  - intros [= <- <-]. left. auto.
  - unfold bind at 1.
    set (w1 := mk_world (srv w)
                 (log w ++ [NetSendAll sock websocket_response])).
    destruct (sc_webrtc_server_add_client mutex_recursive sock w1)
      as [cid w2| |] eqn:Eadd; try discriminate.
    apply add_client_cases in Eadd
      as [(-> & Hfull & ->)|(-> & Hcc & Hlt & ->)].
    + cbn. intros [= <- <-]. left. auto.
    + destruct (Z.ltb_spec (client_count (srv w1)) 0) as [Hneg|_];
        [cbn in *; lia|].
      unfold bind, get_server, when, emit, ret.
      destruct w as [[ss p st mu cl cc cb1 cb2] lg]. cbn in *.
      destruct cb1; intros [= <- <-]; right;
        (split; [reflexivity|]); (split; [lia|]); (split; [lia|]);
        (split; [lia|]); rewrite <- ?app_assoc; reflexivity.
Qed.

End NegotiatorFacts.

(** ** The upgrade negotiator: results *)

(** C10.  With the registry at capacity (and the lock free, the send
    going through), [sc_webrtc_server_handle_websocket] first sends the
    whole [101 Switching Protocols] response and only then finds the
    table full: it returns [false], the server state is unchanged (no
    client registered) and the send is the only event (no connected
    callback). *)
Theorem upgrade_when_registry_full (mutex_recursive : bool)
    (net_send_all : sc_socket -> list byte -> Z) (sock : sc_socket)
    (w : world) :
  mutex (srv w) = 0%nat ->
  SC_WEBRTC_MAX_CLIENTS <= client_count (srv w) ->
  0 < net_send_all sock websocket_response ->
  sc_webrtc_server_handle_websocket mutex_recursive net_send_all sock w
  = Done false
      (mk_world (srv w) (log w ++ [NetSendAll sock websocket_response]))
  /\ starts_with (bytes_of_string "HTTP/1.1 101 Switching Protocols")
       websocket_response = true.
Proof.
  intros Hmu Hfull Hsent. split; [|reflexivity].
  unfold sc_webrtc_server_handle_websocket.
  unfold bind at 1. unfold send_all, bind at 1, emit, ret.
  destruct (Z.leb_spec (net_send_all sock websocket_response) 0); [lia|].
  unfold bind at 1.
  rewrite add_client_full by assumption.
  reflexivity.
Qed.

Lemma upgrade_when_registry_full_witness :
  sc_webrtc_server_handle_websocket false always_sends 7 full_world
  = Done false
      (mk_world (srv full_world) [NetSendAll 7 websocket_response])
  /\ starts_with (bytes_of_string "HTTP/1.1 101 Switching Protocols")
       websocket_response = true.
Proof.
  exact (upgrade_when_registry_full false always_sends 7 full_world
           eq_refl ltac:(vm_compute; discriminate) eq_refl).
Defined.

(** A plain request served with success: the negotiator returns [true]
    having only sent the page, and the accept loop, seeing [true],
    leaves the socket alone.  Nobody closes socket 7.  And when the send
    of the page fails, the negotiator returns [false] without closing
    the socket either: the accept loop does it. *)
Lemma page_served_socket_left_open :
  strstr (c_string (take (Z.to_nat (4096 - 1)) plain_request))
    (bytes_of_string "Upgrade: websocket") = false
  /\ sc_webrtc_server_handle_http false (fun _ => Some plain_request)
       always_sends sample_page 7 fresh_world
     = Done true
         (mk_world (srv fresh_world)
            [NetSendAll 7 (http_response 13 sample_page)])
  /\ run_webrtc_server_accepted false (-1) (fun _ => Some plain_request)
       always_sends sample_page 7 fresh_world
     = Done tt
         (mk_world (srv fresh_world)
            [NetSendAll 7 (http_response 13 sample_page)])
  /\ existsb is_net_close [NetSendAll 7 (http_response 13 sample_page)]
     = false
  /\ sc_webrtc_server_handle_http false (fun _ => Some plain_request)
       never_sends sample_page 7 fresh_world
     = Done false
         (mk_world (srv fresh_world)
            [NetSendAll 7 (http_response 13 sample_page)])
  /\ run_webrtc_server_accepted false (-1) (fun _ => Some plain_request)
       never_sends sample_page 7 fresh_world
     = Done tt
         (mk_world (srv fresh_world)
            [NetSendAll 7 (http_response 13 sample_page); NetClose 7]).
Proof. repeat split; vm_compute; reflexivity. Qed.

(** C5, as the code has it.  Take a connection on which the negotiator
    reports failure, or one whose request is an upgrade.  The
    negotiator itself closes no socket.  If it reported failure (failed
    read, failed send of the page or of the handshake, registry full)
    the accept loop closes the client socket right after.  If it
    reported success on an upgrade, the accept loop leaves the socket
    alone: it stays open, stored as the transport of the client just
    registered. *)
Theorem accepted_socket_fate (mutex_recursive : bool)
    (SC_SOCKET_NONE : sc_socket)
    (net_recv : sc_socket -> option (list byte))
    (net_send_all : sc_socket -> list byte -> Z)
    (HTML_CLIENT : list byte) (sock : sc_socket) (w w' : world) (b : bool) :
  sock <> SC_SOCKET_NONE ->
  sc_webrtc_server_handle_http mutex_recursive net_recv net_send_all
    HTML_CLIENT sock w = Done b w' ->
  (b = false
   \/ exists available,
        net_recv sock = Some available
        /\ strstr (c_string (take (Z.to_nat (4096 - 1)) available))
             (bytes_of_string "Upgrade: websocket") = true) ->
  (exists evs, log w' = log w ++ evs /\ existsb is_net_close evs = false)
  /\ (b = false ->
      run_webrtc_server_accepted mutex_recursive SC_SOCKET_NONE net_recv
        net_send_all HTML_CLIENT sock w
      = Done tt (mk_world (srv w') (log w' ++ [NetClose sock])))
  /\ (b = true ->
      run_webrtc_server_accepted mutex_recursive SC_SOCKET_NONE net_recv
        net_send_all HTML_CLIENT sock w = Done tt w'
      /\ client_count (srv w') = client_count (srv w) + 1
      /\ clients (srv w') !! Z.to_nat (client_count (srv w))
         = Some (mk_client (client_count (srv w)) None None true sock)).
Proof.
  intros Hsock Hrun Hcase.
  assert (Hloop :
    run_webrtc_server_accepted mutex_recursive SC_SOCKET_NONE net_recv
      net_send_all HTML_CLIENT sock w
    = if b then Done tt w'
      else Done tt (mk_world (srv w') (log w' ++ [NetClose sock]))).
  { unfold run_webrtc_server_accepted.
    destruct (Z.eqb_spec sock SC_SOCKET_NONE); [contradiction|].
    unfold bind. rewrite Hrun. destruct b; reflexivity. }
  revert Hrun. unfold sc_webrtc_server_handle_http.
  destruct (net_recv sock) as [available|] eqn:Erecv.
  2:{ intros [= <- <-]. split; [exists []; rewrite app_nil_r; auto|].
      split; [intros _; exact Hloop|discriminate]. }
  destruct (Z.of_nat (length (take (Z.to_nat (4096 - 1)) available)) <=? 0).
  { intros [= <- <-]. split; [exists []; rewrite app_nil_r; auto|].
    split; [intros _; exact Hloop|discriminate]. }
  destruct (strstr (c_string (take (Z.to_nat (4096 - 1)) available))
              (bytes_of_string "Upgrade: websocket")) eqn:Eup.
  - intros Hws.
    apply handle_websocket_cases in Hws
      as [(-> & -> & _)|(-> & Hsent & Hcc & Hlt & ->)].
    + split; [eexists; split; [reflexivity|reflexivity]|].
      split; [intros _; exact Hloop|discriminate].
    + split.
      { eexists. split; [reflexivity|].
        destruct (on_client_connected (srv w)); reflexivity. }
      split; [discriminate|]. intros _.
      split; [exact Hloop|].
      destruct w as [[ss p st mu cl cc cb1 cb2] lg]. cbn in *.
      split; [reflexivity|]. apply list_lookup_insert_eq. exact Hlt.
  - unfold bind, send_all, bind, emit, ret. intros [= <- <-].
    split; [eexists; split; [reflexivity|reflexivity]|].
    destruct (Z.ltb_spec 0 (net_send_all sock
                (http_response (length HTML_CLIENT) HTML_CLIENT))).
    + destruct Hcase as [Hf|(av & Hav & Hup)]; [discriminate|].
      injection Hav as <-. congruence.
    + split; [intros _; exact Hloop|discriminate].
Qed.

Lemma accepted_socket_fate_witness :
  exists w' : world,
    sc_webrtc_server_handle_http false
      (fun _ => Some (upgrade_request "dGhlIHNhbXBsZSBub25jZQ=="))
      always_sends sample_page 7 fresh_world = Done true w'
    /\ run_webrtc_server_accepted false (-1)
         (fun _ => Some (upgrade_request "dGhlIHNhbXBsZSBub25jZQ=="))
         always_sends sample_page 7 fresh_world = Done tt w'
    /\ clients (srv w') !! 0%nat = Some (mk_client 0 None None true 7)
    /\ existsb is_net_close (log w') = false.
Proof.
  eexists. split; [vm_compute; reflexivity|].
  destruct (accepted_socket_fate false (-1)
              (fun _ => Some (upgrade_request "dGhlIHNhbXBsZSBub25jZQ=="))
              always_sends sample_page 7 fresh_world _ true
              ltac:(discriminate) ltac:(vm_compute; reflexivity)
              ltac:(right; eexists; split; [reflexivity|vm_compute; reflexivity]))
    as (_ & _ & Hup).
  destruct (Hup eq_refl) as (Hloop & _ & Hslot).
  split; [exact Hloop|]. split; [exact Hslot|reflexivity].
Defined.

(** A connection whose read fails: the negotiator returns [false]
    without any event and the accept loop closes the socket. *)
Example failed_read_socket_closed :
  run_webrtc_server_accepted false (-1) (fun _ => None) always_sends
    sample_page 7 fresh_world
  = Done tt (mk_world (srv fresh_world) [NetClose 7]).
Proof. reflexivity. Qed.

(** Whatever the upgrade request says, the first thing sent back is the
    literal [websocket_response]. *)
Lemma upgrade_response_independent_of_request (mutex_recursive : bool)
    (net_recv : sc_socket -> option (list byte))
    (net_send_all : sc_socket -> list byte -> Z)
    (HTML_CLIENT : list byte) (sock : sc_socket) (w w' : world) (b : bool)
    (available : list byte) :
  net_recv sock = Some available ->
  strstr (c_string (take (Z.to_nat (4096 - 1)) available))
    (bytes_of_string "Upgrade: websocket") = true ->
  sc_webrtc_server_handle_http mutex_recursive net_recv net_send_all
    HTML_CLIENT sock w = Done b w' ->
  exists evs, log w' = log w ++ NetSendAll sock websocket_response :: evs.
Proof.
  intros Hrecv Hup. unfold sc_webrtc_server_handle_http. rewrite Hrecv.
  destruct (Z.leb_spec
              (Z.of_nat (length (take (Z.to_nat (4096 - 1)) available))) 0)
    as [Hempty|_].
  - destruct (take (Z.to_nat (4096 - 1)) available); [discriminate|].
    cbn [length] in Hempty. lia.
  - rewrite Hup. intros Hws.
    apply handle_websocket_cases in Hws
      as [(-> & -> & _)|(-> & _ & _ & _ & ->)]; eexists; reflexivity.
Qed.

(** C1.  An upgrade request whose key header is
    [x3JJHMbDL1EzLkh9GBhXDw==] is answered with the handshake response
    that carries the token [s3pPLMBiTxaQ9kYGzzhZRbK+xOo=].  The token
    the handshake algorithm yields for this key is
    [HSmrc0sMlYUkAGmm5OPpG2HaGWk=], which occurs nowhere in the response;
    the token sent is the one of the key [dGhlIHNhbXBsZSBub25jZQ==], and
    it is part of the literal [websocket_response]. *)
Theorem handshake_accept_token_is_fixed :
  exists w' : world,
    sc_webrtc_server_handle_http false
      (fun _ => Some (upgrade_request "x3JJHMbDL1EzLkh9GBhXDw=="))
      always_sends sample_page 7 fresh_world = Done true w'
    /\ log w'
       = [NetSendAll 7
            (handshake_response
               (bytes_of_string "s3pPLMBiTxaQ9kYGzzhZRbK+xOo="));
          OnClientConnected 0]
    /\ Handshake.websocket_accept
         (bytes_of_string "x3JJHMbDL1EzLkh9GBhXDw==")
       = bytes_of_string "HSmrc0sMlYUkAGmm5OPpG2HaGWk="
    /\ strstr
         (handshake_response
            (bytes_of_string "s3pPLMBiTxaQ9kYGzzhZRbK+xOo="))
         (bytes_of_string "HSmrc0sMlYUkAGmm5OPpG2HaGWk=") = false
    /\ Handshake.websocket_accept
         (bytes_of_string "dGhlIHNhbXBsZSBub25jZQ==")
       = bytes_of_string "s3pPLMBiTxaQ9kYGzzhZRbK+xOo="
    /\ websocket_response
       = handshake_response
           (bytes_of_string "s3pPLMBiTxaQ9kYGzzhZRbK+xOo=").
Proof.
  eexists. split; [vm_compute; reflexivity|].
  repeat split; vm_compute; reflexivity.
Qed.

(** ** Stopping the server: results *)

(** With a lock that does not nest: on a server with three clients
    issued, those of slots 0 and 2 alive, [sc_webrtc_server_stop] sets
    the stop flag, takes the lock and blocks in
    [sc_webrtc_server_remove_client] on the lock it holds, nothing
    closed and no callback called. *)
Example stop_busy_world_plain_lock :
  exists w' : world,
    sc_webrtc_server_stop false (-1) busy_world = Deadlock w'
    /\ stopped (srv w') = true
    /\ mutex (srv w') = 1%nat
    /\ map connected (take 3 (clients (srv w'))) = [true; false; true]
    /\ server_socket (srv w') = 3
    /\ log w' = [].
Proof.
  eexists. split; [vm_compute; reflexivity|].
  repeat split.
Qed.

(** The same call under a recursive lock returns, the three steps done
    in order. *)
Example stop_busy_world_recursive_lock :
  exists w' : world,
    sc_webrtc_server_stop true (-1) busy_world = Done tt w'
    /\ stopped (srv w') = true
    /\ map connected (take 3 (clients (srv w'))) = [false; false; false]
    /\ server_socket (srv w') = -1
    /\ log w' = [NetClose 7; RtcDeletePeerConnection 5;
                 OnClientDisconnected 0; NetClose 9;
                 OnClientDisconnected 2; NetClose 3].
Proof.
  eexists. split; [vm_compute; reflexivity|].
  repeat split.
Qed.

(** * Further properties of the code *)

(** ** The frame codec: memory safety and edge cases *)

Lemma load_in_range (buf : list byte) (i : Z) :
  0 <= i < Z.of_nat (length buf) -> exists d, load buf i = Ok d.
Proof.
  intros Hi. unfold load. destruct (Z.ltb_spec i 0); [lia|].
  destruct (lookup_lt_is_Some_2 buf (Z.to_nat i) ltac:(lia)) as [b Hb].
  rewrite Hb. eauto.
Qed.

Lemma read_length64_in_range (data : list byte) (n : nat) :
  forall (i acc : Z),
    0 <= i -> 2 + i + Z.of_nat n <= Z.of_nat (length data) ->
    exists pl, read_length64 data i n acc = Ok pl.
Proof.
  induction n as [|n IH]; intros i acc Hi Hlen; cbn [read_length64].
  - eauto.
  - destruct (load_in_range data (2 + i) ltac:(lia)) as [d Hd].
    rewrite Hd. cbn [cbind]. apply IH; lia.
Qed.

Lemma parse_header_defined (data : list byte) :
  parse_header data <> Undefined.
Proof.
  unfold parse_header.
  destruct (Z.ltb_spec (Z.of_nat (length data)) 2) as [|H2]; [discriminate|].
  destruct (load_in_range data 0 ltac:(lia)) as [d0 ->].
  destruct (load_in_range data 1 ltac:(lia)) as [d1 ->]. cbn [cbind].
  destruct (Z.land d1 127 =? 126).
  - destruct (Z.ltb_spec (Z.of_nat (length data)) 4) as [|H4];
      [discriminate|].
    destruct (load_in_range data 2 ltac:(lia)) as [d2 ->].
    destruct (load_in_range data 3 ltac:(lia)) as [d3 ->]. cbn [cbind].
    discriminate.
  - destruct (Z.land d1 127 =? 127).
    + destruct (Z.ltb_spec (Z.of_nat (length data)) 10) as [|H10];
        [discriminate|].
      destruct (read_length64_in_range data 8 0 0 ltac:(lia) ltac:(lia))
        as [pl ->].
      cbn [cbind]. discriminate.
    + cbn [cbind]. discriminate.
Qed.

(** The header is read inside the buffer, whatever the buffer: the
    length checks of [parse_websocket_frame] come before every read of
    the base header and of the extended length.  In particular the
    empty buffer and the one-byte buffer are refused. *)
Theorem parse_header_in_bounds (data : list byte) :
  parse_header data <> Undefined
  /\ ((length data < 2)%nat -> parse_header data = Fail).
Proof.
  split; [apply parse_header_defined|].
  intros Hshort. unfold parse_header.
  destruct (Z.ltb_spec (Z.of_nat (length data)) 2); [reflexivity|lia].
Qed.

Lemma parse_header_in_bounds_witness :
  parse_header [] = Fail /\ parse_header [x81] = Fail.
Proof.
  split.
  - apply (proj2 (parse_header_in_bounds [])). cbn. lia.
  - apply (proj2 (parse_header_in_bounds [x81])). cbn. lia.
Defined.

Section CodecSafety.

Variable malloc_succeeds : Z -> bool.

(** A frame that the buffer holds entirely, the sum of its header and
    payload lengths not wrapping around. *)
Lemma parse_websocket_frame_complete_nowrap (data : list byte)
    (masked : bool) (payload_length header_len : Z) :
  parse_header data = Ok (masked, payload_length, header_len) ->
  header_len + payload_length < 2 ^ 64 ->
  header_len + payload_length <= Z.of_nat (length data) ->
  parse_websocket_frame malloc_succeeds data
  = if malloc_succeeds (payload_length + 1)
    then Ok ((if masked
              then unmask (mask_key data header_len) 0
                     (raw_payload data header_len payload_length)
              else raw_payload data header_len payload_length) ++ [x00],
             payload_length)
    else Fail.
Proof.
  intros Hhdr Hnowrap Hcomplete.
  destruct (parse_header_bounds _ _ _ _ Hhdr) as (Hpl & Hh & _).
  destruct (Z.lt_ge_cases (Z.of_nat (length data)) (2 ^ 64)) as [Hlen|Hlen].
  - destruct (malloc_succeeds (payload_length + 1)) eqn:Hm.
    + apply parse_websocket_frame_complete; assumption.
    + unfold parse_websocket_frame. rewrite Hhdr. cbn [cbind].
      unfold wrap64. rewrite !Z.mod_small by lia.
      destruct (Z.ltb_spec (Z.of_nat (length data))
                  (header_len + payload_length)); [reflexivity|].
      unfold malloc. rewrite Hm. reflexivity.
  - (* a buffer of 2^64 bytes or more: the same steps, the bounds coming
       from the absence of wrap-around *)
    assert (Hh2 : 2 <= header_len <= 14) by lia.
    unfold parse_websocket_frame. rewrite Hhdr. cbn [cbind].
    unfold wrap64. rewrite !Z.mod_small by lia.
    destruct (Z.ltb_spec (Z.of_nat (length data))
                (header_len + payload_length)); [lia|].
    unfold malloc.
    destruct (malloc_succeeds (payload_length + 1)) eqn:Hm; [|reflexivity].
    cbn [cbind].
    pose proof (raw_payload_length data header_len payload_length
                  ltac:(lia) ltac:(lia) Hcomplete) as Hraw.
    assert (Hcopy :
      memcpy (replicate (Z.to_nat (payload_length + 1)) x00) 0 data
        header_len payload_length
      = Ok (raw_payload data header_len payload_length ++ [x00])).
    { unfold memcpy. rewrite length_replicate.
      destruct (Z.leb_spec 0 header_len); [|lia].
      destruct (Z.leb_spec 0 payload_length); [|lia].
      destruct (Z.leb_spec (0 + payload_length)
                  (Z.of_nat (Z.to_nat (payload_length + 1)))); [|lia].
      destruct (Z.leb_spec (header_len + payload_length)
                  (Z.of_nat (length data))); [|lia].
      cbn [andb Z.leb Z.compare Z.to_nat take app]. f_equal.
      rewrite drop_replicate.
      replace (Z.to_nat (payload_length + 1)
               - Z.to_nat (0 + payload_length))%nat with 1%nat by lia.
      reflexivity. }
    rewrite Hcopy. cbn [cbind].
    assert (Hstore :
      store (raw_payload data header_len payload_length ++ [x00])
        payload_length 0
      = Ok (raw_payload data header_len payload_length ++ [x00])).
    { unfold store. rewrite length_app, Hraw. cbn [length].
      destruct (Z.leb_spec 0 payload_length); [|lia].
      destruct (Z.ltb_spec payload_length
                  (Z.of_nat (Z.to_nat payload_length + 1))); [|lia].
      cbn [andb]. f_equal.
      replace (Z.to_nat payload_length)
        with (length (raw_payload data header_len payload_length) + 0)%nat
        at 1 by lia.
      rewrite insert_app_r. reflexivity. }
    rewrite Hstore. cbn [cbind].
    destruct masked; [|reflexivity].
    destruct (parse_header_bounds _ _ _ _ Hhdr) as (_ & _ & Hmask & _).
    specialize (Hmask eq_refl).
    assert (Hkey :
      memcpy (replicate 4 x00) 0 data (header_len - 4) 4
      = Ok (mask_key data header_len)).
    { unfold memcpy. rewrite length_replicate.
      destruct (Z.leb_spec 0 (header_len - 4)); [|lia].
      destruct (Z.leb_spec (header_len - 4 + 4) (Z.of_nat (length data)));
        [|lia].
      cbn. rewrite app_nil_r. reflexivity. }
    rewrite Hkey. cbn [cbind]. f_equal. f_equal.
    rewrite <- Hraw.
    rewrite take_app_length, drop_app_length. reflexivity.
Qed.

(** The parser leaves its buffers only through the wrap-around of the
    sum of header and payload lengths: whenever it runs out of bounds,
    the header it read declares a payload with which that sum reaches
    [2 ^ 64]. *)
Theorem parse_websocket_frame_undefined_only_by_wrap (data : list byte) :
  parse_websocket_frame malloc_succeeds data = Undefined ->
  exists (masked : bool) (payload_length header_len : Z),
    parse_header data = Ok (masked, payload_length, header_len)
    /\ 2 ^ 64 <= header_len + payload_length.
Proof.
  intros Hub.
  destruct (parse_header data) as [[[masked pl] h]| |] eqn:Hhdr.
  - exists masked, pl, h. split; [reflexivity|].
    destruct (Z.lt_ge_cases (h + pl) (2 ^ 64)) as [Hnowrap|]; [|assumption].
    exfalso.
    destruct (Z.lt_ge_cases (Z.of_nat (length data)) (h + pl)) as [Hs|Hc].
    + rewrite (parse_websocket_frame_short malloc_succeeds data masked pl h)
        in Hub by assumption. discriminate.
    + rewrite (parse_websocket_frame_complete_nowrap data masked pl h)
        in Hub by (assumption || lia).
      destruct (malloc_succeeds (pl + 1)); discriminate.
  - unfold parse_websocket_frame in Hub. rewrite Hhdr in Hub. discriminate.
  - exfalso. exact (parse_header_defined data Hhdr).
Qed.

(** When the sum of the header length and of the declared payload
    length does not wrap around (it is below [2 ^ 64]), the parser
    stays inside its buffers, and its result is this: [false] when the
    buffer is shorter than that sum or when the allocation of the
    payload fails; otherwise [true], with the declared length and a
    block of that length plus one: the bytes of the frame after its
    header (unmasked with the key when the mask bit is set), followed
    by a NUL. *)
Theorem parse_websocket_frame_without_wrap (data : list byte)
    (masked : bool) (payload_length header_len : Z) :
  parse_header data = Ok (masked, payload_length, header_len) ->
  header_len + payload_length < 2 ^ 64 ->
  parse_websocket_frame malloc_succeeds data
  = (if (Z.of_nat (length data) <? header_len + payload_length)
        || negb (malloc_succeeds (payload_length + 1))
     then Fail
     else Ok ((if masked
               then unmask (mask_key data header_len) 0
                      (raw_payload data header_len payload_length)
               else raw_payload data header_len payload_length) ++ [x00],
              payload_length))
  /\ (header_len + payload_length <= Z.of_nat (length data) ->
      Z.of_nat
        (length ((if masked
                  then unmask (mask_key data header_len) 0
                         (raw_payload data header_len payload_length)
                  else raw_payload data header_len payload_length)
                 ++ [x00]))
      = payload_length + 1).
Proof.
  intros Hhdr Hnowrap.
  destruct (parse_header_bounds _ _ _ _ Hhdr) as (Hpl & Hh & _).
  split.
  - destruct (Z.ltb_spec (Z.of_nat (length data))
                (header_len + payload_length)) as [Hs|Hc]; cbn [orb].
    + eapply parse_websocket_frame_short; eassumption.
    + rewrite (parse_websocket_frame_complete_nowrap data masked
                 payload_length header_len) by assumption.
      destruct (malloc_succeeds (payload_length + 1)); reflexivity.
  - intros Hc.
    pose proof (raw_payload_length data header_len payload_length
                  ltac:(lia) ltac:(lia) Hc) as Hr.
    rewrite length_app. cbn [length].
    destruct masked; rewrite ?unmask_length, Hr; lia.
Qed.

End CodecSafety.

(** A buffer shorter than the header plus the declared payload.  The
    parser returns [false] whenever that sum does not wrap around, and
    whenever the allocation fails.  Its only other outcome is the copy
    outside the buffers (undefined behaviour: what the function does or
    returns after it is not determined), which takes both a sum that
    wraps around and an allocation that succeeds. *)
Theorem parse_websocket_frame_short_buffer
    (malloc_succeeds : Z -> bool) (data : list byte) (masked : bool)
    (payload_length header_len : Z) :
  parse_header data = Ok (masked, payload_length, header_len) ->
  Z.of_nat (length data) < header_len + payload_length ->
  (header_len + payload_length < 2 ^ 64 ->
   parse_websocket_frame malloc_succeeds data = Fail)
  /\ (malloc_succeeds (wrap64 (payload_length + 1)) = false ->
      parse_websocket_frame malloc_succeeds data = Fail)
  /\ (parse_websocket_frame malloc_succeeds data = Fail
      \/ (2 ^ 64 <= header_len + payload_length
          /\ malloc_succeeds (wrap64 (payload_length + 1)) = true
          /\ parse_websocket_frame malloc_succeeds data = Undefined)).
Proof.
  intros Hhdr Hshort.
  pose proof (parse_websocket_frame_short_outcomes malloc_succeeds data
                masked payload_length header_len Hhdr Hshort) as Hout.
  split; [|split; [|exact Hout]].
  - intros Hnowrap. eapply parse_websocket_frame_short; eassumption.
  - intros Hm. destruct Hout as [Hf|(_ & Hm' & _)]; [exact Hf|congruence].
Qed.

Lemma parse_websocket_frame_short_buffer_witness :
  parse_header [x81; x05; x41; x42] = Ok (false, 5, 2)
  /\ parse_websocket_frame (fun _ => true) [x81; x05; x41; x42] = Fail.
Proof.
  split; [reflexivity|].
  exact (proj1 (parse_websocket_frame_short_buffer (fun _ => true)
                  [x81; x05; x41; x42] false 5 2 eq_refl eq_refl)
           eq_refl).
Defined.

Lemma parse_websocket_frame_undefined_only_by_wrap_witness :
  exists (masked : bool) (payload_length header_len : Z),
    parse_header oversized_frame = Ok (masked, payload_length, header_len)
    /\ 2 ^ 64 <= header_len + payload_length.
Proof.
  exact (parse_websocket_frame_undefined_only_by_wrap (fun _ => true)
           oversized_frame eq_refl).
Defined.

Lemma parse_websocket_frame_without_wrap_witness :
  parse_websocket_frame (fun _ => true) masked_AB_frame
  = Ok (unmask (mask_key masked_AB_frame 6) 0
          (raw_payload masked_AB_frame 6 2) ++ [x00], 2).
Proof.
  exact (proj1 (parse_websocket_frame_without_wrap (fun _ => true)
                  masked_AB_frame true 2 6 eq_refl eq_refl)).
Defined.

(** ** Masking *)

Lemma lxor_byte_range (a b : Z) :
  0 <= a < 256 -> 0 <= b < 256 -> 0 <= Z.lxor a b < 256.
Proof.
  intros Ha Hb. split; [apply Z.lxor_nonneg; lia|].
  destruct (Z.eq_dec (Z.lxor a b) 0) as [->|Hne]; [lia|].
  assert (Hpos : 0 < Z.lxor a b)
    by (pose proof (proj2 (Z.lxor_nonneg a b) ltac:(lia)); lia).
  change 256 with (2 ^ 8). apply Z.log2_lt_pow2; [exact Hpos|].
  eapply Z.le_lt_trans; [apply Z.log2_lxor; lia|].
  apply Z.max_lub_lt.
  - destruct (Z.eq_dec a 0) as [->|]; [reflexivity|].
    apply Z.log2_lt_pow2; lia.
  - destruct (Z.eq_dec b 0) as [->|]; [reflexivity|].
    apply Z.log2_lt_pow2; lia.
Qed.

Lemma byte_xor_involutive (b k : byte) : byte_xor (byte_xor b k) k = b.
Proof.
  unfold byte_xor.
  rewrite byte_to_of_Z_small
    by (apply lxor_byte_range; apply byte_to_Z_range).
  rewrite Z.lxor_assoc, Z.lxor_nilpotent, Z.lxor_0_r.
  apply byte_of_to_Z.
Qed.

Lemma unmask_twice (mask : list byte) (bytes : list byte) (i : nat) :
  unmask mask i (unmask mask i bytes) = bytes.
Proof.
  revert i. induction bytes as [|b rest IH]; intros i; cbn [unmask].
  - reflexivity.
  - rewrite byte_xor_involutive, IH. reflexivity.
Qed.

(** The unmasking loop undoes itself: run twice with the same key and
    the same starting index, it gives back the bytes it was given, and
    it keeps their number.  So the loop that unmasks a payload is also
    the one that masks it. *)
Theorem unmask_involutive (mask : list byte) (bytes : list byte) (i : nat) :
  unmask mask i (unmask mask i bytes) = bytes
  /\ length (unmask mask i bytes) = length bytes.
Proof.
  split; [|apply unmask_length].
  revert i. induction bytes as [|b rest IH]; intros i; cbn [unmask].
  - reflexivity.
  - f_equal; [apply byte_xor_involutive|apply IH].
Qed.

(** Round trip through a masked frame: when the payload bytes of a
    complete masked frame are the bytes [p] masked with the frame's key,
    the parser returns [p] (and the terminating NUL). *)
Theorem parse_masked_round_trip (malloc_succeeds : Z -> bool)
    (data p : list byte) (payload_length header_len : Z) :
  Z.of_nat (length data) < 2 ^ 64 ->
  parse_header data = Ok (true, payload_length, header_len) ->
  header_len + payload_length <= Z.of_nat (length data) ->
  malloc_succeeds (payload_length + 1) = true ->
  raw_payload data header_len payload_length
  = unmask (mask_key data header_len) 0 p ->
  parse_websocket_frame malloc_succeeds data = Ok (p ++ [x00], payload_length).
Proof.
  intros Hlen Hhdr Hcomplete Hm Hraw.
  rewrite (parse_websocket_frame_complete malloc_succeeds data true
             payload_length header_len) by assumption.
  rewrite Hraw, unmask_twice. reflexivity.
Qed.

Lemma parse_masked_round_trip_witness :
  parse_websocket_frame (fun _ => true)
    ([x81; x82; x01; x02; x03; x04]
     ++ unmask [x01; x02; x03; x04] 0 (bytes_of_string "Hi"))
  = Ok (bytes_of_string "Hi" ++ [x00], 2).
Proof.
  exact (parse_masked_round_trip (fun _ => true)
           ([x81; x82; x01; x02; x03; x04]
            ++ unmask [x01; x02; x03; x04] 0 (bytes_of_string "Hi"))
           (bytes_of_string "Hi") 2 6 eq_refl eq_refl
           ltac:(vm_compute; discriminate) eq_refl eq_refl).
Defined.

(** ** The first byte of a frame *)

Lemma load_tail (b b' : byte) (rest : list byte) (i : Z) :
  1 <= i -> load (b :: rest) i = load (b' :: rest) i.
Proof.
  intros Hi. unfold load. destruct (Z.ltb_spec i 0); [lia|].
  replace (Z.to_nat i) with (S (Z.to_nat (i - 1))) by lia. reflexivity.
Qed.

Lemma memcpy_tail (dst : list byte) (b b' : byte) (rest : list byte)
    (doff soff n : Z) :
  1 <= soff ->
  memcpy dst doff (b :: rest) soff n = memcpy dst doff (b' :: rest) soff n.
Proof.
  intros Hs. unfold memcpy. cbn [length].
  replace (Z.to_nat soff) with (S (Z.to_nat (soff - 1))) by lia.
  reflexivity.
Qed.

Lemma parse_header_tail (b b' : byte) (rest : list byte) :
  parse_header (b :: rest) = parse_header (b' :: rest).
Proof.
  unfold parse_header. cbn [length].
  destruct (Z.ltb_spec (Z.of_nat (S (length rest))) 2) as [|H2];
    [reflexivity|].
  destruct (load_in_range (b :: rest) 0 ltac:(cbn [length]; lia)) as [d0 ->].
  destruct (load_in_range (b' :: rest) 0 ltac:(cbn [length]; lia))
    as [d0' ->].
  cbn [cbind].
  rewrite (load_tail b b' rest 1) by lia.
  destruct (load (b' :: rest) 1) as [d1| |]; cbn [cbind]; reflexivity.
Qed.

(** The parser looks at nothing in the first byte: the opcode and the
    FIN and reserved bits of a frame have no influence on the outcome,
    so frames of every opcode, and fragments, are returned as text. *)
Theorem parse_websocket_frame_ignores_first_byte
    (malloc_succeeds : Z -> bool) (b b' : byte) (rest : list byte) :
  parse_websocket_frame malloc_succeeds (b :: rest)
  = parse_websocket_frame malloc_succeeds (b' :: rest).
Proof.
  unfold parse_websocket_frame.
  rewrite (parse_header_tail b b').
  destruct (parse_header (b' :: rest)) as [[[masked pl] h]| |] eqn:Hhdr;
    cbn [cbind]; try reflexivity.
  destruct (parse_header_bounds _ _ _ _ Hhdr) as (_ & Hh & Hmask & _).
  cbn [length].
  destruct (Z.of_nat (S (length rest)) <? wrap64 (h + pl)); [reflexivity|].
  destruct (malloc malloc_succeeds (wrap64 (pl + 1))) as [blk| |];
    cbn [cbind]; try reflexivity.
  rewrite (memcpy_tail blk b b') by lia.
  destruct (memcpy blk 0 (b' :: rest) h pl) as [blk1| |];
    cbn [cbind]; try reflexivity.
  destruct (store blk1 pl 0) as [blk2| |]; cbn [cbind]; try reflexivity.
  destruct masked; [|reflexivity].
  specialize (Hmask eq_refl).
  rewrite (memcpy_tail _ b b') by lia. reflexivity.
Qed.

(** ** Building a frame: the only failure *)

(** [create_websocket_frame] (payload of less than [2 ^ 64 - 10] bytes)
    returns [false] exactly when the allocation of the frame fails, and
    it writes nowhere outside the frame. *)
Theorem create_websocket_frame_fails_only_on_malloc
    (malloc_succeeds : Z -> bool) (payload : list byte) :
  Z.of_nat (length payload) + 10 < 2 ^ 64 ->
  create_websocket_frame malloc_succeeds payload <> Undefined
  /\ (create_websocket_frame malloc_succeeds payload = Fail
      <-> malloc_succeeds
            (frame_header_len (Z.of_nat (length payload))
             + Z.of_nat (length payload)) = false).
Proof.
  intros Hn.
  destruct (malloc_succeeds
              (frame_header_len (Z.of_nat (length payload))
               + Z.of_nat (length payload))) eqn:Hm.
  - rewrite create_websocket_frame_ok by assumption.
    split; [discriminate|]. split; discriminate.
  - assert (Hf : create_websocket_frame malloc_succeeds payload = Fail).
    { unfold create_websocket_frame.
      assert (Hh : 2 <= frame_header_len (Z.of_nat (length payload)) <= 10).
      { unfold frame_header_len.
        destruct (65535 <? Z.of_nat (length payload)); [lia|].
        destruct (125 <? Z.of_nat (length payload)); lia. }
      unfold wrap64. rewrite Z.mod_small by lia.
      unfold malloc. rewrite Hm. reflexivity. }
    rewrite Hf. split; [discriminate|]. split; reflexivity.
Qed.

Lemma create_websocket_frame_fails_only_on_malloc_witness :
  create_websocket_frame (fun n => n <? 4) (bytes_of_string "AB") = Fail
  <-> (fun n => n <? 4)
        (frame_header_len (Z.of_nat (length (bytes_of_string "AB")))
         + Z.of_nat (length (bytes_of_string "AB"))) = false.
Proof.
  exact (proj2 (create_websocket_frame_fails_only_on_malloc
                  (fun n => n <? 4) (bytes_of_string "AB") eq_refl)).
Defined.

(** ** The client registry: what a call leaves alone *)

(** Whenever [sc_webrtc_server_add_client] returns, on either path, it
    has released the lock it took, logged nothing, left the stop flag
    and the listening socket alone, touched no slot other than the one
    at the count it found, and raised the count by one at most. *)
Theorem add_client_frame (mutex_recursive : bool) (sock : sc_socket) (w w' : world) (client_id : Z) :
  sc_webrtc_server_add_client mutex_recursive sock w = Done client_id w' ->
  mutex (srv w') = mutex (srv w)
  /\ log w' = log w
  /\ stopped (srv w') = stopped (srv w)
  /\ server_socket (srv w') = server_socket (srv w)
  /\ client_count (srv w) <= client_count (srv w')
     <= client_count (srv w) + 1
  /\ (forall j : nat,
        j <> Z.to_nat (client_count (srv w)) ->
        clients (srv w') !! j = clients (srv w) !! j)
  /\ (registry_ok (srv w) -> registry_ok (srv w')).
Proof.
  intros Hrun.
  apply add_client_cases in Hrun as [(-> & Hfull & ->)|(-> & Hcc & Hlt & ->)].
  - split; [reflexivity|]. split; [reflexivity|]. split; [reflexivity|].
    split; [reflexivity|]. split; [lia|]. split; [reflexivity|auto].
  - destruct w as [[ss p st mu cl cc cb1 cb2] lg]. unfold registered.
    unfold registry_ok, SC_WEBRTC_MAX_CLIENTS in *.
    cbn [srv log mutex stopped server_socket client_count clients
         set_client_count set_clients port on_client_connected
         on_client_disconnected] in *.
    split; [reflexivity|]. split; [reflexivity|]. split; [reflexivity|].
    split; [reflexivity|]. split; [lia|]. split.
    + intros j Hj. apply list_lookup_insert_ne. auto.
    + intros [Hlen Hcnt]. rewrite length_insert. split; [exact Hlen|lia].
Qed.

Lemma add_client_frame_witness :
  exists w' : world,
    sc_webrtc_server_add_client false 11 busy_world = Done 3 w'
    /\ log w' = log busy_world
    /\ clients (srv w') !! 0%nat = clients (srv busy_world) !! 0%nat.
Proof.
  eexists. split; [vm_compute; reflexivity|].
  destruct (add_client_frame false 11 busy_world _ 3
              ltac:(vm_compute; reflexivity))
    as (_ & Hlog & _ & _ & _ & Hslots & _).
  split; [exact Hlog|]. apply Hslots. vm_compute. discriminate.
Defined.

(** Insert then look up: the id a successful call returns designates,
    for [sc_webrtc_server_get_client], the client just stored: that id,
    that transport, connected, no peer connection nor data channel; and
    the lookup changes nothing. *)
Theorem get_client_after_add (mutex_recursive : bool) (sock : sc_socket) (w w' : world)
    (client_id : Z) :
  sc_webrtc_server_add_client mutex_recursive sock w = Done client_id w' ->
  0 <= client_id ->
  sc_webrtc_server_get_client client_id w'
  = Done (Some (mk_client client_id None None true sock)) w'.
Proof.
  intros Hrun Hid.
  destruct (add_client_returns_count mutex_recursive sock w w' client_id
              Hrun Hid) as (_ & Hcc & Hslot).
  unfold sc_webrtc_server_get_client, bind, get_server.
  rewrite Hcc.
  destruct (Z.leb_spec 0 client_id); [|lia].
  destruct (Z.ltb_spec client_id (client_id + 1)); [|lia].
  cbn [andb]. rewrite (read_client_ok _ _ _ Hid Hslot). reflexivity.
Qed.

Lemma get_client_after_add_witness :
  exists w' : world,
    sc_webrtc_server_add_client false 11 busy_world = Done 3 w'
    /\ sc_webrtc_server_get_client 3 w'
       = Done (Some (mk_client 3 None None true 11)) w'.
Proof.
  eexists. split; [vm_compute; reflexivity|].
  exact (get_client_after_add false 11 busy_world _ 3
           ltac:(vm_compute; reflexivity) ltac:(discriminate)).
Defined.

(** Ids outside the range of those issued designate nothing, and a
    lookup never changes the state. *)
Lemma get_client_out_of_range (client_id : Z) (w : world)
    (r : option sc_webrtc_client) (w' : world) :
  sc_webrtc_server_get_client client_id w = Done r w' ->
  w' = w
  /\ (~ (0 <= client_id < client_count (srv w)) -> r = None)
  /\ (0 <= client_id < client_count (srv w) ->
      r = clients (srv w) !! Z.to_nat client_id /\ r <> None).
Proof.
  unfold sc_webrtc_server_get_client, bind, get_server, ret.
  destruct (Z.leb_spec 0 client_id), (Z.ltb_spec client_id (client_count (srv w)));
    cbn [andb].
  2-4: intros [= <- <-]; repeat split; auto; lia.
  destruct (read_client client_id w) as [c w1| |] eqn:E; try discriminate.
  apply read_client_Done in E as (-> & _ & Hc).
  intros [= <- <-]. repeat split; [lia|congruence|discriminate].
Qed.

Lemma remove_client_Done_lock (mutex_recursive : bool) (client_id : Z) (w w' : world) :
  sc_webrtc_server_remove_client mutex_recursive client_id w = Done tt w' ->
  mutex (srv w) = 0%nat \/ mutex_recursive = true.
Proof.
  unfold sc_webrtc_server_remove_client. unfold bind at 1.
  unfold sc_mutex_lock.
  destruct (mutex (srv w)); [auto|].
  destruct mutex_recursive; [auto|discriminate].
Qed.

(** Whenever [sc_webrtc_server_remove_client] returns, it has released
    the lock, kept the count (a slot is never given back), the stop flag
    and the listening socket, and left every other slot as it was; in
    the slot designated only the connected flag and the peer connection
    can have changed. *)
Theorem remove_client_frame (mutex_recursive : bool) (client_id : Z) (w w' : world) :
  registry_ok (srv w) ->
  sc_webrtc_server_remove_client mutex_recursive client_id w = Done tt w' ->
  mutex (srv w') = mutex (srv w)
  /\ client_count (srv w') = client_count (srv w)
  /\ stopped (srv w') = stopped (srv w)
  /\ server_socket (srv w') = server_socket (srv w)
  /\ registry_ok (srv w')
  /\ (forall j : nat,
        j <> Z.to_nat client_id ->
        clients (srv w') !! j = clients (srv w) !! j)
  /\ (forall c, clients (srv w) !! Z.to_nat client_id = Some c ->
        exists c', clients (srv w') !! Z.to_nat client_id = Some c'
                   /\ id c' = id c /\ socket c' = socket c
                   /\ data_channel c' = data_channel c).
Proof.
  intros Hok Hrun.
  pose proof (remove_client_Done_lock _ _ _ _ Hrun) as Hlock.
  rewrite remove_client_run in Hrun by assumption.
  injection Hrun as <-.
  destruct (removed_frame client_id w) as (H1 & H2 & H3 & H4 & H5 & _).
  split; [exact H1|]. split; [exact H2|]. split; [exact H4|].
  split; [exact H5|].
  split; [apply removed_registry_ok; exact Hok|].
  split; [intros j Hj; apply removed_other_slot; exact Hj|].
  intros c Hc. unfold removed.
  destruct ((0 <=? client_id) && (client_id <? client_count (srv w)));
    [|eauto].
  rewrite Hc. destruct (connected c); [|eauto].
  exists (disconnected c). split; [|auto].
  destruct w as [[] ?]. cbn in *. apply list_lookup_insert_eq.
  eapply lookup_lt_Some. exact Hc.
Qed.

Lemma remove_client_frame_witness :
  exists w' : world,
    sc_webrtc_server_remove_client false 0 busy_world = Done tt w'
    /\ client_count (srv w') = 3
    /\ clients (srv w') !! 2%nat = Some (mk_client 2 None None true 9).
Proof.
  eexists. split; [vm_compute; reflexivity|].
  destruct (remove_client_frame false 0 busy_world _
              ltac:(split; [reflexivity|split; vm_compute; discriminate])
              ltac:(vm_compute; reflexivity))
    as (_ & Hcc & _ & _ & _ & Hslots & _).
  split; [exact Hcc|]. apply (Hslots 2%nat). vm_compute. discriminate.
Defined.

(** A removed client can still be looked up: the slot stays in range
    and [sc_webrtc_server_get_client] returns it, not connected. *)
Theorem get_client_after_remove (mutex_recursive : bool) (client_id : Z) (w w' : world) :
  registry_ok (srv w) ->
  0 <= client_id < client_count (srv w) ->
  sc_webrtc_server_remove_client mutex_recursive client_id w = Done tt w' ->
  exists c, sc_webrtc_server_get_client client_id w' = Done (Some c) w'
            /\ connected c = false.
Proof.
  intros Hok Hin Hrun.
  pose proof (remove_client_Done_lock _ _ _ _ Hrun) as Hlock.
  rewrite remove_client_run in Hrun by assumption.
  injection Hrun as <-.
  destruct (removed_not_connected client_id w Hok Hin) as (c & Hc & Hconn).
  destruct (removed_frame client_id w) as (_ & Hcc & _).
  exists c. split; [|exact Hconn].
  unfold sc_webrtc_server_get_client, bind, get_server. rewrite Hcc.
  destruct (Z.leb_spec 0 client_id); [|lia].
  destruct (Z.ltb_spec client_id (client_count (srv w))); [|lia].
  cbn [andb]. rewrite (read_client_ok client_id c) by (assumption || lia).
  reflexivity.
Qed.

Lemma get_client_after_remove_witness :
  exists w' c,
    sc_webrtc_server_remove_client false 0 busy_world = Done tt w'
    /\ sc_webrtc_server_get_client 0 w' = Done (Some c) w'
    /\ connected c = false.
Proof.
  destruct (get_client_after_remove false 0 busy_world
              (removed 0 busy_world)
              ltac:(split; [reflexivity|split; vm_compute; discriminate])
              ltac:(split; vm_compute; [discriminate|reflexivity])
              ltac:(vm_compute; reflexivity))
    as (c & Hget & Hconn).
  exists (removed 0 busy_world), c.
  split; [vm_compute; reflexivity|]. split; assumption.
Defined.

(** No slot is ever reused: once the table is full it stays full.
    Whatever clients are removed afterwards, in any order and any
    number of times, the next [sc_webrtc_server_add_client] is still
    refused with -1 and changes nothing. *)
Theorem registry_full_stays_full (mutex_recursive : bool) (ids : list Z) (sock : sc_socket)
    (w : world) :
  mutex (srv w) = 0%nat ->
  registry_ok (srv w) ->
  client_count (srv w) = SC_WEBRTC_MAX_CLIENTS ->
  exists w' : world,
    for_each ids (sc_webrtc_server_remove_client mutex_recursive) w
    = Done tt w'
    /\ sc_webrtc_server_add_client mutex_recursive sock w' = Done (-1) w'.
Proof.
  revert w. induction ids as [|i rest IH]; intros w Hmu Hok Hfull.
  - exists w. split; [reflexivity|]. apply add_client_full; [assumption|lia].
  - cbn [for_each]. unfold bind at 1.
    rewrite remove_client_run by auto.
    destruct (removed_frame i w) as (Hmu' & Hcc' & _).
    destruct (IH (removed i w)) as (w' & Hrun & Hadd).
    + congruence.
    + apply removed_registry_ok. exact Hok.
    + congruence.
    + exists w'. split; assumption.
Qed.

Lemma registry_full_stays_full_witness :
  exists w' : world,
    for_each [0; 1; 2; 3; 4; 5; 6; 7; 8; 9; 3]
      (sc_webrtc_server_remove_client false) full_world = Done tt w'
    /\ sc_webrtc_server_add_client false 200 w' = Done (-1) w'.
Proof.
  exact (registry_full_stays_full false [0; 1; 2; 3; 4; 5; 6; 7; 8; 9; 3] 200
           full_world eq_refl
           ltac:(split; [reflexivity|split; vm_compute; discriminate])
           eq_refl).
Defined.


(** ** Stopping the server: when it returns *)

Lemma removed_set_mutex (i : Z) (m : nat) (w : world) :
  removed i (mk_world (set_mutex m (srv w)) (log w))
  = mk_world (set_mutex m (srv (removed i w))) (log (removed i w)).
Proof.
  destruct w as [[ss p st mu cl cc cb1 cb2] lg]. unfold removed.
  cbn [srv log clients client_count set_mutex server_socket port stopped
       mutex on_client_connected on_client_disconnected].
  destruct ((0 <=? i) && (i <? cc)); [|reflexivity].
  destruct (cl !! Z.to_nat i) as [c|]; [|reflexivity].
  destruct (connected c); reflexivity.
Qed.

Lemma removed_all_set_mutex (ids : list Z) (m : nat) :
  forall w : world,
    removed_all ids (mk_world (set_mutex m (srv w)) (log w))
    = mk_world (set_mutex m (srv (removed_all ids w)))
        (log (removed_all ids w)).
Proof.
  induction ids as [|i rest IH]; intros w; [reflexivity|].
  cbn [removed_all fold_left]. rewrite removed_set_mutex.
  exact (IH (removed i w)).
Qed.

Lemma removed_all_idle (ids : list Z) (w : world) :
  (forall i, i ∈ ids -> ~ alive (srv w) i) -> removed_all ids w = w.
Proof.
  induction ids as [|i rest IH]; intros Hidle; [reflexivity|].
  cbn [removed_all fold_left].
  rewrite removed_not_alive by (apply Hidle; apply list_elem_of_here).
  apply IH. intros j Hj. apply Hidle. apply list_elem_of_further. exact Hj.
Qed.

Lemma stop_loop_idle (mutex_recursive : bool) (ids : list Z) (w : world) :
  registry_ok (srv w) ->
  (forall i, i ∈ ids -> 0 <= i < client_count (srv w)) ->
  (forall i, i ∈ ids -> ~ alive (srv w) i) ->
  for_each ids (stop_loop_body mutex_recursive) w = Done tt w.
Proof.
  intros Hok. induction ids as [|i rest IH]; intros Hin Hidle;
    [reflexivity|].
  cbn [for_each]. unfold bind.
  rewrite stop_loop_body_idle
    by (assumption || (apply Hin || apply Hidle); apply list_elem_of_here).
  apply IH; intros j Hj; [apply Hin|apply Hidle];
    apply list_elem_of_further; exact Hj.
Qed.

(** With a recursive lock, or with no client alive,
    [sc_webrtc_server_stop] returns (lock free on entry, table well
    formed) and leaves the server in the state [stopped_world], the lock
    free again. *)
Lemma stop_run (mutex_recursive : bool) (SC_SOCKET_NONE : sc_socket)
    (w : world) :
  mutex (srv w) = 0%nat ->
  registry_ok (srv w) ->
  mutex_recursive = true \/ all_disconnected (srv w) ->
  sc_webrtc_server_stop mutex_recursive SC_SOCKET_NONE w
  = Done tt (stopped_world SC_SOCKET_NONE w).
Proof.
  destruct w as [[ss p st mu cl cc cb1 cb2] lg]. cbn [srv mutex].
  intros -> Hok Hcase.
  set (w0 := mk_world (mk_server ss p true 0 cl cc cb1 cb2) lg).
  set (w1 := mk_world (mk_server ss p true 1 cl cc cb1 cb2) lg).
  assert (Hrange : forall j, j ∈ seqZ 0 cc -> 0 <= j < client_count (srv w1)).
  { intros j Hj. apply elem_of_seqZ in Hj. cbn. lia. }
  assert (Hloop : for_each (seqZ 0 cc) (stop_loop_body mutex_recursive) w1
                  = Done tt (removed_all (seqZ 0 cc) w1)).
  { destruct Hcase as [->|Hidle].
    - apply stop_loop_recursive; [exact Hok|exact Hrange].
    - assert (Hidle1 : forall i, i ∈ seqZ 0 cc -> ~ alive (srv w1) i).
      { intros i Hi. apply elem_of_seqZ in Hi. apply (Hidle i). cbn. lia. }
      rewrite removed_all_idle by exact Hidle1.
      apply stop_loop_idle; [exact Hok|exact Hrange|exact Hidle1]. }
  assert (Hw1 : removed_all (seqZ 0 cc) w1
                = mk_world (set_mutex 1 (srv (removed_all (seqZ 0 cc) w0)))
                    (log (removed_all (seqZ 0 cc) w0))).
  { exact (removed_all_set_mutex (seqZ 0 cc) 1 w0). }
  destruct (removed_all_frame (seqZ 0 cc) w0) as (Hmu2 & _).
  unfold sc_webrtc_server_stop, stopped_world.
  cbv [bind modify_server sc_mutex_lock get_server srv log mutex
       set_stopped set_mutex server_socket port stopped clients
       client_count on_client_connected on_client_disconnected].
  fold w1. rewrite Hloop, Hw1. fold w0.
  destruct (removed_all (seqZ 0 cc) w0)
    as [[ss2 p2 st2 mu2 cl2 cc2 cb12 cb22] lg2].
  cbn in Hmu2. subst mu2.
  cbv [sc_mutex_unlock modify_server when net_close emit bind ret
       get_server srv log mutex set_mutex set_server_socket server_socket
       port stopped clients client_count on_client_connected
       on_client_disconnected Nat.pred].
  destruct (ss2 =? SC_SOCKET_NONE); reflexivity.
Qed.

(** In [stopped_world] the stop flag is set, the lock and the count are
    as before, no client issued is alive, and the listening socket is
    [SC_SOCKET_NONE]. *)
Lemma stopped_world_state (SC_SOCKET_NONE : sc_socket) (w : world) :
  registry_ok (srv w) ->
  stopped (srv (stopped_world SC_SOCKET_NONE w)) = true
  /\ mutex (srv (stopped_world SC_SOCKET_NONE w)) = mutex (srv w)
  /\ client_count (srv (stopped_world SC_SOCKET_NONE w))
     = client_count (srv w)
  /\ registry_ok (srv (stopped_world SC_SOCKET_NONE w))
  /\ all_disconnected (srv (stopped_world SC_SOCKET_NONE w))
  /\ server_socket (srv (stopped_world SC_SOCKET_NONE w)) = SC_SOCKET_NONE.
Proof.
  intros Hok. unfold stopped_world.
  set (w1 := mk_world (set_stopped true (srv w)) (log w)).
  assert (Hok1 : registry_ok (srv w1)) by (destruct w as [[] ?]; exact Hok).
  assert (Hcc1 : client_count (srv w1) = client_count (srv w))
    by (destruct w as [[] ?]; reflexivity).
  assert (Hmu1 : mutex (srv w1) = mutex (srv w))
    by (destruct w as [[] ?]; reflexivity).
  assert (Hst1 : stopped (srv w1) = true)
    by (destruct w as [[] ?]; reflexivity).
  set (w2 := removed_all (seqZ 0 (client_count (srv w))) w1).
  destruct (removed_all_frame (seqZ 0 (client_count (srv w))) w1)
    as (Hmu2 & Hcc2 & Hlen2 & Hst2 & Hss2 & _).
  fold w2 in Hmu2, Hcc2, Hlen2, Hst2, Hss2.
  assert (Hdead : all_disconnected (srv w2)).
  { intros i Hi [_ (c & Hc & Hconn)].
    destruct (removed_all_not_connected (seqZ 0 (client_count (srv w))) w1 i
                Hok1) as (c' & Hc' & Hconn').
    - apply elem_of_seqZ. lia.
    - lia.
    - fold w2 in Hc'. congruence. }
  assert (Hok2 : registry_ok (srv w2)).
  { destruct Hok1 as [Hl Hc]. split; [|lia]. lia. }
  destruct (Z.eqb_spec (server_socket (srv w2)) SC_SOCKET_NONE) as [He|Hne].
  - split; [congruence|]. split; [congruence|]. split; [congruence|].
    split; [exact Hok2|]. split; [exact Hdead|exact He].
  - destruct w2 as [[ss2 p2 st2 mu2 cl2 cc2 cb12 cb22] lg2].
    unfold all_disconnected, alive, registry_ok in *. cbn in *.
    split; [congruence|]. split; [congruence|]. split; [congruence|].
    split; [exact Hok2|]. split; [exact Hdead|reflexivity].
Qed.

(** [sc_webrtc_server_stop] is idempotent: under a recursive lock, or
    with no client alive, a second call returns as well and changes
    nothing: no socket is closed twice and no callback is called
    again. *)
Theorem stop_twice (mutex_recursive : bool) (SC_SOCKET_NONE : sc_socket)
    (w : world) :
  mutex (srv w) = 0%nat ->
  registry_ok (srv w) ->
  mutex_recursive = true \/ all_disconnected (srv w) ->
  exists w' : world,
    sc_webrtc_server_stop mutex_recursive SC_SOCKET_NONE w = Done tt w'
    /\ sc_webrtc_server_stop mutex_recursive SC_SOCKET_NONE w' = Done tt w'.
Proof.
  intros Hmu Hok Hcase.
  exists (stopped_world SC_SOCKET_NONE w).
  split; [apply stop_run; assumption|].
  destruct (stopped_world_state SC_SOCKET_NONE w Hok)
    as (Hst & Hmu' & Hcc & Hok' & Hdead & Hss).
  rewrite stop_run by (auto; congruence).
  f_equal. unfold stopped_world at 1.
  set (w' := stopped_world SC_SOCKET_NONE w) in *.
  assert (Hsame : mk_world (set_stopped true (srv w')) (log w') = w').
  { destruct w' as [[] ?]. cbn in *. subst. reflexivity. }
  rewrite Hsame.
  rewrite removed_all_idle.
  - rewrite Hss, Z.eqb_refl. reflexivity.
  - intros i Hi. apply elem_of_seqZ in Hi. apply Hdead. lia.
Qed.

Lemma stop_twice_witness :
  exists w' : world,
    sc_webrtc_server_stop true (-1) busy_world = Done tt w'
    /\ sc_webrtc_server_stop true (-1) w' = Done tt w'.
Proof.
  exact (stop_twice true (-1) busy_world eq_refl
           ltac:(split; [reflexivity|split; vm_compute; discriminate])
           (or_introl eq_refl)).
Defined.

(** With no client alive, [sc_webrtc_server_stop] returns whatever the
    kind of lock: it sets the stop flag, calls no callback, leaves the
    table alone, and its only event is the closing of the listening
    socket (none when the socket is already [SC_SOCKET_NONE]). *)
Theorem stop_without_clients (mutex_recursive : bool)
    (SC_SOCKET_NONE : sc_socket) (w : world) :
  mutex (srv w) = 0%nat ->
  registry_ok (srv w) ->
  all_disconnected (srv w) ->
  exists w' : world,
    sc_webrtc_server_stop mutex_recursive SC_SOCKET_NONE w = Done tt w'
    /\ stopped (srv w') = true
    /\ clients (srv w') = clients (srv w)
    /\ client_count (srv w') = client_count (srv w)
    /\ server_socket (srv w') = SC_SOCKET_NONE
    /\ log w'
       = log w
         ++ (if server_socket (srv w) =? SC_SOCKET_NONE then []
             else [NetClose (server_socket (srv w))]).
Proof.
  intros Hmu Hok Hdead.
  exists (stopped_world SC_SOCKET_NONE w).
  split; [apply stop_run; auto|].
  unfold stopped_world.
  rewrite removed_all_idle.
  2:{ intros i Hi. apply elem_of_seqZ in Hi.
      destruct w as [[] ?]. apply (Hdead i). cbn in *. lia. }
  destruct w as [[ss p st mu cl cc cb1 cb2] lg]. cbn.
  destruct (Z.eqb_spec ss SC_SOCKET_NONE) as [->|Hne]; cbn.
  - rewrite app_nil_r. repeat split.
  - repeat split.
Qed.

Lemma stop_without_clients_witness :
  exists w' : world,
    sc_webrtc_server_stop false (-1) fresh_world = Done tt w'
    /\ stopped (srv w') = true
    /\ server_socket (srv w') = -1
    /\ log w' = [NetClose 3].
Proof.
  destruct (stop_without_clients false (-1) fresh_world eq_refl
              ltac:(split; [reflexivity|split; vm_compute; discriminate]))
    as (w' & Hrun & Hst & _ & _ & Hss & Hlog).
  - intros i Hi [_ (c & Hc & _)]. cbn in Hi. lia.
  - exists w'. auto.
Defined.

(** Under a recursive lock [sc_webrtc_server_stop] returns (lock free
    on entry, table well formed, listening socket open): the stop flag
    is set, the lock is free again, no client issued is alive, the
    transport of every client that was alive has been closed and the
    disconnect callback, when set, called for it, and the closing of
    the listening socket is the last event. *)
Theorem stop_recursive_lock_completes (SC_SOCKET_NONE : sc_socket)
    (w : world) :
  mutex (srv w) = 0%nat ->
  registry_ok (srv w) ->
  server_socket (srv w) <> SC_SOCKET_NONE ->
  exists (w' : world) (evs : list event),
    sc_webrtc_server_stop true SC_SOCKET_NONE w = Done tt w'
    /\ stopped (srv w') = true
    /\ mutex (srv w') = 0%nat
    /\ server_socket (srv w') = SC_SOCKET_NONE
    /\ log w' = log w ++ evs ++ [NetClose (server_socket (srv w))]
    /\ (forall i, 0 <= i < client_count (srv w) ->
          exists c, clients (srv w') !! Z.to_nat i = Some c
                    /\ connected c = false)
    /\ (forall i c, 0 <= i < client_count (srv w) ->
          clients (srv w) !! Z.to_nat i = Some c -> connected c = true ->
          NetClose (socket c) ∈ evs
          /\ (on_client_disconnected (srv w) = true ->
              OnClientDisconnected i ∈ evs)).
Proof.
  intros Hmu Hok Hss.
  destruct (stop_completes_recursive SC_SOCKET_NONE w Hmu Hok Hss)
    as (w' & evs & H).
  exists w', evs. exact H.
Qed.

Lemma stop_recursive_lock_completes_witness :
  exists (w' : world) (evs : list event),
    sc_webrtc_server_stop true (-1) busy_world = Done tt w'
    /\ stopped (srv w') = true
    /\ server_socket (srv w') = -1
    /\ log w' = log busy_world ++ evs ++ [NetClose 3]
    /\ NetClose 7 ∈ evs
    /\ OnClientDisconnected 0 ∈ evs.
Proof.
  destruct (stop_recursive_lock_completes (-1) busy_world eq_refl
              ltac:(split; [reflexivity|split; vm_compute; discriminate])
              ltac:(vm_compute; discriminate))
    as (w' & evs & Hrun & Hst & _ & Hss & Hlog & _ & Hev).
  destruct (Hev 0 (mk_client 0 (Some 5) None true 7)
              ltac:(split; vm_compute; [discriminate|reflexivity])
              eq_refl eq_refl) as [Hclose Hcall].
  exists w', evs. repeat split; auto.
Defined.

Lemma stop_deadlocks_witness :
  sc_webrtc_server_stop false (-1) busy_world
  = Deadlock
      (mk_world (set_mutex 1 (set_stopped true (srv busy_world)))
         (log busy_world)).
Proof.
  apply (stop_deadlocks (-1) busy_world eq_refl
           ltac:(split; [reflexivity|split; vm_compute; discriminate])).
  exists 0. split; [split; vm_compute; [discriminate|reflexivity]|].
  split; [vm_compute; discriminate|].
  exists (mk_client 0 (Some 5) None true 7). split; reflexivity.
Defined.

(** ** [sc_webrtc_server_stop], whatever the lock *)







(** ** The upgrade negotiator: safety and events *)

Lemma handle_http_returns (mutex_recursive : bool)
    (net_recv : sc_socket -> option (list byte))
    (net_send_all : sc_socket -> list byte -> Z)
    (HTML_CLIENT : list byte) (sock : sc_socket) (w : world) :
  mutex (srv w) = 0%nat ->
  registry_ok (srv w) ->
  exists (b : bool) (w' : world),
    sc_webrtc_server_handle_http mutex_recursive net_recv net_send_all
      HTML_CLIENT sock w = Done b w'
    /\ mutex (srv w') = 0%nat
    /\ registry_ok (srv w')
    /\ stopped (srv w') = stopped (srv w)
    /\ server_socket (srv w') = server_socket (srv w)
    /\ (b = false -> srv w' = srv w)
    /\ client_count (srv w) <= client_count (srv w')
       <= client_count (srv w) + 1
    /\ (client_count (srv w') = client_count (srv w) + 1 -> b = true).
Proof.
  intros Hmu Hok.
  assert (Hsame : forall (b : bool) (evs : list event),
    mutex (srv (mk_world (srv w) (log w ++ evs))) = 0%nat
    /\ registry_ok (srv (mk_world (srv w) (log w ++ evs)))
    /\ stopped (srv (mk_world (srv w) (log w ++ evs))) = stopped (srv w)
    /\ server_socket (srv (mk_world (srv w) (log w ++ evs)))
       = server_socket (srv w)
    /\ (b = false -> srv (mk_world (srv w) (log w ++ evs)) = srv w)
    /\ client_count (srv w)
       <= client_count (srv (mk_world (srv w) (log w ++ evs)))
       <= client_count (srv w) + 1
    /\ (client_count (srv (mk_world (srv w) (log w ++ evs)))
        = client_count (srv w) + 1 -> b = true)).
  { intros b evs. cbn [srv].
    split; [exact Hmu|]. split; [exact Hok|]. split; [reflexivity|].
    split; [reflexivity|]. split; [reflexivity|]. split; lia. }
  assert (Hw : mk_world (srv w) (log w ++ []) = w)
    by (destruct w; cbn; rewrite app_nil_r; reflexivity).
  unfold sc_webrtc_server_handle_http.
  destruct (net_recv sock) as [available|].
  2:{ exists false, w. split; [reflexivity|].
      rewrite <- Hw at 1 2 3 4 5 7 8. apply Hsame. }
  destruct (Z.of_nat (length (take (Z.to_nat (4096 - 1)) available)) <=? 0).
  { exists false, w. split; [reflexivity|].
    rewrite <- Hw at 1 2 3 4 5 7 8. apply Hsame. }
  destruct (strstr (c_string (take (Z.to_nat (4096 - 1)) available))
              (bytes_of_string "Upgrade: websocket")).
  - unfold sc_webrtc_server_handle_websocket.
    unfold bind at 1. unfold send_all, bind at 1, emit, ret.
    destruct (net_send_all sock websocket_response <=? 0).
    { eexists false, _. split; [reflexivity|]. apply Hsame. }
    unfold bind at 1.
    set (w1 := mk_world (srv w)
                 (log w ++ [NetSendAll sock websocket_response])).
    destruct (Z.le_gt_cases SC_WEBRTC_MAX_CLIENTS (client_count (srv w)))
      as [Hfull|Hroom].
    + rewrite add_client_full by assumption.
      eexists false, _. split; [reflexivity|]. apply Hsame.
    + destruct Hok as [Hlen Hcc].
      rewrite add_client_free by (cbn [srv w1]; assumption || lia).
      destruct (Z.ltb_spec (client_count (srv w1)) 0) as [Hneg|_];
        [cbn in Hneg; lia|].
      unfold bind, get_server, when, emit, ret.
      destruct w as [[ss p st mu cl cc cb1 cb2] lg].
      unfold registry_ok, SC_WEBRTC_MAX_CLIENTS in *. cbn in *.
      destruct cb1; eexists true, _; (split; [reflexivity|]); cbn;
        rewrite length_insert;
        (split; [exact Hmu|]); (split; [split; [exact Hlen|lia]|]);
        (split; [reflexivity|]); (split; [reflexivity|]);
        (split; [discriminate|]); (split; [lia|reflexivity]).
  - unfold bind, send_all, bind, emit, ret.
    eexists _, _. split; [reflexivity|].
    destruct (Hsame false
                [NetSendAll sock
                   (http_response (length HTML_CLIENT) HTML_CLIENT)])
      as (H1 & H2 & H3 & H4 & H5 & H6 & H7).
    cbn [srv] in *.
    split; [exact H1|]. split; [exact H2|]. split; [reflexivity|].
    split; [reflexivity|]. split; [reflexivity|]. split; lia.
Qed.

(** With the lock free and a well-formed table,
    [sc_webrtc_server_handle_http] always returns: it never blocks on
    the lock and never leaves the table.  It returns with the lock free,
    the table well formed, the stop flag and the listening socket
    untouched.  When it returns [false] the server state is what it
    was; it registers one client at most, and only when it returns
    [true]. *)
Theorem handle_http_safe (mutex_recursive : bool)
    (net_recv : sc_socket -> option (list byte))
    (net_send_all : sc_socket -> list byte -> Z)
    (HTML_CLIENT : list byte) (sock : sc_socket) (w : world) :
  mutex (srv w) = 0%nat ->
  registry_ok (srv w) ->
  exists (b : bool) (w' : world),
    sc_webrtc_server_handle_http mutex_recursive net_recv net_send_all
      HTML_CLIENT sock w = Done b w'
    /\ mutex (srv w') = 0%nat
    /\ registry_ok (srv w')
    /\ stopped (srv w') = stopped (srv w)
    /\ server_socket (srv w') = server_socket (srv w)
    /\ (b = false -> srv w' = srv w)
    /\ client_count (srv w) <= client_count (srv w')
       <= client_count (srv w) + 1
    /\ (client_count (srv w') = client_count (srv w) + 1 -> b = true).
Proof.
  intros Hmu Hok.
  destruct (handle_http_returns mutex_recursive net_recv net_send_all
              HTML_CLIENT sock w Hmu Hok) as (b & w' & H).
  exists b, w'. exact H.
Qed.

Lemma handle_http_safe_witness :
  exists (b : bool) (w' : world),
    sc_webrtc_server_handle_http false (fun _ => Some plain_request)
      never_sends sample_page 7 full_world = Done b w'
    /\ mutex (srv w') = 0%nat
    /\ (b = false -> srv w' = srv full_world).
Proof.
  destruct (handle_http_safe false (fun _ => Some plain_request) never_sends
              sample_page 7 full_world eq_refl
              ltac:(split; [reflexivity|split; vm_compute; discriminate]))
    as (b & w' & Hrun & Hmu & _ & _ & _ & Hsame & _).
  exists b, w'. auto.
Defined.

(** What the negotiator does to the outside, on every path: it sends
    data on the socket it was given and may call the connected callback;
    it closes no socket, deletes no peer connection and calls no
    disconnect callback. *)
Theorem handle_http_events (mutex_recursive : bool)
    (net_recv : sc_socket -> option (list byte))
    (net_send_all : sc_socket -> list byte -> Z)
    (HTML_CLIENT : list byte) (sock : sc_socket) (w w' : world) (b : bool) :
  sc_webrtc_server_handle_http mutex_recursive net_recv net_send_all
    HTML_CLIENT sock w = Done b w' ->
  exists evs : list event,
    log w' = log w ++ evs
    /\ (length evs <= 2)%nat
    /\ forall e, e ∈ evs ->
         (exists data, e = NetSendAll sock data)
         \/ e = OnClientConnected (client_count (srv w)).
Proof.
  unfold sc_webrtc_server_handle_http.
  assert (Hnone : forall w0 : world,
    exists evs : list event,
      log w0 = log w0 ++ evs /\ (length evs <= 2)%nat
      /\ forall e, e ∈ evs ->
           (exists data, e = NetSendAll sock data)
           \/ e = OnClientConnected (client_count (srv w))).
  { intros w0. exists []. rewrite app_nil_r. split; [reflexivity|].
    split; [cbn; lia|]. intros e He. inversion He. }
  destruct (net_recv sock) as [available|]; [|intros [= <- <-]; apply Hnone].
  destruct (Z.of_nat (length (take (Z.to_nat (4096 - 1)) available)) <=? 0);
    [intros [= <- <-]; apply Hnone|].
  destruct (strstr (c_string (take (Z.to_nat (4096 - 1)) available))
              (bytes_of_string "Upgrade: websocket")).
  - intros Hws.
    apply handle_websocket_cases in Hws
      as [(-> & -> & _)|(-> & _ & _ & _ & ->)]; cbn [log].
    + eexists. split; [reflexivity|]. split; [cbn; lia|].
      intros e He. apply list_elem_of_singleton in He as ->. left. eauto.
    + eexists. split; [reflexivity|].
      destruct (on_client_connected (srv w)).
      * split; [cbn; lia|]. intros e He.
        apply elem_of_cons in He as [->|He]; [left; eauto|].
        apply list_elem_of_singleton in He as ->. right. reflexivity.
      * split; [cbn; lia|]. intros e He.
        apply list_elem_of_singleton in He as ->. left. eauto.
  - unfold bind, send_all, bind, emit, ret. intros [= <- <-]. cbn [log].
    eexists. split; [reflexivity|]. split; [cbn; lia|].
    intros e He. apply list_elem_of_singleton in He as ->. left. eauto.
Qed.

Lemma handle_http_events_witness :
  exists evs : list event,
    [NetSendAll 7 websocket_response; OnClientConnected 0] = [] ++ evs
    /\ (length evs <= 2)%nat
    /\ forall e, e ∈ evs ->
         (exists data, e = NetSendAll 7 data) \/ e = OnClientConnected 0.
Proof.
  exact (handle_http_events false
           (fun _ => Some (upgrade_request "dGhlIHNhbXBsZSBub25jZQ=="))
           always_sends sample_page 7 fresh_world
           (mk_world (srv (registered 7 fresh_world))
              [NetSendAll 7 websocket_response; OnClientConnected 0])
           true ltac:(vm_compute; reflexivity)).
Defined.

(** ** The accept loop *)



(** ** Detecting the upgrade request *)

Lemma starts_with_app (needle rest : list byte) :
  starts_with needle (needle ++ rest) = true.
Proof.
  induction needle as [|n needle IH]; [reflexivity|].
  cbn [starts_with app]. rewrite IH.
  replace (Byte.eqb n n) with true; [reflexivity|].
  symmetry. apply Byte.byte_dec_lb. reflexivity.
Qed.

Lemma strstr_app (pre needle post : list byte) :
  strstr (pre ++ needle ++ post) needle = true.
Proof.
  induction pre as [|b pre IH].
  - cbn [app]. destruct (needle ++ post) eqn:E; cbn [strstr];
      rewrite <- E, starts_with_app; reflexivity.
  - cbn [app strstr]. rewrite IH. apply orb_true_r.
Qed.

Lemma c_string_app (p r : list byte) :
  Forall (fun b => b <> x00) p -> c_string (p ++ r) = p ++ c_string r.
Proof.
  induction 1 as [|b p Hb Hp IH]; [reflexivity|].
  cbn [app c_string].
  destruct (Byte.eqb b x00) eqn:E.
  - apply Byte.byte_dec_bl in E. contradiction.
  - rewrite IH. reflexivity.
Qed.

Lemma c_string_nul (p r : list byte) :
  c_string (p ++ x00 :: r) = c_string p.
Proof.
  induction p as [|b p IH]; [reflexivity|].
  cbn [app c_string]. destruct (Byte.eqb b x00); [reflexivity|].
  rewrite IH. reflexivity.
Qed.

(** The upgrade is decided by the bytes [Upgrade: websocket] alone,
    wherever they stand in the first 4095 bytes read, provided no NUL
    byte comes before them: whatever the method, the path, the other
    headers, a key header present or not, the connection is handled as
    a WebSocket upgrade. *)
Theorem upgrade_header_anywhere (mutex_recursive : bool)
    (net_recv : sc_socket -> option (list byte))
    (net_send_all : sc_socket -> list byte -> Z)
    (HTML_CLIENT : list byte) (sock : sc_socket) (w : world)
    (pre post : list byte) :
  net_recv sock
  = Some (pre ++ bytes_of_string "Upgrade: websocket" ++ post) ->
  Forall (fun b => b <> x00) pre ->
  (length pre + 18 <= 4095)%nat ->
  sc_webrtc_server_handle_http mutex_recursive net_recv net_send_all
    HTML_CLIENT sock w
  = sc_webrtc_server_handle_websocket mutex_recursive net_send_all sock w.
Proof.
  intros Hrecv Hpre Hlen. unfold sc_webrtc_server_handle_http.
  rewrite Hrecv.
  change (Z.to_nat (4096 - 1)) with 4095%nat.
  set (needle := bytes_of_string "Upgrade: websocket").
  assert (Hn : length needle = 18%nat) by reflexivity.
  rewrite app_assoc.
  rewrite take_app_ge by (rewrite length_app; lia).
  rewrite <- app_assoc.
  destruct (Z.leb_spec
              (Z.of_nat (length (pre ++ needle
                 ++ take (4095 - length (pre ++ needle)) post))) 0)
    as [Hempty|_].
  { rewrite !length_app in Hempty. lia. }
  rewrite c_string_app by exact Hpre.
  assert (Hneedle : Forall (fun b => b <> x00) needle)
    by (repeat constructor; discriminate).
  rewrite c_string_app by exact Hneedle.
  rewrite strstr_app. reflexivity.
Qed.

Lemma upgrade_header_anywhere_witness :
  sc_webrtc_server_handle_http false
    (fun _ => Some (bytes_of_string "DELETE /x" ++
                    bytes_of_string "Upgrade: websocket" ++
                    bytes_of_string " and more"))
    always_sends sample_page 7 fresh_world
  = sc_webrtc_server_handle_websocket false always_sends 7 fresh_world.
Proof.
  apply (upgrade_header_anywhere false _ always_sends sample_page 7
           fresh_world (bytes_of_string "DELETE /x")
           (bytes_of_string " and more")).
  - reflexivity.
  - repeat constructor; discriminate.
  - vm_compute. lia.
Defined.

(** The request buffer is examined as a C string: an upgrade header
    that comes after a NUL byte is not seen.  When the bytes before the
    first NUL (at least one, fewer than 4095) do not contain
    [Upgrade: websocket], the page is served, whatever follows. *)
Theorem upgrade_header_after_nul_ignored (mutex_recursive : bool)
    (net_recv : sc_socket -> option (list byte))
    (net_send_all : sc_socket -> list byte -> Z)
    (HTML_CLIENT : list byte) (sock : sc_socket) (w : world)
    (pre post : list byte) :
  net_recv sock = Some (pre ++ x00 :: post) ->
  (length pre < 4095)%nat ->
  strstr (c_string pre) (bytes_of_string "Upgrade: websocket") = false ->
  sc_webrtc_server_handle_http mutex_recursive net_recv net_send_all
    HTML_CLIENT sock w
  = Done (0 <? net_send_all sock
                 (http_response (length HTML_CLIENT) HTML_CLIENT))
      (mk_world (srv w)
         (log w ++ [NetSendAll sock
                      (http_response (length HTML_CLIENT) HTML_CLIENT)])).
Proof.
  intros Hrecv Hlen Hno. unfold sc_webrtc_server_handle_http.
  rewrite Hrecv.
  change (Z.to_nat (4096 - 1)) with 4095%nat.
  rewrite take_app_ge by lia.
  replace (4095 - length pre)%nat with (S (4094 - length pre)) by lia.
  cbn [take].
  destruct (Z.leb_spec
              (Z.of_nat (length (pre ++ x00
                 :: take (4094 - length pre) post))) 0) as [Hempty|_].
  { rewrite length_app in Hempty. cbn [length] in Hempty. lia. }
  rewrite c_string_nul, Hno. reflexivity.
Qed.

Lemma upgrade_header_after_nul_ignored_witness :
  sc_webrtc_server_handle_http false
    (fun _ => Some (bytes_of_string "GET /" ++ x00
                    :: bytes_of_string "Upgrade: websocket"))
    always_sends sample_page 7 fresh_world
  = Done true
      (mk_world (srv fresh_world)
         [NetSendAll 7 (http_response 13 sample_page)]).
Proof.
  exact (upgrade_header_after_nul_ignored false _ always_sends sample_page 7
           fresh_world (bytes_of_string "GET /")
           (bytes_of_string "Upgrade: websocket") eq_refl
           ltac:(vm_compute; lia) eq_refl).
Defined.

(** ** The frame sink *)

Lemma push_loop_idle (ids : list Z) (w : world) :
  (forall i, i ∈ ids ->
     0 <= i /\ (Z.to_nat i < length (clients (srv w)))%nat) ->
  for_each ids
    (fun i =>
       do client <- read_client i;
       when (connected client
             && match peer_connection client with
                | Some _ => true
                | None => false
                end)
         (ret tt)) w
  = Done tt w.
Proof.
  induction ids as [|i rest IH]; intros Hin; [reflexivity|].
  cbn [for_each]. unfold bind at 1.
  destruct (Hin i (list_elem_of_here _ _)) as [Hi Hlt].
  destruct (lookup_lt_is_Some_2 _ _ Hlt) as [c Hc].
  unfold bind at 1. rewrite (read_client_ok i c w Hi Hc).
  replace (when _ (ret tt) w) with (Done tt w)
    by (destruct (_ && _); reflexivity).
  apply IH. intros j Hj. apply Hin. apply list_elem_of_further. exact Hj.
Qed.

(** Pushing a frame to the sink sends nothing: with the lock free (or a
    recursive lock) and a well-formed table, [webrtc_frame_sink_push]
    returns [true] and leaves the whole state, events included, exactly
    as it was, however many clients are connected. *)
Theorem frame_sink_push_changes_nothing (mutex_recursive : bool) (w : world) :
  mutex (srv w) = 0%nat \/ mutex_recursive = true ->
  registry_ok (srv w) ->
  webrtc_frame_sink_push mutex_recursive w = Done true w.
Proof.
  destruct w as [[ss p st mu cl cc cb1 cb2] lg].
  unfold registry_ok, SC_WEBRTC_MAX_CLIENTS. cbn [srv mutex clients client_count].
  intros Hlock [Hlen Hcc].
  assert (Hloop : forall m : nat,
    for_each (seqZ 0 cc)
      (fun i =>
         do client <- read_client i;
         when (connected client
               && match peer_connection client with
                  | Some _ => true
                  | None => false
                  end)
           (ret tt))
      (mk_world (mk_server ss p st m cl cc cb1 cb2) lg)
    = Done tt (mk_world (mk_server ss p st m cl cc cb1 cb2) lg)).
  { intros m. apply push_loop_idle. intros i Hi.
    apply elem_of_seqZ in Hi. cbn. lia. }
  assert (Hconv : forall m m' : nat,
    sc_mutex_lock mutex_recursive
      (mk_world (mk_server ss p st m cl cc cb1 cb2) lg)
    = Done tt (mk_world (mk_server ss p st m' cl cc cb1 cb2) lg) ->
    webrtc_frame_sink_push mutex_recursive
      (mk_world (mk_server ss p st m cl cc cb1 cb2) lg)
    = match
        for_each (seqZ 0 cc)
          (fun i =>
             do client <- read_client i;
             when (connected client
                   && match peer_connection client with
                      | Some _ => true
                      | None => false
                      end)
               (ret tt))
          (mk_world (mk_server ss p st m' cl cc cb1 cb2) lg)
      with
      | Done _ w' => (sc_mutex_unlock ;; ret true) w'
      | Deadlock w' => Deadlock w'
      | OutOfBounds => OutOfBounds
      end).
  { intros m m' Hl. unfold webrtc_frame_sink_push. unfold bind at 1.
    rewrite Hl. reflexivity. }
  destruct mu as [|mu].
  - rewrite (Hconv 0%nat 1%nat) by reflexivity.
    rewrite (Hloop 1%nat). reflexivity.
  - destruct Hlock as [Hlock|Hlock]; [discriminate|].
    rewrite (Hconv (S mu) (S (S mu)))
      by (unfold sc_mutex_lock; rewrite Hlock; reflexivity).
    rewrite (Hloop (S (S mu))). reflexivity.
Qed.

Lemma frame_sink_push_changes_nothing_witness :
  webrtc_frame_sink_push false busy_world = Done true busy_world.
Proof.
  exact (frame_sink_push_changes_nothing false busy_world (or_introl eq_refl)
           ltac:(split; [reflexivity|split; vm_compute; discriminate])).
Defined.

(** ** Initialisation *)

Lemma init_cases (SC_SOCKET_NONE : sc_socket) (sc_mutex_init : bool)
    (net_socket : sc_socket) (net_listen : sc_socket -> Z -> bool)
    (params_port : Z) (server : sc_webrtc_server) :
  exists (ok : bool) (s' : sc_webrtc_server) (evs : list resource_event),
    sc_webrtc_server_init SC_SOCKET_NONE sc_mutex_init net_socket net_listen
      params_port server = (ok, s', evs)
    /\ client_count s' = 0
    /\ stopped s' = false
    /\ port s' = (if params_port =? 0 then 8080 else params_port)
    /\ clients s' = clients server
    /\ on_client_connected s' = on_client_connected server
    /\ on_client_disconnected s' = on_client_disconnected server
    /\ (ok = false -> held_resources evs (false, []) = (false, []))
    /\ (ok = true ->
        held_resources evs (false, []) = (true, [server_socket s'])
        /\ server_socket s' = net_socket
        /\ server_socket s' <> SC_SOCKET_NONE
        /\ mutex s' = 0%nat
        /\ SocketListening (server_socket s') (port s') 5 ∈ evs
        /\ sc_mutex_init = true
        /\ net_listen net_socket (port s') = true).
Proof.
  destruct server as [ss p st mu cl cc cb1 cb2].
  unfold sc_webrtc_server_init, SC_WEBRTC_DEFAULT_PORT.
  cbn [set_port set_stopped set_client_count set_mutex set_server_socket
       server_socket port stopped mutex clients client_count
       on_client_connected on_client_disconnected].
  set (pt := if params_port =? 0 then 8080 else params_port).
  destruct sc_mutex_init; cbn [negb].
  2:{ eexists _, _, _. split; [reflexivity|]. cbn.
      repeat split; discriminate. }
  destruct (Z.eqb_spec net_socket SC_SOCKET_NONE) as [He|Hne].
  { eexists _, _, _. split; [reflexivity|]. cbn.
    repeat split; discriminate. }
  destruct (net_listen net_socket pt) eqn:Hl; cbn [negb].
  - eexists _, _, _. split; [reflexivity|]. cbn.
    repeat split; try discriminate; try assumption.
    apply list_elem_of_further, list_elem_of_further, list_elem_of_here.
  - eexists _, _, _. split; [reflexivity|]. cbn.
    rewrite Z.eqb_refl. cbn. repeat split; discriminate.
Qed.

(** [sc_webrtc_server_init] gives back what it took when it fails, on
    each of its three failure paths: no mutex and no socket is left.
    When it succeeds it holds exactly the mutex and the listening
    socket, which is not [SC_SOCKET_NONE] and listens with backlog 5 on
    the port stored: [params->port], or the default 8080 when that is 0.
    In both cases the registry is empty and the stop flag clear; the
    table and the callbacks are not touched. *)
Theorem init_resources (SC_SOCKET_NONE : sc_socket) (sc_mutex_init : bool)
    (net_socket : sc_socket) (net_listen : sc_socket -> Z -> bool)
    (params_port : Z) (server : sc_webrtc_server) :
  exists (ok : bool) (s' : sc_webrtc_server) (evs : list resource_event),
    sc_webrtc_server_init SC_SOCKET_NONE sc_mutex_init net_socket net_listen
      params_port server = (ok, s', evs)
    /\ client_count s' = 0
    /\ stopped s' = false
    /\ port s' = (if params_port =? 0 then 8080 else params_port)
    /\ clients s' = clients server
    /\ on_client_connected s' = on_client_connected server
    /\ on_client_disconnected s' = on_client_disconnected server
    /\ (ok = false -> held_resources evs (false, []) = (false, []))
    /\ (ok = true ->
        held_resources evs (false, []) = (true, [server_socket s'])
        /\ server_socket s' = net_socket
        /\ server_socket s' <> SC_SOCKET_NONE
        /\ mutex s' = 0%nat
        /\ SocketListening (server_socket s') (port s') 5 ∈ evs
        /\ sc_mutex_init = true
        /\ net_listen net_socket (port s') = true).
Proof.
  destruct (init_cases SC_SOCKET_NONE sc_mutex_init net_socket net_listen
              params_port server) as (ok & s' & evs & H).
  exists ok, s', evs. exact H.
Qed.

(** Successive registrations into free slots: the ids are the
    successive counts, client number [i] of the series lands in slot
    count + [i] with its transport, and the slots below the starting
    count, the log, the stop flag and the listening socket are left
    alone. *)
Lemma add_clients_slots (mutex_recursive : bool) (sockets : list sc_socket) :
  forall w : world,
    mutex (srv w) = 0%nat ->
    0 <= client_count (srv w) ->
    client_count (srv w) + Z.of_nat (length sockets)
      <= SC_WEBRTC_MAX_CLIENTS ->
    Z.of_nat (length (clients (srv w))) = SC_WEBRTC_MAX_CLIENTS ->
    exists w' : world,
      add_clients mutex_recursive sockets w
      = Done (seqZ (client_count (srv w)) (Z.of_nat (length sockets))) w'
      /\ log w' = log w
      /\ server_socket (srv w') = server_socket (srv w)
      /\ mutex (srv w') = 0%nat
      /\ client_count (srv w')
         = client_count (srv w) + Z.of_nat (length sockets)
      /\ Z.of_nat (length (clients (srv w'))) = SC_WEBRTC_MAX_CLIENTS
      /\ (forall j : nat,
            (j < Z.to_nat (client_count (srv w)))%nat ->
            clients (srv w') !! j = clients (srv w) !! j)
      /\ (forall (i : nat) (s : sc_socket),
            sockets !! i = Some s ->
            clients (srv w') !! (Z.to_nat (client_count (srv w)) + i)%nat
            = Some (mk_client (client_count (srv w) + Z.of_nat i)
                      None None true s)).
Proof.
  unfold SC_WEBRTC_MAX_CLIENTS.
  induction sockets as [|a rest IH]; intros w Hmu Hcc Hroom Hlen.
  - exists w. cbn [add_clients length]. unfold ret.
    split; [reflexivity|]. split; [reflexivity|]. split; [reflexivity|].
    split; [exact Hmu|]. split; [cbn; lia|]. split; [exact Hlen|].
    split; [reflexivity|]. intros i s Hi. discriminate.
  - cbn [add_clients length] in *. unfold bind at 1.
    rewrite add_client_free
      by (unfold SC_WEBRTC_MAX_CLIENTS; assumption || lia).
    set (w1 := mk_world _ (log w)).
    assert (Hw1 : mutex (srv w1) = 0%nat
                  /\ client_count (srv w1) = client_count (srv w) + 1
                  /\ Z.of_nat (length (clients (srv w1))) = 10
                  /\ log w1 = log w
                  /\ server_socket (srv w1) = server_socket (srv w)
                  /\ clients (srv w1)
                     = <[Z.to_nat (client_count (srv w)) :=
                          mk_client (client_count (srv w)) None None true a]>
                         (clients (srv w))).
    { subst w1. destruct w as [[] ?]. cbn in *. rewrite length_insert.
      repeat split; assumption. }
    destruct Hw1 as (Hmu1 & Hcc1 & Hlen1 & Hlog1 & Hss1 & Hcl1).
    destruct (IH w1 Hmu1 ltac:(lia) ltac:(lia) Hlen1)
      as (w' & Hrun & Hlog & Hss & Hmu' & Hcc' & Hlen' & Hlow & Hnew).
    exists w'. unfold bind at 1. rewrite Hrun. unfold ret.
    split.
    { f_equal. rewrite Nat2Z.inj_succ.
      rewrite (seqZ_cons (client_count (srv w))) by lia.
      rewrite Hcc1. f_equal. f_equal; lia. }
    split; [congruence|]. split; [congruence|]. split; [exact Hmu'|].
    split; [lia|]. split; [exact Hlen'|]. split.
    + intros j Hj. rewrite Hlow by lia. rewrite Hcl1.
      apply list_lookup_insert_ne. lia.
    + intros i s Hi. destruct i as [|i].
      * injection Hi as ->. rewrite Nat.add_0_r, Z.add_0_r.
        rewrite Hlow by lia. rewrite Hcl1.
        apply list_lookup_insert_eq. lia.
      * cbn in Hi. specialize (Hnew i s Hi).
        rewrite Hcc1 in Hnew.
        replace (Z.to_nat (client_count (srv w)) + S i)%nat
          with (Z.to_nat (client_count (srv w) + 1) + i)%nat by lia.
        rewrite Hnew. do 2 f_equal. lia.
Qed.

(** From initialisation to shutdown: on a structure with its ten slots,
    holding anything before, a successful [sc_webrtc_server_init]
    followed by [SC_WEBRTC_MAX_CLIENTS] registrations yields the ids 0
    to 9; a [sc_webrtc_server_stop] after that (recursive lock) closes
    the transport of every one of the ten clients and, last, the
    listening socket that the initialisation created. *)
Theorem init_then_fill_then_stop (SC_SOCKET_NONE : sc_socket)
    (net_socket : sc_socket) (net_listen : sc_socket -> Z -> bool)
    (params_port : Z) (server s' : sc_webrtc_server)
    (evs : list resource_event) (sockets : list sc_socket) :
  Z.of_nat (length (clients server)) = SC_WEBRTC_MAX_CLIENTS ->
  Z.of_nat (length sockets) = SC_WEBRTC_MAX_CLIENTS ->
  sc_webrtc_server_init SC_SOCKET_NONE true net_socket net_listen
    params_port server = (true, s', evs) ->
  exists (w1 w2 : world) (closes : list event),
    add_clients true sockets (mk_world s' [])
    = Done [0; 1; 2; 3; 4; 5; 6; 7; 8; 9] w1
    /\ log w1 = []
    /\ sc_webrtc_server_stop true SC_SOCKET_NONE w1 = Done tt w2
    /\ log w2 = closes ++ [NetClose net_socket]
    /\ (forall s, s ∈ sockets -> NetClose s ∈ closes)
    /\ server_socket (srv w2) = SC_SOCKET_NONE.
Proof.
  intros Hlen Hn Hinit.
  destruct (init_cases SC_SOCKET_NONE true net_socket net_listen
              params_port server)
    as (ok & s1 & evs1 & Hrun & Hcc & Hst & Hport & Hcl & _ & _ & _ & Hok).
  rewrite Hinit in Hrun. injection Hrun as <- <- <-.
  destruct (Hok eq_refl) as (_ & Hss & Hne & Hmu & _).
  destruct (add_clients_slots true sockets (mk_world s' []))
    as (w1 & Hadd & Hlog1 & Hss1 & Hmu1 & Hcc1 & Hlen1 & _ & Hnew).
  { exact Hmu. } { cbn. lia. } { cbn. lia. } { cbn. congruence. }
  cbn [srv log] in *. rewrite Hcc, Hn in Hadd. rewrite Hcc, Hn in Hcc1.
  rewrite Hcc in Hnew.
  destruct (stop_completes_recursive SC_SOCKET_NONE w1 Hmu1)
    as (w2 & closes & Hstop & _ & _ & Hss2 & Hlog2 & _ & Hev).
  { split; [exact Hlen1|]. rewrite Hcc1. unfold SC_WEBRTC_MAX_CLIENTS. lia. }
  { congruence. }
  exists w1, w2, closes.
  split; [exact Hadd|]. split; [exact Hlog1|]. split; [exact Hstop|].
  split; [rewrite Hlog2, Hlog1, Hss1, Hss; reflexivity|].
  split; [|exact Hss2].
  intros s Hs. apply list_elem_of_lookup in Hs as [i Hi].
  pose proof (lookup_lt_Some _ _ _ Hi) as Hlt.
  specialize (Hnew i s Hi). cbn in Hnew.
  destruct (Hev (Z.of_nat i) _ ltac:(lia)
              ltac:(rewrite Nat2Z.id; exact Hnew) eq_refl) as [Hclose _].
  exact Hclose.
Qed.

Lemma init_then_fill_then_stop_witness :
  exists (w1 w2 : world) (closes : list event),
    add_clients true [11; 12; 13; 14; 15; 16; 17; 18; 19; 20]
      (mk_world
         (mk_server 3 8080 false 0 (clients raw_server) 0 false true) [])
    = Done [0; 1; 2; 3; 4; 5; 6; 7; 8; 9] w1
    /\ log w1 = []
    /\ sc_webrtc_server_stop true (-1) w1 = Done tt w2
    /\ log w2 = closes ++ [NetClose 3]
    /\ (forall s, s ∈ [11; 12; 13; 14; 15; 16; 17; 18; 19; 20] ->
          NetClose s ∈ closes)
    /\ server_socket (srv w2) = -1.
Proof.
  exact (init_then_fill_then_stop (-1) 3 (fun _ _ => true) 0 raw_server
           _ _ [11; 12; 13; 14; 15; 16; 17; 18; 19; 20]
           eq_refl eq_refl eq_refl).
Defined.
